(** * Scikit-learn / Plotly example notebooks

    The repository holds two Jupyter notebooks:
    - the Gaussian Process regression example (noiseless and noisy case),
    - the scalability benchmark of approximate nearest neighbours.

    The code cells are embedded twice.  Their behaviour is embedded as
    programs over the calls they make into numpy, scikit-learn, plotly and
    the notebook tooling: a call is answered by a library, which may raise.
    Their text is embedded as syntax trees, for the statements that are
    about how the code is written and about the way an exception travels
    through it.  float64 values are idealised as rationals; the bounds
    stated below are kept by every monotone rounding. *)

From Stdlib Require Import QArith Qabs Qpower Qround Lqa ZArith List Ascii String Lia
  Bool Sorted.
From stdpp Require Import base list gmap strings.

Local Open Scope Q_scope.
Local Open Scope string_scope.
Local Open Scope list_scope.

(** ** Python results *)

Inductive exn : Type :=
| IndexError
| ValueError
| LibraryError (code : nat).

Inductive result (A : Type) : Type :=
| OK (a : A)
| Raise (e : exn).
Arguments OK {A} a.
Arguments Raise {A} e.

#[global] Instance result_ret : MRet result := fun _ a => OK a.
#[global] Instance result_bind : MBind result := fun _ _ k m =>
  match m with
  | OK a => k a
  | Raise e => Raise e
  end.

(** [for v in xs: acc = body acc v], stopping at the first exception. *)
Fixpoint for_acc {A S : Type} (xs : list A) (body : S -> A -> result S) (acc : S)
  : result S :=
  match xs with
  | [] => OK acc
  | v :: rest =>
      match body acc v with
      | OK acc' => for_acc rest body acc'
      | Raise e => Raise e
      end
  end.

Fixpoint map_result {A B : Type} (g : A -> result B) (xs : list A) : result (list B) :=
  match xs with
  | [] => OK []
  | v :: rest =>
      b ← g v;
      bs ← map_result g rest;
      OK (b :: bs)
  end.

Fixpoint zip_result {A B C : Type} (g : A -> B -> result C) (xs : list A) (ys : list B)
  : result (list C) :=
  match xs, ys with
  | v :: xs', w :: ys' =>
      c ← g v w;
      cs ← zip_result g xs' ys';
      OK (c :: cs)
  | _, _ => OK []
  end.

(** ** numpy arrays

    A one-dimensional ndarray is a list, a two-dimensional one a list of
    rows. *)

Definition num : Type := Q.
Definition vec : Type := list num.
Definition mat : Type := list (list num).

(** [a[i]] on a Python list or along the first axis of an ndarray. *)
Definition getitem {A : Type} (a : list A) (i : nat) : result A :=
  match nth_error a i with
  | Some v => OK v
  | None => Raise IndexError
  end.

(** [a[i]] for a Python integer: a negative index counts from the end. *)
Definition getitem_int {A : Type} (a : list A) (i : Z) : result A :=
  let n := Z.of_nat (length a) in
  if (0 <=? i)%Z then getitem a (Z.to_nat i)
  else if (0 <=? i + n)%Z then getitem a (Z.to_nat (i + n))
  else Raise IndexError.

(** [a[[i1, ..., ik]]]: the rows picked by an index list. *)
Definition take_rows {A : Type} (a : list A) (idx : list Z) : result (list A) :=
  map_result (getitem_int a) idx.

(** numpy broadcasting along one axis: equal lengths go elementwise, an
    axis of length one is stretched, anything else is a [ValueError]. *)
Definition broadcast {A B C : Type} (op : A -> B -> result C)
    (a : list A) (b : list B) : result (list C) :=
  if (length a =? length b)%nat then zip_result op a b
  else match a, b with
       | [a0], _ => map_result (op a0) b
       | _, [b0] => map_result (fun v => op v b0) a
       | _, _ => Raise ValueError
       end.

Definition scalar_op (op : num -> num -> num) : num -> num -> result num :=
  fun p q => OK (op p q).

Definition vec_op (op : num -> num -> num) : vec -> vec -> result vec :=
  broadcast (scalar_op op).

Definition mat_op (op : num -> num -> num) : mat -> mat -> result mat :=
  broadcast (vec_op op).

(** [a += b] on a one-dimensional [a]: the result must keep the shape of
    [a]. *)
Definition vec_iadd (a b : vec) : result vec :=
  if (length a =? length b)%nat then vec_op Qplus a b
  else match b with
       | [_] => vec_op Qplus a b
       | _ => Raise ValueError
       end.

Definition atleast_2d (v : vec) : mat := [v].

(** [m.T] *)
Fixpoint transpose (m : mat) : mat :=
  match m with
  | [] => []
  | [r] => map (fun v => [v]) r
  | r :: rest => zip_with cons r (transpose rest)
  end.

(** [m.ravel()] *)
Definition ravel (m : mat) : vec := concat m.

(** [np.linspace(start, stop, n)] *)
Definition linspace (start stop : num) (n : nat) : vec :=
  match n with
  | 0%nat => []
  | 1%nat => [start]
  | _ =>
      let step := (stop - start) / inject_Z (Z.of_nat (n - 1)) in
      map (fun i => start + inject_Z (Z.of_nat i) * step) (seq 0 n)
  end.

(** [np.concatenate([a1, ..., an])] along the first axis. *)
Definition concatenate {A : Type} (parts : list (list A)) : list A := concat parts.

(** [np.in1d(ar1, ar2)] on flattened integer arrays, with [True] as one. *)
Definition in1d (ar1 ar2 : list (list Z)) : vec :=
  map (fun v => if existsb (Z.eqb v) (concat ar2) then 1 else 0) (concat ar1).

(** The largest [v] below [hi] with [v ^ q <= n], by bisection. *)
Fixpoint iroot_search (fuel : nat) (q : positive) (n lo hi : Z) : Z :=
  match fuel with
  | O => lo
  | S fuel' =>
      if (hi - lo <=? 1)%Z then lo
      else
        let mid := ((lo + hi) / 2)%Z in
        if (mid ^ Zpos q <=? n)%Z then iroot_search fuel' q n mid hi
        else iroot_search fuel' q n lo mid
  end.

Definition iroot (q : positive) (n : Z) : Z :=
  iroot_search (S (Z.to_nat (Z.log2_up (n + 2)))) q n 0 (n + 1).

(** [np.log10] at a power of ten, the only place the notebooks use it:
    the number of times ten divides the argument. *)
Fixpoint log10_search (fuel : nat) (n : Z) : Z :=
  match fuel with
  | O => 0
  | S fuel' => if (10 <=? n)%Z then (1 + log10_search fuel' (n / 10))%Z else 0%Z
  end.

Definition log10 (n : Z) : num := inject_Z (log10_search (Z.to_nat (Z.log2_up n)) n).

(** [int(10 ** e)] for a rational exponent [e >= 0]: the integer part of
    the [Qden e]-th root of [10 ^ Qnum e]. *)
Definition floor_pow10 (e : num) : Z :=
  let e' := Qred e in
  iroot (Qden e') (10 ^ Qnum e').

(** [np.logspace(start, stop, n).astype(np.int)] *)
Definition logspace_int (start stop : num) (n : nat) : list Z :=
  map floor_pow10 (linspace start stop n).

(** ** The helper function [data_to_plotly]

    [def data_to_plotly(x)]: the loop over [range(0, len(x))] appends
    [x[i][0]] to the list [k]. *)
Definition data_to_plotly {A : Type} (x : list (list A)) : result (list A) :=
  for_acc (seq 0 (length x))
    (fun k i =>
       row ← getitem x i;
       v ← getitem row 0%nat;
       OK (k ++ [v]))
    [].

(** The first column of [x], read off row by row. *)
Fixpoint first_column {A : Type} (x : list (list A)) : result (list A) :=
  match x with
  | [] => OK []
  | [] :: _ => Raise IndexError
  | (v :: _) :: rest =>
      match first_column rest with
      | OK k => OK (v :: k)
      | Raise e => Raise e
      end
  end.

(** ** Objects of the called libraries *)

(** [sklearn.gaussian_process.kernels]: [C] is [ConstantKernel]; the
    product of two kernels is what [k1 * k2] builds. *)
Inductive Kernel : Type :=
| ConstantKernel (constant_value : num) (constant_value_bounds : num * num)
| RBFKernel (length_scale : num) (length_scale_bounds : num * num)
| ProductKernel (k1 k2 : Kernel).

(** The keyword arguments the notebooks pass to the estimators; [alpha]
    is [None] where the call leaves it out. *)
Record GPR_params : Type := {
  kernel : Kernel;
  alpha : option vec;
  n_restarts_optimizer : Z
}.

Record LSHForest_params : Type := {
  n_estimators : Z;
  n_candidates : Z;
  lshf_n_neighbors : Z
}.

Record NearestNeighbors_params : Type := {
  algorithm : string;
  metric : string;
  nn_n_neighbors : Z
}.

Inductive estimator : Type :=
| GPR (p : GPR_params)
| LSHF (p : LSHForest_params)
| NNbrs (p : NearestNeighbors_params).

(** [plotly.graph_objs] *)
Record Line : Type := {
  color : string;
  dash : option string;
  width : option Z
}.

Record Scatter : Type := {
  sc_x : vec;
  sc_y : vec;
  mode : option string;
  line : option Line;
  marker : option string;
  error_y : option vec;
  fill : option string;
  name : option string
}.

Record Axis : Type := {
  title : string;
  range : option (num * num)
}.

Record Layout : Type := {
  layout_title : option string;
  xaxis : Axis;
  yaxis : Axis
}.

Record Figure : Type := {
  data : list Scatter;
  layout : Layout
}.

(** The two [<link>] elements of the publishing cell. *)
Inductive stylesheet : Type :=
| OpenSansFonts
| NotebookCustomCss.

(** ** Calls into the libraries

    A [call X] is one call that leaves the notebook, answered with an [X]
    or with an exception.  Constructors of library objects are calls too:
    they can raise, and answer with nothing more than the object built from
    their arguments. *)
Inductive call : Type -> Type :=
| np_random_seed (seed : Z) : call unit
| np_sin (a : mat) : call mat
| np_random_random (size : nat) : call vec
| np_random_normal (loc : num) (scale : vec) : call vec
| np_random_RandomState (seed : Z) : call unit
| rng_randint (low high : Z) : call Z
| np_mean (a : vec) : call num
| np_std (a : vec) : call num
| make_blobs (n_samples n_features centers : Z) (shuffle : bool) (random_state : Z)
    : call (mat * list Z)
| new_kernel (k : Kernel) : call unit
| new_estimator (e : estimator) : call unit
| fit (e : estimator) (X : mat) (y : option vec) : call unit
| predict (e : estimator) (x : mat) (return_std : bool) : call (vec * vec)
| kneighbors (e : estimator) (query : mat) (return_distance : bool) : call (list (list Z))
| time_time : call num
| go_Scatter (s : Scatter) : call unit
| go_Layout (l : Layout) : call unit
| go_Figure (f : Figure) : call unit
| py_iplot (f : Figure) : call unit
| print_ (text : string) (args : list num) : call unit
| display_HTML (s : stylesheet) : call unit
| pip_install (package : string) : call unit
| publisher_publish (args : list string) : call unit.

(** ** Notebook programs *)

Inductive prog (R : Type) : Type :=
| Ret (r : R)
| Throw (e : exn)
| Vis {X : Type} (c : call X) (k : X -> prog R).
Arguments Ret {R} r.
Arguments Throw {R} e.
Arguments Vis {R X} c k.

Fixpoint prog_bind {A B : Type} (k : A -> prog B) (m : prog A) : prog B :=
  match m with
  | Ret a => k a
  | Throw e => Throw e
  | Vis c k' => Vis c (fun v => prog_bind k (k' v))
  end.

#[global] Instance prog_ret : MRet prog := fun _ a => Ret a.
#[global] Instance prog_mbind : MBind prog := fun _ _ k m => prog_bind k m.

(** One call into a library. *)
Definition invoke {X : Type} (c : call X) : prog X := Vis c Ret.

(** A step computed by numpy's array operations in place. *)
Definition lift {A : Type} (r : result A) : prog A :=
  match r with
  | OK a => Ret a
  | Raise e => Throw e
  end.

(** [for v in xs: body], the loop variables carried in [acc]. *)
Fixpoint for_each {A S : Type} (xs : list A) (body : S -> A -> prog S) (acc : S)
  : prog S :=
  match xs with
  | [] => Ret acc
  | v :: rest => acc' ← body acc v; for_each rest body acc'
  end.

(** ** Executions

    A library answers every call from its state of the world.  An
    execution records each call together with its answer. *)
Record library (W : Type) : Type := {
  answer : forall X : Type, call X -> W -> result X * W
}.
Arguments answer {W} l {X} c w.

Inductive entry : Type :=
| Entry {X : Type} (c : call X) (a : result X).

Record execution (R W : Type) : Type := {
  trace : list entry;
  outcome : result R;
  world : W
}.
Arguments trace {R W} e.
Arguments outcome {R W} e.
Arguments world {R W} e.

Fixpoint run {R W : Type} (lib : library W) (p : prog R) (w : W) : execution R W :=
  match p with
  | Ret r => {| trace := []; outcome := OK r; world := w |}
  | Throw e => {| trace := []; outcome := Raise e; world := w |}
  | Vis c k =>
      match answer lib c w with
      | (OK v, w') =>
          let ex := run lib (k v) w' in
          {| trace := Entry c (OK v) :: trace ex;
             outcome := outcome ex;
             world := world ex |}
      | (Raise e, w') =>
          {| trace := [Entry c (Raise e)]; outcome := Raise e; world := w' |}
      end
  end.

(** The exception a recorded call was answered with, if any. *)
Definition raised (en : entry) : option exn :=
  match en with
  | Entry _ (Raise e) => Some e
  | Entry _ (OK _) => None
  end.

(** ** A logic of calls

    [wp K P p Q]: whatever the libraries answer within the contract [K],
    every call of [p] satisfies [P] and a returned value satisfies [Q]. *)
Definition contract : Type := forall X : Type, call X -> X -> Prop.
Definition call_pred : Type := forall X : Type, call X -> Prop.

Fixpoint wp {R : Type} (K : contract) (P : call_pred) (p : prog R) (Q : R -> Prop)
  : Prop :=
  match p with
  | Ret r => Q r
  | Throw _ => True
  | Vis c k => P _ c /\ forall v, K _ c v -> wp K P (k v) Q
  end.

Definition any_answer : contract := fun _ _ _ => True.

Definition honours {W : Type} (lib : library W) (K : contract) : Prop :=
  forall (X : Type) (c : call X) (w w' : W) (v : X),
    answer lib c w = (OK v, w') -> K X c v.

Definition entry_sat (P : call_pred) (en : entry) : Prop :=
  match en with
  | Entry c _ => P _ c
  end.

(** [leads P p]: every path of [p] that returns has made a call in [P]. *)
Fixpoint leads {R : Type} (P : call_pred) (p : prog R) : Prop :=
  match p with
  | Ret _ => False
  | Throw _ => True
  | Vis c k => P _ c \/ forall v, leads P (k v)
  end.

(** ** The Gaussian Process notebook *)

(** [C(constant_value, constant_value_bounds)] *)
Definition C (constant_value : num) (constant_value_bounds : num * num) : prog Kernel :=
  let k := ConstantKernel constant_value constant_value_bounds in
  invoke (new_kernel k);; mret k.

(** [RBF(length_scale, length_scale_bounds)] *)
Definition RBF (length_scale : num) (length_scale_bounds : num * num) : prog Kernel :=
  let k := RBFKernel length_scale length_scale_bounds in
  invoke (new_kernel k);; mret k.

(** [k1 * k2] on kernels *)
Definition kernel_mul (k1 k2 : Kernel) : prog Kernel :=
  let k := ProductKernel k1 k2 in
  invoke (new_kernel k);; mret k.

(** [GaussianProcessRegressor(kernel=..., alpha=..., n_restarts_optimizer=...)] *)
Definition GaussianProcessRegressor (kernel : Kernel) (alpha : option vec)
    (n_restarts_optimizer : Z) : prog estimator :=
  let gp := GPR {| kernel := kernel; alpha := alpha;
                   n_restarts_optimizer := n_restarts_optimizer |} in
  invoke (new_estimator gp);; mret gp.

(** [go.Scatter(...)], [go.Layout(...)], [go.Figure(...)] *)
Definition Scatter_ (s : Scatter) : prog Scatter := invoke (go_Scatter s);; mret s.
Definition Layout_ (l : Layout) : prog Layout := invoke (go_Layout l);; mret l.
Definition Figure_ (f : Figure) : prog Figure := invoke (go_Figure f);; mret f.

(** [def f(x): return x * np.sin(x)] *)
Definition f (x : mat) : prog mat :=
  s ← invoke (np_sin x);
  lift (mat_op Qmult x s).

(** The cell under "The Noiseless Case". *)
Definition noiseless_case : prog (mat * vec * mat * Kernel * vec * vec) :=
  let X := transpose (atleast_2d [1; 3; 5; 6; 7; 8]) in
  fX ← f X;
  let y := ravel fX in
  let x := transpose (atleast_2d (linspace 0 10 1000)) in
  c ← C 1.0 (1e-3, 1e3);
  r ← RBF 10 (1e-2, 1e2);
  kernel ← kernel_mul c r;
  gp ← GaussianProcessRegressor kernel None 9;
  invoke (fit gp X (Some y));;
  '(y_pred, sigma) ← invoke (predict gp x true);
  mret (X, y, x, kernel, y_pred, sigma).

Definition xaxis_x : Axis := {| title := "<i>x</i>"; range := None |}.
Definition yaxis_fx : Axis := {| title := "<i>f(x)</i>"; range := None |}.

(** The trace [p4] of both plotting cells. *)
Definition confidence_band (x : mat) (y_pred sigma : vec) : prog Scatter :=
  p4_x ← lift (data_to_plotly (concatenate [x; rev x]));
  lower ← lift (vec_op Qminus y_pred (map (Qmult 1.9600) sigma));
  Scatter_ {| sc_x := p4_x;
              sc_y := concatenate [lower];
              mode := Some "lines";
              line := Some {| color := "blue"; dash := None; width := None |};
              marker := None; error_y := None;
              fill := Some "tonexty";
              name := Some "95% confidence interval" |}.

(** The traces [p1] and [p3], the same in both plotting cells. *)
Definition true_function (x : mat) : prog Scatter :=
  p1_x ← lift (data_to_plotly x);
  fx ← f x;
  p1_y ← lift (data_to_plotly fx);
  Scatter_ {| sc_x := p1_x; sc_y := p1_y;
              mode := Some "lines";
              line := Some {| color := "red"; dash := Some "dot"; width := None |};
              marker := None; error_y := None; fill := None;
              name := Some "<i>f(x) = xsin(x)</i>" |}.

Definition prediction (x : mat) (y_pred : vec) : prog Scatter :=
  p3_x ← lift (data_to_plotly x);
  Scatter_ {| sc_x := p3_x; sc_y := y_pred;
              mode := Some "lines";
              line := Some {| color := "blue"; dash := None; width := None |};
              marker := None; error_y := None; fill := None;
              name := Some "Prediction" |}.

Definition figure_of (p1 p2 p3 p4 : Scatter) : prog Figure :=
  let data := [p3; p4; p1; p2] in
  layout ← Layout_ {| layout_title := None; xaxis := xaxis_x; yaxis := yaxis_fx |};
  Figure_ {| data := data; layout := layout |}.

(** The plotting cell of the noiseless case. *)
Definition plot_noiseless (X : mat) (y : vec) (x : mat) (y_pred sigma : vec) : prog Figure :=
  p1 ← true_function x;
  p2_x ← lift (data_to_plotly X);
  p2 ← Scatter_ {| sc_x := p2_x; sc_y := y;
                   mode := Some "markers"; line := None;
                   marker := Some "red"; error_y := None; fill := None;
                   name := Some "Observations" |};
  p3 ← prediction x y_pred;
  p4 ← confidence_band x y_pred sigma;
  figure_of p1 p2 p3 p4.

(** The cell under "The Noisy Case"; [kernel] and [x] are those of the
    noiseless cell. *)
Definition noisy_case (kernel : Kernel) (x : mat) : prog (mat * vec * vec * vec * vec) :=
  let X := linspace 0.1 9.9 20 in
  let X := transpose (atleast_2d X) in
  fX ← f X;
  let y := ravel fX in
  r ← invoke (np_random_random (length y));
  let dy := map (fun v => 0.5 + 1.0 * v) r in
  noise ← invoke (np_random_normal 0 dy);
  y ← lift (vec_iadd y noise);
  ratio ← lift (vec_op Qdiv dy y);
  gp ← GaussianProcessRegressor kernel (Some (map (fun v => v ^ 2) ratio)) 10;
  invoke (fit gp X (Some y));;
  '(y_pred, sigma) ← invoke (predict gp x true);
  mret (X, y, dy, y_pred, sigma).

(** The plotting cell of the noisy case. *)
Definition plot_noisy (X : mat) (y dy : vec) (x : mat) (y_pred sigma : vec) : prog Figure :=
  p1 ← true_function x;
  p2 ← Scatter_ {| sc_x := ravel X; sc_y := y;
                   mode := Some "markers"; line := None;
                   marker := Some "red"; error_y := Some dy; fill := None;
                   name := Some "Observations" |};
  p3 ← prediction x y_pred;
  p4 ← confidence_band x y_pred sigma;
  figure_of p1 p2 p3 p4.

(** The last code cell of each notebook. *)
Definition publish_cell (args : list string) : prog unit :=
  invoke (display_HTML OpenSansFonts);;
  invoke (display_HTML NotebookCustomCss);;
  invoke (pip_install "git+https://github.com/plotly/publisher.git");;
  invoke (publisher_publish args).

Definition gp_publish_args : list string :=
  [ "Gaussian Processes Regression Basic Introductory Example.ipynb";
    "scikit-learn/plot-gpr-noisy-targets/";
    "Gaussian Processes Regression Basic Introductory Example | plotly";
    " ";
    "title=Gaussian Processes Regression Basic Introductory Example | plotly";
    "name=Gaussian Processes Regression Basic Introductory Example";
    "has_thumbnail=true"; "thumbnail=thumbnail/gpr-noisy.jpg";
    "language=scikit-learn"; "page_type=example_index";
    "display_as=gaussian-process"; "order=8";
    "ipynb=~Diksha_Gabha/3161" ].

(** The noiseless case up to its chart, handing [kernel] and [x] on. *)
Definition noiseless_section : prog (Kernel * mat) :=
  '(X, y, x, kernel, y_pred, sigma) ← noiseless_case;
  fig ← plot_noiseless X y x y_pred sigma;
  invoke (py_iplot fig);;
  mret (kernel, x).

Definition noisy_section (kernel : Kernel) (x : mat) : prog unit :=
  '(X, y, dy, y_pred, sigma) ← noisy_case kernel x;
  fig ← plot_noisy X y dy x y_pred sigma;
  invoke (py_iplot fig).

(** The whole notebook, cell after cell. *)
Definition gp_notebook : prog unit :=
  invoke (np_random_seed 1);;
  '(kernel, x) ← noiseless_section;
  noisy_section kernel x;;
  publish_cell gp_publish_args.

(** ** The nearest-neighbours scalability notebook *)

(** [a[:n]] and [a[n:]] along the first axis. *)
Definition slice_bound (len : nat) (n : Z) : nat :=
  if (n <? 0)%Z then Z.to_nat (Z.max 0 (n + Z.of_nat len)) else Z.to_nat n.

Definition slice_to {A : Type} (a : list A) (n : Z) : list A :=
  firstn (slice_bound (length a) n) a.

Definition slice_from {A : Type} (a : list A) (n : Z) : list A :=
  skipn (slice_bound (length a) n) a.

(** Parameters of the study *)
Definition n_samples_min : Z := 1000.
Definition n_samples_max : Z := 100000.
Definition n_features : Z := 100.
Definition n_centers : Z := 100.
Definition n_queries : Z := 100.
Definition n_steps : nat := 6.
Definition n_iter : nat := 5.

Definition n_samples_values : list Z :=
  logspace_int (log10 n_samples_min) (log10 n_samples_max) n_steps.

(** [LSHForest(n_estimators=..., n_candidates=..., n_neighbors=...)] *)
Definition LSHForest (n_estimators n_candidates n_neighbors : Z) : prog estimator :=
  let e := LSHF {| n_estimators := n_estimators; n_candidates := n_candidates;
                   lshf_n_neighbors := n_neighbors |} in
  invoke (new_estimator e);; mret e.

(** [NearestNeighbors(algorithm=..., metric=..., n_neighbors=...)] *)
Definition NearestNeighbors (algorithm metric : string) (n_neighbors : Z) : prog estimator :=
  let e := NNbrs {| algorithm := algorithm; metric := metric;
                    nn_n_neighbors := n_neighbors |} in
  invoke (new_estimator e);; mret e.

(** The seven lists under "Metrics to collect for the plots". *)
Record metrics : Type := {
  average_times_exact : list num;
  average_times_approx : list num;
  std_times_approx : list num;
  accuracies : list num;
  std_accuracies : list num;
  average_speedups : list num;
  std_speedups : list num
}.

Definition no_metrics : metrics :=
  {| average_times_exact := []; average_times_approx := []; std_times_approx := [];
     accuracies := []; std_accuracies := []; average_speedups := [];
     std_speedups := [] |}.

(** The three lists of one index size. *)
Record timings : Type := {
  time_approx : list num;
  time_exact : list num;
  accuracy : list num
}.

Definition no_timings : timings :=
  {| time_approx := []; time_exact := []; accuracy := [] |}.

(** The cell that generates the data. *)
Definition generate_data : prog (mat * mat) :=
  invoke (np_random_RandomState 42);;
  '(all_data, _) ← invoke (make_blobs (n_samples_max + n_queries) n_features n_centers
                                      true 0);
  let queries := slice_to all_data n_queries in
  let index_data := slice_from all_data n_queries in
  mret (queries, index_data).

(** The body of [for i in range(n_iter)]. *)
Definition query_once (queries : mat) (nbrs lshf : estimator) (t : timings) (i : nat)
  : prog timings :=
  pick ← invoke (rng_randint 0 n_queries);
  query ← lift (take_rows queries [pick]);
  t0 ← invoke time_time;
  exact_neighbors ← invoke (kneighbors nbrs query false);
  t1 ← invoke time_time;
  let time_exact' := time_exact t ++ [t1 - t0] in
  t0 ← invoke time_time;
  approx_neighbors ← invoke (kneighbors lshf query false);
  t1 ← invoke time_time;
  let time_approx' := time_approx t ++ [t1 - t0] in
  hit ← invoke (np_mean (in1d approx_neighbors exact_neighbors));
  mret {| time_approx := time_approx'; time_exact := time_exact';
          accuracy := accuracy t ++ [hit] |}.

Definition report : string :=
  "Index size: %d, exact: %0.3fs, LSHF: %0.3fs, speedup: %0.1f, accuracy: %0.2f +/-%0.2f".

(** The body of [for n_samples in n_samples_values]. *)
Definition benchmark_step (queries index_data : mat) (m : metrics) (n_samples : Z)
  : prog metrics :=
  let X := slice_to index_data n_samples in
  lshf ← LSHForest 20 200 10;
  invoke (fit lshf X None);;
  nbrs ← NearestNeighbors "brute" "cosine" 10;
  invoke (fit nbrs X None);;
  t ← for_each (seq 0 n_iter) (query_once queries nbrs lshf) no_timings;
  average_time_exact ← invoke (np_mean (time_exact t));
  average_time_approx ← invoke (np_mean (time_approx t));
  speedup ← lift (vec_op Qdiv (time_exact t) (time_approx t));
  average_speedup ← invoke (np_mean speedup);
  mean_accuracy ← invoke (np_mean (accuracy t));
  std_accuracy ← invoke (np_std (accuracy t));
  invoke (print_ report [inject_Z n_samples; average_time_exact; average_time_approx;
                         average_speedup; mean_accuracy; std_accuracy]);;
  std_time_approx ← invoke (np_std (time_approx t));
  std_speedup ← invoke (np_std speedup);
  mret {| accuracies := accuracies m ++ [mean_accuracy];
          std_accuracies := std_accuracies m ++ [std_accuracy];
          average_times_exact := average_times_exact m ++ [average_time_exact];
          average_times_approx := average_times_approx m ++ [average_time_approx];
          std_times_approx := std_times_approx m ++ [std_time_approx];
          average_speedups := average_speedups m ++ [average_speedup];
          std_speedups := std_speedups m ++ [std_speedup] |}.

(** The benchmark loop. *)
Definition benchmark (queries index_data : mat) : prog metrics :=
  for_each n_samples_values (benchmark_step queries index_data) no_metrics.

Definition red2 : Line := {| color := "red"; dash := None; width := Some 2%Z |}.
Definition xaxis_n_samples : Axis := {| title := "n_samples"; range := None |}.
Definition index_sizes : vec := map inject_Z n_samples_values.

(** "Plot average query time against n_samples" *)
Definition plot_query_time (m : metrics) : prog unit :=
  p1 ← Scatter_ {| sc_x := index_sizes; sc_y := average_times_approx m;
                   mode := None; line := Some red2; marker := None;
                   error_y := Some (std_times_approx m); fill := None;
                   name := Some "LSHForest" |};
  p2 ← Scatter_ {| sc_x := index_sizes; sc_y := average_times_exact m;
                   mode := Some "lines";
                   line := Some {| color := "blue"; dash := None; width := Some 2%Z |};
                   marker := None; error_y := None; fill := None;
                   name := Some "NearestNeighbors(algorithm='brute', metric='cosine')" |};
  layout ← Layout_ {| layout_title :=
                        Some "Impact of index size on response time for first nearest neighbors queries";
                      xaxis := xaxis_n_samples;
                      yaxis := {| title := "Average query time in seconds";
                                  range := None |} |};
  fig ← Figure_ {| data := [p1; p2]; layout := layout |};
  invoke (py_iplot fig).

(** "Plot average query speedup versus index size" *)
Definition plot_speedup (m : metrics) : prog unit :=
  p1 ← Scatter_ {| sc_x := index_sizes; sc_y := average_speedups m;
                   mode := None; line := Some red2; marker := None;
                   error_y := Some (std_speedups m); fill := None; name := None |};
  layout ← Layout_ {| layout_title :=
                        Some "Speedup of the approximate NN queries vs brute force";
                      xaxis := xaxis_n_samples;
                      yaxis := {| title := "Average speedup"; range := None |} |};
  fig ← Figure_ {| data := [p1]; layout := layout |};
  invoke (py_iplot fig).

(** "Plot average precision versus index size" *)
Definition plot_precision (m : metrics) : prog unit :=
  p1 ← Scatter_ {| sc_x := index_sizes; sc_y := accuracies m;
                   mode := None;
                   line := Some {| color := "cyan"; dash := None; width := Some 2%Z |};
                   marker := None;
                   error_y := Some (std_accuracies m); fill := None; name := None |};
  layout ← Layout_ {| layout_title :=
                        Some "Precision of 10-nearest-neighbors queries with index size";
                      xaxis := xaxis_n_samples;
                      yaxis := {| title := "precision@10"; range := Some (0, 1.1) |} |};
  fig ← Figure_ {| data := [p1]; layout := layout |};
  invoke (py_iplot fig).

Definition nn_publish_args : list string :=
  [ "Scalability of Approximate Nearest Neighbors.ipynb";
    "scikit-learn/plot-approximate-nearest-neighbors-scalability/";
    "Scalability of Approximate Nearest Neighbors | plotly";
    " ";
    "title=Scalability of Approximate Nearest Neighbors | plotly";
    "name=Scalability of Approximate Nearest Neighbors";
    "has_thumbnail=true"; "thumbnail=thumbnail/scalability.jpg";
    "language=scikit-learn"; "page_type=example_index";
    "display_as=nearest_neighbors"; "order=8";
    "ipynb=~Diksha_Gabha/3487" ].

(** Everything up to the end of the benchmark loop. *)
Definition nn_calculations : prog metrics :=
  invoke (print_ "__doc__" []);;
  '(queries, index_data) ← generate_data;
  benchmark queries index_data.

Definition nn_plots (m : metrics) : prog unit :=
  plot_query_time m;;
  plot_speedup m;;
  plot_precision m.

(** The whole notebook, cell after cell. *)
Definition nn_notebook : prog unit :=
  m ← nn_calculations;
  nn_plots m;;
  publish_cell nn_publish_args.

(** ** Libraries to run the notebooks against

    [demo_library u] answers every call with arrays of the documented
    shape: [np.random.random] draws [u] everywhere, [np.random.normal]
    draws one deviation above the mean, [predict] answers a zero mean with
    unit deviation, [kneighbors] the first ten indices, and [time.time] the
    number of calls made so far.  The state of the world is that count. *)
Definition sine_stand_in (v : num) : num := v / (1 + v * v).

Definition mean_of (a : vec) : num :=
  match a with
  | [] => 0
  | _ => fold_right Qplus 0 a / inject_Z (Z.of_nat (length a))
  end.

Definition spread_of (a : vec) : num :=
  let m := mean_of a in
  mean_of (map (fun v => Qabs (v - m)) a).

Definition demo_answer (u : num) (X : Type) (c : call X) (w : nat) : result X :=
  match c in call X return result X with
  | np_random_seed _ => OK tt
  | np_sin a => OK (map (map sine_stand_in) a)
  | np_random_random size => OK (repeat u size)
  | np_random_normal loc scale => OK (map (fun s => loc + s) scale)
  | np_random_RandomState _ => OK tt
  | rng_randint low high => OK (low + Z.of_nat w mod (high - low))%Z
  | np_mean a => OK (mean_of a)
  | np_std a => OK (spread_of a)
  | make_blobs n_samples n_features _ _ _ =>
      OK (repeat (repeat 0 (Z.to_nat n_features)) (Z.to_nat n_samples),
          repeat 0%Z (Z.to_nat n_samples))
  | new_kernel _ => OK tt
  | new_estimator _ => OK tt
  | fit _ _ _ => OK tt
  | predict _ x _ => OK (repeat 0 (length x), repeat 1 (length x))
  | kneighbors _ query _ => OK (map (fun _ => map Z.of_nat (seq 0 10)) query)
  | time_time => OK (inject_Z (Z.of_nat w))
  | go_Scatter _ => OK tt
  | go_Layout _ => OK tt
  | go_Figure _ => OK tt
  | py_iplot _ => OK tt
  | print_ _ _ => OK tt
  | display_HTML _ => OK tt
  | pip_install _ => OK tt
  | publisher_publish _ => OK tt
  end.

Definition demo_library (u : num) : library nat :=
  {| answer := fun X c w => (demo_answer u X c w, S w) |}.

(** [flaky_library u n]: as [demo_library u], but the call number [n]
    raises [LibraryError n]. *)
Definition flaky_library (u : num) (n : nat) : library nat :=
  {| answer := fun X c w =>
       if (w =? n)%nat then (Raise (LibraryError n), S w)
       else (demo_answer u X c w, S w) |}.


(** ** Reading executions *)

Definition is_fit (en : entry) : bool :=
  match en with Entry (fit _ _ _) _ => true | _ => false end.

Definition is_fit_without_y (en : entry) : bool :=
  match en with Entry (fit _ _ None) _ => true | _ => false end.

Definition is_query (en : entry) : bool :=
  match en with
  | Entry (predict _ _ _) _ => true
  | Entry (kneighbors _ _ _) _ => true
  | _ => false
  end.

Definition is_time (en : entry) : bool :=
  match en with Entry time_time _ => true | _ => false end.

Definition is_iplot (en : entry) : bool :=
  match en with Entry (py_iplot _) _ => true | _ => false end.

Definition is_scatter (en : entry) : bool :=
  match en with Entry (go_Scatter _) _ => true | _ => false end.

Definition is_chart (en : entry) : bool :=
  match en with
  | Entry (go_Scatter _) _ => true
  | Entry (go_Layout _) _ => true
  | Entry (go_Figure _) _ => true
  | _ => false
  end.





(** How many recorded calls satisfy [p]. *)
Definition calls (p : entry -> bool) (t : list entry) : nat :=
  length (List.filter p t).

(** ** The call signatures of the estimators *)

(** As the specification lists them: [fit(X, y)],
    [predict(x, return_std=True)], [kneighbors(query, return_distance=False)]. *)
Definition listed_signature : call_pred := fun _ c =>
  match c with
  | fit _ _ y => y <> None
  | predict _ _ return_std => return_std = true
  | kneighbors _ _ return_distance => return_distance = false
  | _ => True
  end.

(** The Gaussian Process notebook fits on samples and targets and asks
    [predict] for the deviation; it never calls [kneighbors]. *)
Definition gp_signature : call_pred := fun _ c =>
  match c with
  | fit (GPR _) _ y => y <> None
  | fit _ _ _ => False
  | predict (GPR _) _ return_std => return_std = true
  | predict _ _ _ => False
  | kneighbors _ _ _ => False
  | _ => True
  end.

(** The nearest-neighbours notebook fits on samples alone and asks
    [kneighbors] for indices only; it never calls [predict]. *)
Definition nn_signature : call_pred := fun _ c =>
  match c with
  | fit (GPR _) _ _ => False
  | fit _ _ y => y = None
  | kneighbors (GPR _) _ _ => False
  | kneighbors _ _ return_distance => return_distance = false
  | predict _ _ _ => False
  | _ => True
  end.

(** ** The confidence band of the Gaussian Process notebook *)

(** What scikit-learn documents for [predict(x, return_std=True)]: a mean
    and a deviation per row of [x]. *)
Definition predict_shape : contract := fun X c =>
  match c in call X return X -> Prop with
  | predict _ x _ => fun v => length (fst v) = length x /\ length (snd v) = length x
  | _ => fun _ => True
  end.

Definition is_band (s : Scatter) : Prop := name s = Some "95% confidence interval".

(** The band pairs the 1000 points of the mesh and their reverse, 2000
    abscissae, with the 1000 values of [y_pred - 1.9600 * sigma]. *)
Definition band_of (s : Scatter) : Prop :=
  sc_x s = linspace 0 10 1000 ++ rev (linspace 0 10 1000) /\
  length (sc_x s) = 2000%nat /\
  length (sc_y s) = 1000%nat /\
  exists y_pred sigma : vec,
    length y_pred = 1000%nat /\ length sigma = 1000%nat /\
    sc_y s = zip_with Qminus y_pred (map (Qmult 1.9600) sigma).

Definition band_lengths : call_pred := fun _ c =>
  match c with
  | go_Scatter s => is_band s -> band_of s
  | _ => True
  end.

(** The lengths of a filled trace, as (abscissae, ordinates). *)
Definition band_shape (en : entry) : option (nat * nat) :=
  match en with
  | Entry (go_Scatter s) _ =>
      match fill s with
      | Some _ => Some (length (sc_x s), length (sc_y s))
      | None => None
      end
  | _ => None
  end.

Definition builds_band : call_pred := fun _ c =>
  match c with
  | go_Scatter s => is_band s
  | _ => False
  end.

(** ** The repository *)

Definition repository : list (prog unit) := [gp_notebook; nn_notebook].







(** ** Monitors

    A monitor reads the calls of an execution in order: [allows] says
    whether the next call may come in the present state, [after] is the
    state once the call is recorded. *)
Record monitor (St : Type) : Type := {
  allows : St -> forall X : Type, call X -> bool;
  after : St -> entry -> St
}.
Arguments allows {St} m s {X} c.
Arguments after {St} m s en.

Fixpoint accepted {St : Type} (M : monitor St) (s : St) (t : list entry) : bool :=
  match t with
  | [] => true
  | Entry c a :: rest => allows M s c && accepted M (after M s (Entry c a)) rest
  end.

Definition final_state {St : Type} (M : monitor St) (s : St) (t : list entry) : St :=
  fold_left (after M) t s.

(** [safe M Q T s p]: from state [s], every call of [p] is allowed when it
    comes; [Q] holds of the state and the value when [p] returns, [T] of
    the state when an array operation of [p] itself raises. *)
Fixpoint safe {R St : Type} (M : monitor St) (Q : St -> R -> Prop) (T : St -> Prop)
    (s : St) (p : prog R) : Prop :=
  match p with
  | Ret r => Q s r
  | Throw _ => T s
  | Vis c k =>
      allows M s c = true /\
      forall v, safe M Q T (after M s (Entry c (OK v))) (k v)
  end.

(** *** Estimators before charts, figures before plots

    The state holds whether a chart has been built or plotted, and whether
    the call just made was [go.Figure]. *)
Definition is_figure (en : entry) : bool :=
  match en with Entry (go_Figure _) _ => true | _ => false end.

Definition pipeline_monitor : monitor (bool * bool) :=
  {| allows := fun s X c =>
       match c with
       | new_kernel _ | new_estimator _ | fit _ _ _ | predict _ _ _ | kneighbors _ _ _ =>
           negb (fst s)
       | py_iplot _ => snd s
       | _ => true
       end;
     after := fun s en => (fst s || is_chart en || is_iplot en, is_figure en) |}.

Definition pipeline_start : bool * bool := (false, false).





(** ** The parameters the notebooks pass *)








(** ** The metric lists of the benchmark *)

Definition metric_fields : list (metrics -> list num) :=
  [ average_times_exact; average_times_approx; std_times_approx; accuracies;
    std_accuracies; average_speedups; std_speedups ].

(** Each of the seven lists of [m'] is that of [m] with [n] entries
    appended. *)
Definition extended_by (n : nat) (m m' : metrics) : Prop :=
  Forall (fun field : metrics -> list num =>
            exists more, field m' = field m ++ more /\ length more = n)
         metric_fields.

(** The metrics the demo library leads to on a hundred queries and one
    indexed point. *)
Definition demo_small_metrics : metrics :=
  Eval vm_compute in
    match outcome (run (demo_library 0.5) (benchmark (repeat [0] 100) [[0]]) 0%nat) with
    | OK m => m
    | Raise _ => no_metrics
    end.

(** The metrics the demo library leads to. *)
Definition demo_metrics : metrics :=
  Eval vm_compute in
    match outcome (run (demo_library 0.5) nn_calculations 0%nat) with
    | OK m => m
    | Raise _ => no_metrics
    end.

(** ** The text of the code cells

    The statements of the code cells as syntax trees, for what is said
    about the way the code is written.  Numbers keep their spelling. *)
Module Ast.

#[local] Set Warnings "-register-all".

Inductive expr : Type :=
| Name (id : string)
| Num (spelling : string)
| Str (s : string)
| NoneE
| Attr (value : expr) (attr : string)
| Call (func : expr) (args : list expr) (keywords : list (string * expr))
| BinOp (lhs : expr) (op : string) (rhs : expr)
| Subscript (value : expr) (index : expr)
| Slice (lower upper step : expr)
| ListE (elts : list expr)
| TupleE (elts : list expr).

Inductive stmt : Type :=
| Import (line : string)
| Shell (command : string)
| Expr (value : expr)
| Assign (target : expr) (value : expr)
| AugAssign (target : expr) (op : string) (value : expr)
| Return (value : expr)
| FunctionDef (name : string) (params : list string) (body : list stmt)
| For (target : expr) (iter : expr) (body : list stmt)
| While (test : expr) (body : list stmt)
| If (test : expr) (body : list stmt) (orelse : list stmt)
| Try (body : list stmt) (handlers : list stmt) (finalbody : list stmt).

Definition dot (base attr : string) : expr := Attr (Name base) attr.

(** [dict(k1=v1, ...)] *)
Definition dict (keywords : list (string * expr)) : expr := Call (Name "dict") [] keywords.

Definition dq : string := String "034"%char EmptyString.

Definition fonts_link : string :=
  "<link href=" ++ dq ++
  "//fonts.googleapis.com/css?family=Open+Sans:600,400,300,200|Inconsolata|Ubuntu+Mono:400,700"
  ++ dq ++ " rel=" ++ dq ++ "stylesheet" ++ dq ++ " type=" ++ dq ++ "text/css" ++ dq
  ++ " />".

Definition css_link : string :=
  "<link rel=" ++ dq ++ "stylesheet" ++ dq ++ " type=" ++ dq ++ "text/css" ++ dq
  ++ " href=" ++ dq
  ++ "http://help.plot.ly/documentation/all_static/css/ipython-notebook-custom.css"
  ++ dq ++ ">".

Definition publish_cell (positional : list string) (keywords : list (string * expr))
  : list stmt :=
  [ Import "from IPython.display import display, HTML";
    Expr (Call (Name "display") [Call (Name "HTML") [Str fonts_link] []] []);
    Expr (Call (Name "display") [Call (Name "HTML") [Str css_link] []] []);
    Shell "pip install git+https://github.com/plotly/publisher.git --upgrade";
    Import "import publisher";
    Expr (Call (dot "publisher" "publish") (map Str positional) keywords) ].

(** *** The Gaussian Process notebook *)

Definition p1_gp : stmt :=
  Assign (Name "p1")
    (Call (dot "go" "Scatter") []
       [ ("x", Call (Name "data_to_plotly") [Name "x"] []);
         ("y", Call (Name "data_to_plotly") [Call (Name "f") [Name "x"] []] []);
         ("mode", Str "lines");
         ("line", dict [("color", Str "red"); ("dash", Str "dot")]);
         ("name", Str "<i>f(x) = xsin(x)</i>") ]).

Definition p3_gp : stmt :=
  Assign (Name "p3")
    (Call (dot "go" "Scatter") []
       [ ("x", Call (Name "data_to_plotly") [Name "x"] []);
         ("y", Name "y_pred");
         ("mode", Str "lines");
         ("line", dict [("color", Str "blue")]);
         ("name", Str "Prediction") ]).

Definition p4_gp : stmt :=
  Assign (Name "p4")
    (Call (dot "go" "Scatter") []
       [ ("x", Call (Name "data_to_plotly")
                 [Call (dot "np" "concatenate")
                    [ListE [Name "x";
                            Subscript (Name "x") (Slice NoneE NoneE (Num "-1"))]] []] []);
         ("y", Call (dot "np" "concatenate")
                 [ListE [BinOp (Name "y_pred") "-"
                           (BinOp (Num "1.9600") "*" (Name "sigma"))]] []);
         ("mode", Str "lines");
         ("line", dict [("color", Str "blue")]);
         ("fill", Str "tonexty");
         ("name", Str "95% confidence interval") ]).

Definition figure_gp : list stmt :=
  [ Assign (Name "data") (ListE [Name "p3"; Name "p4"; Name "p1"; Name "p2"]);
    Assign (Name "layout")
      (Call (dot "go" "Layout") []
         [ ("xaxis", dict [("title", Str "<i>x</i>")]);
           ("yaxis", dict [("title", Str "<i>f(x)</i>")]) ]);
    Assign (Name "fig")
      (Call (dot "go" "Figure") [] [("data", Name "data"); ("layout", Name "layout")]) ].

Definition fit_and_predict_gp : list stmt :=
  [ Expr (Call (dot "gp" "fit") [Name "X"; Name "y"] []);
    Assign (TupleE [Name "y_pred"; Name "sigma"])
      (Call (dot "gp" "predict") [Name "x"] [("return_std", Name "True")]) ].

Definition gp_cells : list (list stmt) :=
  [ [ Import "import sklearn";
      Expr (dot "sklearn" "__version__") ];
    [ Import "import plotly.plotly as py";
      Import "import plotly.graph_objs as go";
      Import "import numpy as np";
      Import "from sklearn.gaussian_process import GaussianProcessRegressor";
      Import "from sklearn.gaussian_process.kernels import RBF, ConstantKernel as C" ];
    [ Expr (Call (Attr (dot "np" "random") "seed") [Num "1"] []);
      FunctionDef "f" ["x"]
        [ Expr (Str "The function to predict.");
          Return (BinOp (Name "x") "*" (Call (dot "np" "sin") [Name "x"] [])) ];
      FunctionDef "data_to_plotly" ["x"]
        [ Assign (Name "k") (ListE []);
          For (Name "i")
            (Call (Name "range") [Num "0"; Call (Name "len") [Name "x"] []] [])
            [ Expr (Call (dot "k" "append")
                      [Subscript (Subscript (Name "x") (Name "i")) (Num "0")] []) ];
          Return (Name "k") ] ];
    [ Assign (Name "X")
        (Attr (Call (dot "np" "atleast_2d")
                 [ListE [Num "1."; Num "3."; Num "5."; Num "6."; Num "7."; Num "8."]] [])
              "T");
      Assign (Name "y") (Call (Attr (Call (Name "f") [Name "X"] []) "ravel") [] []);
      Assign (Name "x")
        (Attr (Call (dot "np" "atleast_2d")
                 [Call (dot "np" "linspace") [Num "0"; Num "10"; Num "1000"] []] [])
              "T");
      Assign (Name "kernel")
        (BinOp (Call (Name "C") [Num "1.0"; TupleE [Num "1e-3"; Num "1e3"]] []) "*"
               (Call (Name "RBF") [Num "10"; TupleE [Num "1e-2"; Num "1e2"]] []));
      Assign (Name "gp")
        (Call (Name "GaussianProcessRegressor") []
           [("kernel", Name "kernel"); ("n_restarts_optimizer", Num "9")]) ]
    ++ fit_and_predict_gp;
    [ p1_gp;
      Assign (Name "p2")
        (Call (dot "go" "Scatter") []
           [ ("x", Call (Name "data_to_plotly") [Name "X"] []);
             ("y", Name "y");
             ("mode", Str "markers");
             ("marker", dict [("color", Str "red")]);
             ("name", Str "Observations") ]);
      p3_gp; p4_gp ] ++ figure_gp;
    [ Expr (Call (dot "py" "iplot") [Name "fig"] []) ];
    [ Assign (Name "X") (Call (dot "np" "linspace") [Num "0.1"; Num "9.9"; Num "20"] []);
      Assign (Name "X") (Attr (Call (dot "np" "atleast_2d") [Name "X"] []) "T");
      Assign (Name "y") (Call (Attr (Call (Name "f") [Name "X"] []) "ravel") [] []);
      Assign (Name "dy")
        (BinOp (Num "0.5") "+"
           (BinOp (Num "1.0") "*"
              (Call (Attr (dot "np" "random") "random") [dot "y" "shape"] [])));
      Assign (Name "noise")
        (Call (Attr (dot "np" "random") "normal") [Num "0"; Name "dy"] []);
      AugAssign (Name "y") "+" (Name "noise");
      Assign (Name "gp")
        (Call (Name "GaussianProcessRegressor") []
           [ ("kernel", Name "kernel");
             ("alpha", BinOp (BinOp (Name "dy") "/" (Name "y")) "**" (Num "2"));
             ("n_restarts_optimizer", Num "10") ]) ]
    ++ fit_and_predict_gp;
    [ p1_gp;
      Assign (Name "p2")
        (Call (dot "go" "Scatter") []
           [ ("x", Call (dot "X" "ravel") [] []);
             ("y", Name "y");
             ("mode", Str "markers");
             ("marker", dict [("color", Str "red")]);
             ("error_y", dict [("visible", Name "True"); ("arrayminus", Name "dy")]);
             ("name", Str "Observations") ]);
      p3_gp; p4_gp ] ++ figure_gp;
    [ Expr (Call (dot "py" "iplot") [Name "fig"] []) ];
    publish_cell
      [ "Gaussian Processes Regression Basic Introductory Example.ipynb";
        "scikit-learn/plot-gpr-noisy-targets/";
        "Gaussian Processes Regression Basic Introductory Example | plotly";
        " " ]
      [ ("title", Str "Gaussian Processes Regression Basic Introductory Example | plotly");
        ("name", Str "Gaussian Processes Regression Basic Introductory Example");
        ("has_thumbnail", Str "true");
        ("thumbnail", Str "thumbnail/gpr-noisy.jpg");
        ("language", Str "scikit-learn");
        ("page_type", Str "example_index");
        ("display_as", Str "gaussian-process");
        ("order", Num "8");
        ("ipynb", Str "~Diksha_Gabha/3161") ];
    [] ].

(** *** The nearest-neighbours notebook *)

Definition red_line : expr := dict [("color", Str "red"); ("width", Num "2")].

Definition error_bars (std : string) : expr :=
  dict [("visible", Name "True"); ("arrayminus", Name std)].

Definition plot_cell (traces : list stmt) (names : list string) (title : expr)
    (ytitle : list (string * expr)) : list stmt :=
  traces ++
  [ Assign (Name "layout")
      (Call (dot "go" "Layout") []
         [ ("title", title);
           ("xaxis", dict [("title", Str "n_samples")]);
           ("yaxis", dict ytitle) ]);
    Assign (Name "fig")
      (Call (dot "go" "Figure") []
         [("data", ListE (map Name names)); ("layout", Name "layout")]);
    Expr (Call (dot "py" "iplot") [Name "fig"] []) ].

Definition timed_query (index result times : string) : list stmt :=
  [ Assign (Name "t0") (Call (dot "time" "time") [] []);
    Assign (Name result)
      (Call (dot index "kneighbors") [Name "query"] [("return_distance", Name "False")]);
    Expr (Call (dot times "append")
            [BinOp (Call (dot "time" "time") [] []) "-" (Name "t0")] []) ].

Definition append_to (list_name : string) (value : expr) : stmt :=
  Expr (Call (dot list_name "append") [value] []).

Definition nn_cells : list (list stmt) :=
  [ [ Import "import sklearn";
      Expr (dot "sklearn" "__version__") ];
    [ Import "import plotly.plotly as py";
      Import "import plotly.graph_objs as go";
      Import "from __future__ import division";
      Expr (Call (Name "print") [Name "__doc__"] []);
      Import "import time";
      Import "import numpy as np";
      Import "from sklearn.datasets.samples_generator import make_blobs";
      Import "from sklearn.neighbors import LSHForest";
      Import "from sklearn.neighbors import NearestNeighbors" ];
    [ Assign (Name "n_samples_min") (Call (Name "int") [Num "1e3"] []);
      Assign (Name "n_samples_max") (Call (Name "int") [Num "1e5"] []);
      Assign (Name "n_features") (Num "100");
      Assign (Name "n_centers") (Num "100");
      Assign (Name "n_queries") (Num "100");
      Assign (Name "n_steps") (Num "6");
      Assign (Name "n_iter") (Num "5");
      Assign (Name "n_samples_values")
        (Call (Attr (Call (dot "np" "logspace")
                       [ Call (dot "np" "log10") [Name "n_samples_min"] [];
                         Call (dot "np" "log10") [Name "n_samples_max"] [];
                         Name "n_steps" ] [])
                    "astype")
              [dot "np" "int"] []);
      Assign (Name "rng") (Call (Attr (dot "np" "random") "RandomState") [Num "42"] []);
      Assign (TupleE [Name "all_data"; Name "_"])
        (Call (Name "make_blobs") []
           [ ("n_samples", BinOp (Name "n_samples_max") "+" (Name "n_queries"));
             ("n_features", Name "n_features");
             ("centers", Name "n_centers");
             ("shuffle", Name "True");
             ("random_state", Num "0") ]);
      Assign (Name "queries")
        (Subscript (Name "all_data") (Slice NoneE (Name "n_queries") NoneE));
      Assign (Name "index_data")
        (Subscript (Name "all_data") (Slice (Name "n_queries") NoneE NoneE));
      Assign (Name "average_times_exact") (ListE []);
      Assign (Name "average_times_approx") (ListE []);
      Assign (Name "std_times_approx") (ListE []);
      Assign (Name "accuracies") (ListE []);
      Assign (Name "std_accuracies") (ListE []);
      Assign (Name "average_speedups") (ListE []);
      Assign (Name "std_speedups") (ListE []) ];
    [ For (Name "n_samples") (Name "n_samples_values")
        ([ Assign (Name "X")
             (Subscript (Name "index_data") (Slice NoneE (Name "n_samples") NoneE));
           Assign (Name "lshf")
             (Call (Attr (Call (Name "LSHForest") []
                            [ ("n_estimators", Num "20"); ("n_candidates", Num "200");
                              ("n_neighbors", Num "10") ])
                         "fit")
                   [Name "X"] []);
           Assign (Name "nbrs")
             (Call (Attr (Call (Name "NearestNeighbors") []
                            [ ("algorithm", Str "brute"); ("metric", Str "cosine");
                              ("n_neighbors", Num "10") ])
                         "fit")
                   [Name "X"] []);
           Assign (Name "time_approx") (ListE []);
           Assign (Name "time_exact") (ListE []);
           Assign (Name "accuracy") (ListE []);
           For (Name "i") (Call (Name "range") [Name "n_iter"] [])
             ([ Assign (Name "query")
                  (Subscript (Name "queries")
                     (ListE [Call (dot "rng" "randint") [Num "0"; Name "n_queries"] []])) ]
              ++ timed_query "nbrs" "exact_neighbors" "time_exact"
              ++ timed_query "lshf" "approx_neighbors" "time_approx"
              ++ [ append_to "accuracy"
                     (Call (Attr (Call (dot "np" "in1d")
                                    [Name "approx_neighbors"; Name "exact_neighbors"] [])
                                 "mean")
                           [] []) ]);
           Assign (Name "average_time_exact")
             (Call (dot "np" "mean") [Name "time_exact"] []);
           Assign (Name "average_time_approx")
             (Call (dot "np" "mean") [Name "time_approx"] []);
           Assign (Name "speedup")
             (BinOp (Call (dot "np" "array") [Name "time_exact"] []) "/"
                    (Call (dot "np" "array") [Name "time_approx"] []));
           Assign (Name "average_speedup") (Call (dot "np" "mean") [Name "speedup"] []);
           Assign (Name "mean_accuracy") (Call (dot "np" "mean") [Name "accuracy"] []);
           Assign (Name "std_accuracy") (Call (dot "np" "std") [Name "accuracy"] []);
           Expr (Call (Name "print")
                   [BinOp
                      (Str "Index size: %d, exact: %0.3fs, LSHF: %0.3fs, speedup: %0.1f, accuracy: %0.2f +/-%0.2f")
                      "%"
                      (TupleE [ Name "n_samples"; Name "average_time_exact";
                                Name "average_time_approx"; Name "average_speedup";
                                Name "mean_accuracy"; Name "std_accuracy" ])] []);
           append_to "accuracies" (Name "mean_accuracy");
           append_to "std_accuracies" (Name "std_accuracy");
           append_to "average_times_exact" (Name "average_time_exact");
           append_to "average_times_approx" (Name "average_time_approx");
           append_to "std_times_approx" (Call (dot "np" "std") [Name "time_approx"] []);
           append_to "average_speedups" (Name "average_speedup");
           append_to "std_speedups" (Call (dot "np" "std") [Name "speedup"] []) ]) ];
    plot_cell
      [ Assign (Name "p1")
          (Call (dot "go" "Scatter") []
             [ ("x", Name "n_samples_values"); ("y", Name "average_times_approx");
               ("error_y", error_bars "std_times_approx");
               ("line", red_line); ("name", Str "LSHForest") ]);
        Assign (Name "p2")
          (Call (dot "go" "Scatter") []
             [ ("x", Name "n_samples_values"); ("y", Name "average_times_exact");
               ("mode", Str "lines");
               ("line", dict [("color", Str "blue"); ("width", Num "2")]);
               ("name", Str "NearestNeighbors(algorithm='brute', metric='cosine')") ]) ]
      ["p1"; "p2"]
      (Str "Impact of index size on response time for first nearest neighbors queries")
      [("title", Str "Average query time in seconds")];
    plot_cell
      [ Assign (Name "p1")
          (Call (dot "go" "Scatter") []
             [ ("x", Name "n_samples_values"); ("y", Name "average_speedups");
               ("error_y", error_bars "std_speedups");
               ("line", red_line) ]) ]
      ["p1"]
      (Str "Speedup of the approximate NN queries vs brute force")
      [("title", Str "Average speedup")];
    plot_cell
      [ Assign (Name "p1")
          (Call (dot "go" "Scatter") []
             [ ("x", Name "n_samples_values"); ("y", Name "accuracies");
               ("error_y", error_bars "std_accuracies");
               ("line", dict [("color", Str "cyan"); ("width", Num "2")]) ]) ]
      ["p1"]
      (Str "Precision of 10-nearest-neighbors queries with index size")
      [("title", Str "precision@10"); ("range", ListE [Num "0"; Num "1.1"])];
    publish_cell
      [ "Scalability of Approximate Nearest Neighbors.ipynb";
        "scikit-learn/plot-approximate-nearest-neighbors-scalability/";
        "Scalability of Approximate Nearest Neighbors | plotly";
        " " ]
      [ ("title", Str "Scalability of Approximate Nearest Neighbors | plotly");
        ("name", Str "Scalability of Approximate Nearest Neighbors");
        ("has_thumbnail", Str "true");
        ("thumbnail", Str "thumbnail/scalability.jpg");
        ("language", Str "scikit-learn");
        ("page_type", Str "example_index");
        ("display_as", Str "nearest_neighbors");
        ("order", Num "8");
        ("ipynb", Str "~Diksha_Gabha/3487") ];
    [] ].

(** The code of a notebook, cell after cell. *)
Definition code (cells : list (list stmt)) : list stmt := concat cells.

Definition repository_code : list stmt := code gp_cells ++ code nn_cells.

(** *** Reading the code *)

(** The name a call goes by: [f] for [f(...)], [m] for [obj.m(...)]. *)
Definition callee (func : expr) : string :=
  match func with
  | Name id => id
  | Attr _ attr => attr
  | _ => ""
  end.

(** The callees of all calls in an expression. *)
Fixpoint callees (e : expr) : list string :=
  match e with
  | Call func args keywords =>
      callee func :: callees func ++ flat_map callees args
        ++ flat_map (fun kw => callees (snd kw)) keywords
  | Attr value _ => callees value
  | BinOp lhs _ rhs => callees lhs ++ callees rhs
  | Subscript value index => callees value ++ callees index
  | Slice lower upper step => callees lower ++ callees upper ++ callees step
  | ListE elts => flat_map callees elts
  | TupleE elts => flat_map callees elts
  | _ => []
  end.

(** The callees of all calls under a statement. *)
Fixpoint callees_of (s : stmt) : list string :=
  match s with
  | Import _ | Shell _ => []
  | Expr value => callees value
  | Assign target value => callees target ++ callees value
  | AugAssign target _ value => callees target ++ callees value
  | Return value => callees value
  | FunctionDef _ _ body => flat_map callees_of body
  | For target iter body => callees target ++ callees iter ++ flat_map callees_of body
  | While test body => callees test ++ flat_map callees_of body
  | If test body orelse =>
      callees test ++ flat_map callees_of body ++ flat_map callees_of orelse
  | Try body handlers finalbody =>
      flat_map callees_of body ++ flat_map callees_of handlers
      ++ flat_map callees_of finalbody
  end.

(** The number of places where the code calls [name]. *)
Definition call_sites (name : string) (ss : list stmt) : nat :=
  length (List.filter (String.eqb name) (flat_map callees_of ss)).

Section Count.
Variable this : stmt -> nat.

(** How often [this] counts, over a statement and all statements under it. *)
Fixpoint count (s : stmt) : nat :=
  (this s +
   match s with
   | FunctionDef _ _ body => list_sum (map count body)
   | For _ _ body => list_sum (map count body)
   | While _ body => list_sum (map count body)
   | If _ body orelse => list_sum (map count body) + list_sum (map count orelse)
   | Try body handlers finalbody =>
       list_sum (map count body) + list_sum (map count handlers)
       + list_sum (map count finalbody)
   | _ => 0
   end)%nat.

Definition count_all (ss : list stmt) : nat := list_sum (map count ss).
End Count.

Definition is_for (s : stmt) : nat := match s with For _ _ _ => 1 | _ => 0 end.
Definition is_while (s : stmt) : nat := match s with While _ _ => 1 | _ => 0 end.
Definition is_if (s : stmt) : nat := match s with If _ _ _ => 1 | _ => 0 end.
Definition is_try (s : stmt) : nat := match s with Try _ _ _ => 1 | _ => 0 end.
Definition is_def (s : stmt) : nat := match s with FunctionDef _ _ _ => 1 | _ => 0 end.
Definition is_aug_assign (s : stmt) : nat :=
  match s with AugAssign _ _ _ => 1 | _ => 0 end.

(** [name.append(...)] as a statement: a list kept between calls grows. *)
Definition is_append (s : stmt) : nat :=
  match s with
  | Expr (Call (Attr (Name _) "append") _ _) => 1
  | _ => 0
  end.

(** Loops, branches and handlers. *)
Definition is_control_flow (s : stmt) : nat :=
  (is_for s + is_while s + is_if s + is_try s)%nat.

(** No loop, branch or handler anywhere in the code. *)
Definition straight_line (ss : list stmt) : bool :=
  (count_all is_control_flow ss =? 0)%nat.

(** No list or array kept and updated between calls. *)
Definition stateless (ss : list stmt) : bool :=
  (count_all is_append ss + count_all is_aug_assign ss =? 0)%nat.

(** *** How an exception travels through the code

    The statements are run for their flow of control alone.  An
    operation is an import, a shell command, a call of something that
    the code did not define, a binary operation, a subscript or an
    augmented assignment; each of them may raise.  What the operations
    answer is left to an oracle: which of them raise, how often a loop
    turns, how a test turns out.  A call of a function defined in the
    code runs its body.  Python hands an exception to the enclosing
    handler, and where there is none it ends the statement, the loop,
    the function and the cell. *)
Inductive flow : Type :=
| Normal
| Returned
| Raised (e : exn).

Record state : Type := {
  operations : nat;
  failures : list (nat * exn);
  functions : list (string * list stmt)
}.

Record oracle : Type := {
  fails : nat -> option exn;
  trips : nat -> nat;
  holds : nat -> bool
}.

(** Nothing done yet, nothing defined. *)
Definition start : state := {| operations := 0; failures := []; functions := [] |}.

(** A step gives the flow it ends in and the state it leaves, or nothing
    when the fuel runs out. *)
Definition step : Type := state -> option (flow * state).

Definition skip : step := fun st => Some (Normal, st).

(** [k] runs when [m] ends normally; a [return] or an exception of [m]
    goes on to whatever encloses the two. *)
Definition andthen (m k : step) : step := fun st =>
  match m st with
  | Some (Normal, st') => k st'
  | r => r
  end.

(** One operation: it raises what the oracle says, and is recorded with
    its number when it does. *)
Definition operation (o : oracle) : step := fun st =>
  let n := operations st in
  match fails o n with
  | Some e =>
      Some (Raised e, {| operations := S n; failures := failures st ++ [(n, e)];
                         functions := functions st |})
  | None =>
      Some (Normal, {| operations := S n; failures := failures st;
                       functions := functions st |})
  end.

Definition define (name : string) (body : list stmt) : step := fun st =>
  Some (Normal, {| operations := operations st; failures := failures st;
                   functions := (name, body) :: functions st |}).

Fixpoint lookup_function (name : string) (fs : list (string * list stmt))
  : option (list stmt) :=
  match fs with
  | [] => None
  | (n, body) :: rest => if String.eqb name n then Some body else lookup_function name rest
  end.

(** What is evaluated before the arguments of a call: the object of a
    method call, nothing for a plain name. *)
Definition receiver (func : expr) : list expr :=
  match func with
  | Name _ => []
  | Attr value _ => [value]
  | _ => [func]
  end.

Section Run.
Variable o : oracle.

Fixpoint eval (fuel : nat) (e : expr) {struct fuel} : step :=
  match fuel with
  | O => fun _ => None
  | S n =>
      match e with
      | Name _ | Num _ | Str _ | NoneE => skip
      | Attr value _ => eval n value
      | Call func args keywords =>
          andthen (evals n (receiver func ++ args ++ map snd keywords)) (call n func)
      | BinOp lhs _ rhs => andthen (eval n lhs) (andthen (eval n rhs) (operation o))
      | Subscript value index =>
          andthen (eval n value) (andthen (eval n index) (operation o))
      | Slice lower upper stride =>
          andthen (eval n lower) (andthen (eval n upper) (eval n stride))
      | ListE elts => evals n elts
      | TupleE elts => evals n elts
      end
  end
with evals (fuel : nat) (es : list expr) {struct fuel} : step :=
  match fuel with
  | O => fun _ => None
  | S n =>
      match es with
      | [] => skip
      | e :: rest => andthen (eval n e) (evals n rest)
      end
  end
with call (fuel : nat) (func : expr) {struct fuel} : step :=
  match fuel with
  | O => fun _ => None
  | S n => fun st =>
      match func with
      | Name id =>
          match lookup_function id (functions st) with
          | Some body =>
              match execs n body st with
              | Some (Returned, st') => Some (Normal, st')
              | r => r
              end
          | None => operation o st
          end
      | _ => operation o st
      end
  end
with exec (fuel : nat) (s : stmt) {struct fuel} : step :=
  match fuel with
  | O => fun _ => None
  | S n =>
      match s with
      | Import _ => operation o
      | Shell _ => operation o
      | Expr value => eval n value
      | Assign _ value => eval n value
      | AugAssign _ _ value => andthen (eval n value) (operation o)
      | Return value => fun st =>
          match eval n value st with
          | Some (Normal, st') => Some (Returned, st')
          | r => r
          end
      | FunctionDef name _ body => define name body
      | For _ iter body =>
          andthen (eval n iter) (fun st => for_loop n (trips o (operations st)) body st)
      | While test body => while_loop n test body
      | If test body orelse =>
          andthen (eval n test)
            (fun st => if holds o (operations st) then execs n body st
                       else execs n orelse st)
      | Try body handlers finalbody => fun st =>
          match execs n body st with
          | Some (Raised e, st1) =>
              match handlers with
              | [] => andthen (execs n finalbody) (fun st2 => Some (Raised e, st2)) st1
              | _ => andthen (execs n handlers) (execs n finalbody) st1
              end
          | Some (fl, st1) =>
              andthen (execs n finalbody) (fun st2 => Some (fl, st2)) st1
          | None => None
          end
      end
  end
with execs (fuel : nat) (ss : list stmt) {struct fuel} : step :=
  match fuel with
  | O => fun _ => None
  | S n =>
      match ss with
      | [] => skip
      | s :: rest => andthen (exec n s) (execs n rest)
      end
  end
with for_loop (fuel : nat) (turns : nat) (body : list stmt) {struct fuel} : step :=
  match fuel with
  | O => fun _ => None
  | S n =>
      match turns with
      | O => skip
      | S turns' => andthen (execs n body) (for_loop n turns' body)
      end
  end
with while_loop (fuel : nat) (test : expr) (body : list stmt) {struct fuel} : step :=
  match fuel with
  | O => fun _ => None
  | S n =>
      andthen (eval n test)
        (fun st => if holds o (operations st)
                   then andthen (execs n body) (while_loop n test body) st
                   else skip st)
  end.

End Run.

(** No handler in the code, nor in a function defined so far. *)
Definition handler_free (ss : list stmt) : Prop := count_all is_try ss = 0%nat.

Definition clean (st : state) : Prop :=
  failures st = [] /\ Forall (fun d => handler_free (snd d)) (functions st).

(** Where a step ends in an exception, one operation raised, the last
    one made, and it raised that exception; where it ends otherwise,
    none raised. *)
Definition settled (fl : flow) (st : state) : Prop :=
  Forall (fun d => handler_free (snd d)) (functions st) /\
  match fl with
  | Raised e => failures st = [(pred (operations st), e)]
  | _ => failures st = []
  end.

Definition propagates (m : step) : Prop :=
  forall st fl st', clean st -> m st = Some (fl, st') -> settled fl st'.

(** The functions that the cells define. *)
Definition definitions (ss : list stmt) : list (string * list stmt) :=
  flat_map (fun s => match s with
                     | FunctionDef name _ body => [(name, body)]
                     | _ => []
                     end) ss.

Definition known : list (string * list stmt) := definitions repository_code.

(** Only functions of the code are defined. *)
Definition tame (st : state) : Prop := Forall (fun d => In d known) (functions st).

(** [terminates m]: from every state, with fuel enough, [m] ends. *)
Definition terminates (m : nat -> step) : Prop :=
  forall st, tame st ->
  exists fuel0 fl st',
    tame st' /\ forall fuel, (fuel0 <= fuel)%nat -> m fuel st = Some (fl, st').

Definition evaluates (o : oracle) (e : expr) : Prop :=
  terminates (fun fuel => eval o fuel e).
Definition evaluates_all (o : oracle) (es : list expr) : Prop :=
  terminates (fun fuel => evals o fuel es).
Definition calls (o : oracle) (func : expr) : Prop :=
  terminates (fun fuel => call o fuel func).
Definition executes (o : oracle) (s : stmt) : Prop :=
  terminates (fun fuel => exec o fuel s).
Definition executes_all (o : oracle) (ss : list stmt) : Prop :=
  terminates (fun fuel => execs o fuel ss).

(** The oracle under which the operation number [n] raises, every loop
    turns twice and every test fails; and the one under which nothing
    raises. *)
Definition failing_at (n : nat) : oracle :=
  {| fails := fun i => if (i =? n)%nat then Some (LibraryError n) else None;
     trips := fun _ => 2%nat;
     holds := fun _ => false |}.

Definition quiet : oracle :=
  {| fails := fun _ => None; trips := fun _ => 2%nat; holds := fun _ => false |}.

(** A cell that would catch what [fit] raises. *)
Definition guarded_fit : list stmt :=
  [ Try [ Expr (Call (dot "gp" "fit") [Name "X"; Name "y"] []) ]
        [ Expr (Call (Name "print") [Str "fit failed"] []) ]
        [] ].

End Ast.

(** ** Arrays in memory

    The store maps the address of a buffer, or of a Python list, to its
    contents.  An ndarray is a view: the address of its buffer and its
    shape, the rows laid out one after the other.  Each numpy operation
    that returns a new array allocates a fresh buffer; [ravel] returns a
    view on the buffer it is given; [+=] writes into the buffer of its
    left operand, where the right operand can be broadcast to it.  A step
    takes a store and gives a result, or an exception, and the store it
    leaves. *)
Module Store.

Record ndarray : Type := {
  buf : nat;
  nrows : nat;
  ncols : nat
}.

Definition M (A : Type) : Type :=
  gmap nat (list num) -> result A * gmap nat (list num).

#[global] Instance M_ret : MRet M := fun _ a h => (OK a, h).
#[global] Instance M_bind : MBind M := fun _ _ k m h =>
  match m h with
  | (OK a, h') => k a h'
  | (Raise e, h') => (Raise e, h')
  end.

Definition raise {A : Type} (e : exn) : M A := fun h => (Raise e, h).

(** A new buffer or list. *)
Definition alloc (contents : list num) : M nat := fun h =>
  let l := fresh (dom h) in (OK l, <[l := contents]> h).

(** The contents at an address; numpy and Python hand out no address
    that is not allocated. *)
Definition read (l : nat) : M (list num) := fun h =>
  match h !! l with
  | Some contents => (OK contents, h)
  | None => (Raise (LibraryError 0), h)
  end.

Definition write (l : nat) (contents : list num) : M unit := fun h =>
  (OK tt, <[l := contents]> h).

Section Helpers.
(** The sine of numpy, on one value. *)
Variable sine : num -> num.

(** [np.sin(x)] *)
Definition np_sin (x : ndarray) : M ndarray :=
  contents ← read (buf x);
  l ← alloc (map sine contents);
  mret {| buf := l; nrows := nrows x; ncols := ncols x |}.

(** [a * b] on arrays of one shape *)
Definition multiply (a b : ndarray) : M ndarray :=
  ca ← read (buf a);
  cb ← read (buf b);
  l ← alloc (zip_with Qmult ca cb);
  mret {| buf := l; nrows := nrows a; ncols := ncols a |}.

(** [def f(x): return x * np.sin(x)] *)
Definition f (x : ndarray) : M ndarray :=
  s ← np_sin x;
  multiply x s.

(** [x[i][0]] *)
Definition first_of_row (x : ndarray) (i : nat) : M num :=
  contents ← read (buf x);
  match ncols x, contents !! (i * ncols x)%nat with
  | S _, Some v => mret v
  | _, _ => raise IndexError
  end.

(** [k.append(v)] *)
Definition append (k : nat) (v : num) : M unit :=
  items ← read k;
  write k (items ++ [v]).

(** [for i in ...: k.append(x[i][0])] *)
Fixpoint append_first_of_rows (x : ndarray) (k : nat) (rows : list nat) : M unit :=
  match rows with
  | [] => mret tt
  | i :: rest =>
      v ← first_of_row x i;
      append k v;;
      append_first_of_rows x k rest
  end.

(** [def data_to_plotly(x)], returning the address of [k]. *)
Definition data_to_plotly (x : ndarray) : M nat :=
  k ← alloc [];
  append_first_of_rows x k (seq 0 (nrows x));;
  mret k.

(** [x.ravel()] on an array laid out row after row: a view. *)
Definition ravel (x : ndarray) : ndarray :=
  {| buf := buf x; nrows := (nrows x * ncols x)%nat; ncols := 1 |}.

(** [y += b] on a one-dimensional [y]: [b] has the length of [y], or one
    entry that is added to every entry of [y]; numpy refuses any other
    [b] with a [ValueError] and leaves [y] as it was. *)
Definition iadd (y b : ndarray) : M unit :=
  cy ← read (buf y);
  cb ← read (buf b);
  match vec_iadd cy cb with
  | OK sum => write (buf y) sum
  | Raise e => raise e
  end.

(** The data of the noisy case, [draws] and [normal] being what
    [np.random.random] and [np.random.normal] return:

    [y = f(X).ravel()]
    [dy = 0.5 + 1.0 * np.random.random(y.shape)]
    [noise = np.random.normal(0, dy)]
    [y += noise] *)
Definition noisy_observations (X : ndarray) (draws normal : list num)
  : M (ndarray * ndarray) :=
  fX ← f X;
  let y := ravel fX in
  r ← alloc draws;
  scaled ← alloc (map (Qmult 1.0) draws);
  dy ← alloc (map (Qplus 0.5) (map (Qmult 1.0) draws));
  noise ← alloc normal;
  iadd y {| buf := noise; nrows := length normal; ncols := 1 |};;
  mret (y, {| buf := dy; nrows := length draws; ncols := 1 |}).

End Helpers.



End Store.


(** ** Shapes of arrays *)

(** Row by row, [a] and [b] have the same lengths. *)
Definition same_shape (a b : mat) : Prop :=
  Forall2 (fun r r' : list num => length r = length r') a b.

(** [m] has [n] rows of one entry each: the shape [(n, 1)]. *)
Definition column (n : nat) (m : mat) : Prop :=
  length m = n /\ Forall (fun r : list num => length r = 1%nat) m.

(** ** Executions in which only the libraries raise

    [sure K P p Q]: as [wp K P p Q], and moreover no array operation of
    [p] itself raises, whatever the libraries answer within [K]. *)
Fixpoint sure {R : Type} (K : contract) (P : call_pred) (p : prog R) (Q : R -> Prop)
  : Prop :=
  match p with
  | Ret r => Q r
  | Throw _ => False
  | Vis c k => P _ c /\ forall v, K _ c v -> sure K P (k v) Q
  end.

(** The exception of an execution is the one its last call raised. *)
Definition raised_by_last_call {R W : Type} (ex : execution R W) : Prop :=
  forall e, outcome ex = Raise e ->
  exists t X (c : call X), trace ex = t ++ [Entry c (Raise e)].

(** *** The Gaussian Process notebook and its libraries *)

(** What numpy and scikit-learn document for the calls of the notebook:
    [np.sin] keeps the shape, [np.random.random(size)] draws [size]
    values from [0, 1), [np.random.normal(loc, scale)] draws one value per
    entry of [scale], [predict] answers a mean and a deviation per row. *)
Definition gp_contract : contract := fun X c =>
  match c in call X return X -> Prop with
  | np_sin a => fun v => same_shape a v
  | np_random_random size =>
      fun v => length v = size /\ Forall (fun q : num => 0 <= q /\ q < 1) v
  | np_random_normal _ scale => fun v => length v = length scale
  | predict _ x _ => fun v => length (fst v) = length x /\ length (snd v) = length x
  | _ => fun _ => True
  end.

(** Every trace but the band pairs as many abscissae as ordinates, and
    error bars come one per point. *)
Definition paired_trace (s : Scatter) : Prop :=
  (is_band s \/ length (sc_x s) = length (sc_y s)) /\
  forall e, error_y s = Some e -> length e = length (sc_y s).

(** The standard deviations of the noise lie between 0.5 and 1.5, both
    included: the draws are below 1, but a sum computed in floating
    point may be rounded up to 1.5. *)
Definition noise_scale (scale : vec) : Prop :=
  Forall (fun q : num => 0.5 <= q /\ q <= 1.5) scale.

(** One entry of [dy = 0.5 + 1.0 * np.random.random(y.shape)], every
    operation rounded by [rnd]. *)
Definition scaled_draw (rnd : num -> num) (v : num) : num :=
  rnd (0.5 + rnd (1.0 * v)).

(** A rounding: monotone, and exact on the four values 0, 0.5, 1 and
    1.5, as the rounding of binary floating point is. *)
Definition rounding (rnd : num -> num) : Prop :=
  (forall p q, p <= q -> rnd p <= rnd q) /\
  rnd 0 == 0 /\ rnd 0.5 == 0.5 /\ rnd 1 == 1 /\ rnd 1.5 == 1.5.

(** Rounding to the nearest multiple of one half, a coarse rounding. *)
Definition halves (q : num) : num := inject_Z (Qfloor (2 * q + 0.5)) / 2.

(** [alpha], where given, holds one non-negative value per training
    point. *)
Definition alpha_per_point (p : GPR_params) (n : nat) : Prop :=
  forall a, alpha p = Some a -> length a = n /\ Forall (Qle 0) a.

Definition gp_arguments : call_pred := fun _ c =>
  match c with
  | np_random_normal _ scale => noise_scale scale
  | fit (GPR p) X (Some y) => length X = length y /\ alpha_per_point p (length X)
  | predict _ x _ => column 1000 x
  | go_Scatter s => paired_trace s
  | _ => True
  end.

Definition traces_are_paired : call_pred := fun _ c =>
  match c with
  | go_Scatter s => paired_trace s
  | _ => True
  end.

Definition noise_is_scaled : call_pred := fun _ c =>
  match c with
  | np_random_normal _ scale => noise_scale scale
  | _ => True
  end.

Definition regressor_is_shaped : call_pred := fun _ c =>
  match c with
  | fit (GPR p) X (Some y) => length X = length y /\ alpha_per_point p (length X)
  | predict _ x _ => column 1000 x
  | _ => True
  end.

(** [np.sin] alone. *)
Definition sine_contract : contract := fun X c =>
  match c in call X return X -> Prop with
  | np_sin a => fun v => same_shape a v
  | _ => fun _ => True
  end.

(** What the two computing cells hand to the plotting cells. *)
Definition noiseless_shapes (r : mat * vec * mat * Kernel * vec * vec) : Prop :=
  let '(X, y, x, _, y_pred, sigma) := r in
  column 6 X /\ length y = 6%nat /\ column 1000 x /\
  length y_pred = 1000%nat /\ length sigma = 1000%nat.

Definition noisy_shapes (r : mat * vec * vec * vec * vec) : Prop :=
  let '(X, y, dy, y_pred, sigma) := r in
  column 20 X /\ length y = 20%nat /\ length dy = 20%nat /\
  length y_pred = 1000%nat /\ length sigma = 1000%nat.

(** *** The nearest-neighbours notebook and its libraries *)

(** What scikit-learn and numpy document: [make_blobs] answers
    [n_samples] points, [randint(low, high)] an integer of [low, high)
    where [low < high]. *)
Definition nn_contract : contract := fun X c =>
  match c in call X return X -> Prop with
  | make_blobs n_samples _ _ _ _ => fun v => length (fst v) = Z.to_nat n_samples
  | rng_randint low high => fun v => (low < high -> low <= v < high)%Z
  | _ => fun _ => True
  end.

(** An estimator is fitted on the first [n_samples] points, for one of
    the index sizes. *)
Definition index_of_size (X : mat) : Prop :=
  exists n_samples, In n_samples n_samples_values /\ length X = Z.to_nat n_samples.

(** An average is taken over the [n_iter] measurements of an index
    size, or over the hits of one query. *)
Definition averaged (a : vec) : Prop :=
  length a = n_iter \/ exists approx exact, a = in1d approx exact.

(** A curve has one point, and one error bar, per index size. *)
Definition curve (s : Scatter) : Prop :=
  length (sc_x s) = n_steps /\ length (sc_y s) = n_steps /\
  forall e, error_y s = Some e -> length e = n_steps.

Definition nn_arguments : call_pred := fun _ c =>
  match c with
  | fit _ X _ => index_of_size X
  | kneighbors _ query _ => length query = 1%nat
  | np_mean a => averaged a
  | np_std a => length a = n_iter
  | go_Scatter s => curve s
  | _ => True
  end.

Definition indexes_are_sized : call_pred := fun _ c =>
  match c with
  | fit _ X _ => index_of_size X
  | _ => True
  end.

Definition queries_are_single : call_pred := fun _ c =>
  match c with
  | kneighbors _ query _ => length query = 1%nat
  | _ => True
  end.

Definition statistics_are_per_size : call_pred := fun _ c =>
  match c with
  | np_mean a => averaged a
  | np_std a => length a = n_iter
  | _ => True
  end.

Definition curves_are_complete : call_pred := fun _ c =>
  match c with
  | go_Scatter s => curve s
  | _ => True
  end.

(** The three lists of an index size after [i] queries, and the seven
    lists of the study after [i] index sizes. *)
Definition timed (i : nat) (t : timings) : Prop :=
  length (time_exact t) = i /\ length (time_approx t) = i /\ length (accuracy t) = i.

Definition collected (i : nat) (m : metrics) : Prop :=
  Forall (fun field : metrics -> list num => length (field m) = i) metric_fields.

(** ** Arrays in memory and arrays as lists of rows

    [laid_out h x rows]: in the store [h], the view [x] shows the rows
    [rows], laid out one after the other in its buffer. *)
Definition laid_out (h : gmap nat (list num)) (x : Store.ndarray) (rows : mat) : Prop :=
  h !! Store.buf x = Some (concat rows) /\
  Store.nrows x = length rows /\
  Forall (fun r : list num => length r = Store.ncols x) rows.

(** ** One query, two indexes

    The state is the query the exact index has answered and the
    approximate one has not seen yet. *)
#[local] Instance num_eq_dec : EqDecision num.
Proof. unfold num. solve_decision. Defined.

Definition paired_queries : monitor (option mat) :=
  {| allows := fun s X c =>
       match c, s with
       | kneighbors (NNbrs _) _ _, None => true
       | kneighbors (LSHF _) query _, Some asked => bool_decide (query = asked)
       | kneighbors _ _ _, _ => false
       | _, _ => true
       end;
     after := fun s en =>
       match en, s with
       | Entry (kneighbors _ query _) _, None => Some query
       | Entry (kneighbors _ _ _) _, Some _ => None
       | _, _ => s
       end |}.

(** ** Counting the fits and the queries

    The state is the number of [fit] calls and the number of queries
    recorded so far. *)
Definition call_counter : monitor (nat * nat) :=
  {| allows := fun _ _ _ => true;
     after := fun s en =>
       (if is_fit en then S (fst s) else fst s,
        if is_query en then S (snd s) else snd s) |}.

(** * Properties *)

Example gp_demo_run :
  outcome (run (demo_library 0.5) gp_notebook 0%nat) = OK tt /\
  length (trace (run (demo_library 0.5) gp_notebook 0%nat)) = 34%nat.
Proof. vm_compute. split; reflexivity. Qed.

Example nn_demo_run :
  outcome (run (demo_library 0.5) nn_notebook 0%nat) = OK tt.
Proof. vm_compute. reflexivity. Qed.

(** ** Executions of composed programs *)

Section Executions.
Context {W : Type} (lib : library W).

Lemma run_bind {A B : Type} (m : prog A) (k : A -> prog B) (w : W) :
  run lib (m ≫= k) w =
  match outcome (run lib m w) with
  | OK a =>
      let ex := run lib (k a) (world (run lib m w)) in
      {| trace := trace (run lib m w) ++ trace ex;
         outcome := outcome ex;
         world := world ex |}
  | Raise e =>
      {| trace := trace (run lib m w);
         outcome := Raise e;
         world := world (run lib m w) |}
  end.
Proof.
  unfold mbind, prog_mbind. revert w.
  induction m as [a|e|X c k' IH]; intros w; simpl.
  - by destruct (run lib (k a) w).
  - done.
  - destruct (answer lib c w) as [[v|e] w']; simpl; [|done].
    rewrite IH. by destruct (outcome (run lib (k' v) w')).
Qed.

(** An exception raised by a call ends the execution and is its outcome. *)
Lemma run_raised {R : Type} (p : prog R) (w : W) (en : entry) (e : exn) :
  In en (trace (run lib p w)) -> raised en = Some e ->
  outcome (run lib p w) = Raise e /\
  exists t, trace (run lib p w) = t ++ [en] /\
            Forall (fun en' => raised en' = None) t.
Proof.
  revert w. induction p as [r|e'|X c k IH]; intros w; simpl; [done|done|].
  destruct (answer lib c w) as [[v|e'] w']; simpl.
  - intros [<-|Hin] Hr; [done|].
    destruct (IH v w' Hin Hr) as (Ho & t & Ht & Hall).
    split; [done|]. exists (Entry c (OK v) :: t). split.
    + by rewrite Ht.
    + by constructor.
  - intros [<-|[]] [= <-]. split; [done|]. by exists [].
Qed.

(** An execution that returns has recorded no exception. *)
Lemma run_ok_no_raise {R : Type} (p : prog R) (w : W) (r : R) :
  outcome (run lib p w) = OK r ->
  Forall (fun en => raised en = None) (trace (run lib p w)).
Proof.
  intros Ho. apply Forall_forall. intros en Hin.
  destruct (raised en) as [e|] eqn:Hr; [|done].
  destruct (run_raised p w en e) as [Ho' _]; [by apply list_elem_of_In|done|].
  congruence.
Qed.

(** *** Soundness of the logic of calls *)

Lemma wp_sound {R : Type} (K : contract) (P : call_pred) (p : prog R)
    (Q : R -> Prop) (w : W) :
  honours lib K -> wp K P p Q ->
  Forall (entry_sat P) (trace (run lib p w)) /\
  forall r, outcome (run lib p w) = OK r -> Q r.
Proof.
  intros Hlib. revert w. induction p as [r|e|X c k IH]; intros w; simpl.
  - intros HQ. split; [constructor|]. by intros r' [= <-].
  - intros _. split; [constructor|done].
  - intros [HP Hk]. destruct (answer lib c w) as [[v|e] w'] eqn:Ha; simpl.
    + destruct (IH v w' (Hk v (Hlib _ _ _ _ _ Ha))) as [Ht Hq].
      split; [by constructor|done].
    + split; [by repeat constructor|done].
Qed.

Lemma leads_sound {R : Type} (P : call_pred) (p : prog R) (w : W) (r : R) :
  leads P p -> outcome (run lib p w) = OK r ->
  Exists (entry_sat P) (trace (run lib p w)).
Proof.
  revert w. induction p as [r'|e|X c k IH]; intros w; simpl; [done|done|].
  intros Hl. destruct (answer lib c w) as [[v|e] w'] eqn:Ha; simpl; [|done].
  intros Ho. destruct Hl as [HP|Hl].
  - by apply Exists_cons_hd.
  - apply Exists_cons_tl. by apply IH.
Qed.

End Executions.

(** *** Rules of the logic of calls *)

Section Rules.
Context (K : contract) (P : call_pred).

Lemma wp_mono {R : Type} (p : prog R) (Q Q' : R -> Prop) :
  (forall r, Q r -> Q' r) -> wp K P p Q -> wp K P p Q'.
Proof.
  intros HQ. induction p as [r|e|X c k IH]; simpl; [auto|auto|].
  intros [HP Hk]. split; [done|]. intros v Hv. apply IH, Hk, Hv.
Qed.

Lemma wp_bind {A B : Type} (m : prog A) (k : A -> prog B) (Q : B -> Prop) :
  wp K P m (fun a => wp K P (k a) Q) -> wp K P (m ≫= k) Q.
Proof.
  unfold mbind, prog_mbind.
  induction m as [a|e|X c k' IH]; simpl; [done|done|].
  intros [HP Hk]. split; [done|]. intros v Hv. apply IH, Hk, Hv.
Qed.

Lemma wp_invoke {X : Type} (c : call X) (Q : X -> Prop) :
  P X c -> (forall v, K X c v -> Q v) -> wp K P (invoke c) Q.
Proof. intros HP HQ. simpl. by split. Qed.

Lemma wp_lift {A : Type} (r : result A) (Q : A -> Prop) :
  (forall a, r = OK a -> Q a) -> wp K P (lift r) Q.
Proof. destruct r; simpl; auto. Qed.

Lemma wp_ret {A : Type} (a : A) (Q : A -> Prop) : Q a -> wp K P (mret a) Q.
Proof. done. Qed.

Lemma wp_for_each {A S : Type} (xs : list A) (body : S -> A -> prog S)
    (Inv : S -> Prop) (acc : S) :
  Inv acc ->
  (forall acc' v, Inv acc' -> wp K P (body acc' v) Inv) ->
  wp K P (for_each xs body acc) Inv.
Proof.
  intros Hacc Hbody. revert acc Hacc.
  induction xs as [|v xs IH]; intros acc Hacc; simpl; [done|].
  apply wp_bind. eapply wp_mono; [|by apply Hbody]. intros acc' H'. by apply IH.
Qed.

End Rules.

Section Leads.
Context (P : call_pred).

Lemma leads_bind_l {A B : Type} (m : prog A) (k : A -> prog B) :
  leads P m -> leads P (m ≫= k).
Proof.
  unfold mbind, prog_mbind.
  induction m as [a|e|X c k' IH]; simpl; [done|done|].
  intros [HP|Hk]; [by left|]. right. intros v. apply IH, Hk.
Qed.

Lemma leads_bind_r {A B : Type} (m : prog A) (k : A -> prog B) :
  (forall a, leads P (k a)) -> leads P (m ≫= k).
Proof.
  unfold mbind, prog_mbind. intros Hk.
  induction m as [a|e|X c k' IH]; simpl; [done|done|].
  right. intros v. apply IH.
Qed.

Lemma leads_invoke {X : Type} (c : call X) : P X c -> leads P (invoke c).
Proof. intros HP. simpl. by left. Qed.

End Leads.

(** ** Stepping through the notebooks *)

Create HintDb notebook.
#[local] Hint Unfold gp_notebook noiseless_section noisy_section noiseless_case
  noisy_case plot_noiseless plot_noisy true_function prediction confidence_band
  figure_of publish_cell f C RBF kernel_mul GaussianProcessRegressor
  Scatter_ Layout_ Figure_
  nn_notebook nn_calculations nn_plots generate_data benchmark benchmark_step
  query_once plot_query_time plot_speedup plot_precision LSHForest NearestNeighbors
  : notebook.

Lemma wp_for_each_any (K : contract) (P : call_pred) {A S : Type} (xs : list A)
    (body : S -> A -> prog S) (acc : S) (Q : S -> Prop) :
  (forall acc' v, wp K P (body acc' v) (fun _ => True)) ->
  (forall s, Q s) ->
  wp K P (for_each xs body acc) Q.
Proof.
  intros Hbody HQ. apply (wp_mono K P _ (fun _ => True)); [intros s _; apply HQ|].
  apply wp_for_each; [exact I|]. intros acc' v _. apply Hbody.
Qed.

Lemma honours_any {W : Type} (lib : library W) : honours lib any_answer.
Proof. by intros X c w w' v _. Qed.

Ltac wp_step :=
  cbv beta zeta;
  lazymatch goal with
  | |- wp _ _ (_ ≫= _) _ => apply wp_bind
  | |- wp _ _ (invoke _) _ => apply wp_invoke; [hnf; try exact I | intros ? ?]
  | |- wp _ _ (lift _) _ => apply wp_lift; intros ? ?
  | |- wp _ _ (mret _) _ => apply wp_ret
  | |- wp _ _ (for_each _ _ _) _ => apply wp_for_each_any; [intros ? ? | intros ?]
  | |- wp _ _ (let '(_, _) := ?p in _) _ => destruct p
  | |- True => exact I
  end.

(** Side conditions never need what the libraries answered. *)
Ltac forget :=
  repeat match goal with
         | H : _ = OK _ |- _ => clear H
         | H : any_answer _ _ _ |- _ => clear H
         end.

Ltac wp_walk := autounfold with notebook; repeat wp_step; try (forget; done).

Lemma gp_notebook_signatures : wp any_answer gp_signature gp_notebook (fun _ => True).
Proof. wp_walk. Qed.

Lemma nn_notebook_signatures : wp any_answer nn_signature nn_notebook (fun _ => True).
Proof. wp_walk. Qed.

(** C1 (as amended): in every execution, [predict] is passed
    [return_std=True] and [kneighbors] is passed [return_distance=False];
    the Gaussian Process notebook calls [fit(X, y)], the nearest-neighbours
    notebook calls [fit(X)] without targets. *)
Theorem estimator_call_signatures {W : Type} (lib : library W) (w : W) :
  Forall (entry_sat gp_signature) (trace (run lib gp_notebook w)) /\
  Forall (entry_sat nn_signature) (trace (run lib nn_notebook w)).
Proof.
  split.
  - apply (wp_sound lib any_answer gp_signature gp_notebook (fun _ => True) w);
      [apply honours_any | apply gp_notebook_signatures].
  - apply (wp_sound lib any_answer nn_signature nn_notebook (fun _ => True) w);
      [apply honours_any | apply nn_notebook_signatures].
Qed.

(** C1 fails as stated: run against the demo library, the
    nearest-neighbours notebook calls [fit] without a target vector. *)
Lemma fit_without_targets :
  ~ Forall (entry_sat listed_signature)
      (trace (run (demo_library 0.5) nn_notebook 0%nat)).
Proof.
  intros H.
  assert (existsb is_fit_without_y (trace (run (demo_library 0.5) nn_notebook 0%nat))
          = true) as Hex by (vm_compute; reflexivity).
  apply existsb_exists in Hex as (en & Hin & Hen).
  rewrite Forall_forall in H. specialize (H en (proj2 (list_elem_of_In _ _) Hin)).
  destruct en as [X c a]. destruct c; try discriminate Hen.
  destruct y; [discriminate Hen|]. by apply H.
Qed.

(** ** Shapes *)

Lemma length_linspace (start stop : num) (n : nat) : length (linspace start stop n) = n.
Proof.
  unfold linspace. destruct n as [|[|n]]; [done|done|].
  by rewrite length_map, length_seq.
Qed.

Lemma length_transpose_row (v : vec) : length (transpose (atleast_2d v)) = length v.
Proof. unfold atleast_2d. simpl. by rewrite length_map. Qed.

Lemma getitem_middle {A : Type} (pre suf : list A) (v : A) :
  getitem (pre ++ v :: suf) (length pre) = OK v.
Proof.
  unfold getitem. rewrite nth_error_app2 by lia.
  by rewrite Nat.sub_diag.
Qed.

Lemma data_to_plotly_loop {A : Type} (pre suf : list (list A)) (k : list A) :
  for_acc (seq (length pre) (length suf))
    (fun k i => row ← getitem (pre ++ suf) i; v ← getitem row 0%nat; OK (k ++ [v])) k =
  match first_column suf with
  | OK c => OK (k ++ c)
  | Raise e => Raise e
  end.
Proof.
  revert pre k. induction suf as [|row suf IH]; intros pre k; simpl.
  - by rewrite app_nil_r.
  - rewrite getitem_middle.
    destruct row as [|v row]; simpl; [done|].
    replace (pre ++ (v :: row) :: suf) with ((pre ++ [v :: row]) ++ suf)
      by (by rewrite <- app_assoc).
    replace (S (length pre)) with (length (pre ++ [v :: row]))
      by (rewrite length_app; simpl; lia).
    rewrite IH. destruct (first_column suf); [|done].
    by rewrite <- app_assoc.
Qed.

(** The loop of [data_to_plotly] reads off the first column. *)
Lemma data_to_plotly_first_column {A : Type} (x : list (list A)) :
  data_to_plotly x = first_column x.
Proof.
  unfold data_to_plotly.
  pose proof (data_to_plotly_loop [] x []) as H. simpl in H.
  rewrite H. by destruct (first_column x).
Qed.

Lemma first_column_ok {A : Type} (x : list (list A)) :
  Forall (fun row => row <> []) x ->
  exists k, first_column x = OK k /\ length k = length x /\
    forall i row, nth_error x i = Some row -> nth_error k i = nth_error row 0.
Proof.
  induction 1 as [|row x Hrow _ IH]; simpl.
  - exists []. split; [done|]. split; [done|]. by intros [|i] row.
  - destruct row as [|v row]; [done|].
    destruct IH as (k & -> & Hlen & Hnth).
    exists (v :: k). split; [done|]. split; [simpl; lia|].
    intros [|i] r; simpl; [by intros [= <-]|apply Hnth].
Qed.

Lemma first_column_empty_row {A : Type} (x : list (list A)) :
  In [] x -> first_column x = Raise IndexError.
Proof.
  induction x as [|row x IH]; simpl; [done|].
  intros [->|Hin]; [done|].
  destruct row; [done|]. by rewrite IH.
Qed.

(** C8: on a two-dimensional array without empty rows, [data_to_plotly]
    returns a list as long as [x] whose [i]-th element is [x[i][0]]; when
    some row of [x] is empty, the indexing fails with [IndexError]. *)
Theorem data_to_plotly_spec {A : Type} (x : list (list A)) :
  (Forall (fun row => row <> []) x ->
   exists k, data_to_plotly x = OK k /\ length k = length x /\
     forall i row, nth_error x i = Some row -> nth_error k i = nth_error row 0) /\
  (In [] x -> data_to_plotly x = Raise IndexError).
Proof.
  rewrite data_to_plotly_first_column. split.
  - apply first_column_ok.
  - apply first_column_empty_row.
Qed.

Lemma data_to_plotly_spec_witness :
  (exists k, data_to_plotly [[1%Z; 2%Z]; [3%Z; 4%Z]] = OK k /\
     length k = 2%nat /\
     forall i row, nth_error [[1%Z; 2%Z]; [3%Z; 4%Z]] i = Some row ->
                   nth_error k i = nth_error row 0) /\
  data_to_plotly [[1%Z]; []] = Raise IndexError.
Proof.
  split.
  - apply (proj1 (data_to_plotly_spec [[1%Z; 2%Z]; [3%Z; 4%Z]])).
    repeat constructor; discriminate.
  - apply (proj2 (data_to_plotly_spec [[1%Z]; []])). simpl. tauto.
Defined.

Lemma zip_result_zip_with (op : num -> num -> num) (a b : vec) :
  zip_result (scalar_op op) a b = OK (zip_with op a b).
Proof.
  revert b. induction a as [|p a IH]; intros [|q b]; simpl; try done.
  by rewrite IH.
Qed.

Lemma vec_op_zip_with (op : num -> num -> num) (a b c : vec) :
  length a = length b -> vec_op op a b = OK c -> c = zip_with op a b.
Proof.
  intros Hlen. unfold vec_op, broadcast.
  rewrite (proj2 (Nat.eqb_eq _ _) Hlen), zip_result_zip_with. by intros [= <-].
Qed.

Lemma first_column_of_column {A : Type} (v : list A) :
  first_column (map (fun a => [a]) v) = OK v.
Proof. induction v as [|a v IH]; simpl; [done|]. by rewrite IH. Qed.

(** The index sizes are those the benchmark cell printed. *)
Lemma n_samples_values_recorded :
  n_samples_values = [1000; 2511; 6309; 15848; 39810; 100000]%Z.
Proof. vm_compute. reflexivity. Qed.

Lemma leads_for_each_cons (P : call_pred) {A S : Type} (v : A) (rest : list A)
    (body : S -> A -> prog S) (acc : S) :
  leads P (body acc v) -> leads P (for_each (v :: rest) body acc).
Proof. intros H. simpl. by apply leads_bind_l. Qed.

(** ** The confidence band *)

Lemma mesh_length : length (transpose (atleast_2d (linspace 0 10 1000))) = 1000%nat.
Proof. by rewrite length_transpose_row, length_linspace. Qed.

Lemma band_abscissae (v a : vec) :
  data_to_plotly
    (concatenate [transpose (atleast_2d v); rev (transpose (atleast_2d v))]) = OK a ->
  a = v ++ rev v.
Proof.
  rewrite data_to_plotly_first_column. unfold concatenate, atleast_2d. simpl.
  rewrite app_nil_r, <- map_rev, <- map_app, first_column_of_column.
  by intros [= <-].
Qed.

Lemma band_ordinates (y_pred sigma lower : vec) :
  length y_pred = length sigma ->
  vec_op Qminus y_pred (map (Qmult 1.9600) sigma) = OK lower ->
  concatenate [lower] = zip_with Qminus y_pred (map (Qmult 1.9600) sigma).
Proof.
  intros Hlen H. apply vec_op_zip_with in H; [|by rewrite length_map].
  unfold concatenate. simpl. by rewrite app_nil_r.
Qed.

Ltac not_the_band :=
  lazymatch goal with
  | |- wp _ _ _ _ => idtac
  | |- _ => let H := fresh in hnf; intros H; discriminate H
  end.

Lemma wp_confidence_band (K : contract) (y_pred sigma : vec) (Q : Scatter -> Prop) :
  length y_pred = 1000%nat -> length sigma = 1000%nat ->
  (forall s, Q s) ->
  wp K band_lengths
     (confidence_band (transpose (atleast_2d (linspace 0 10 1000))) y_pred sigma) Q.
Proof.
  intros Hy Hs HQ. unfold confidence_band, Scatter_.
  repeat wp_step; [|apply HQ].
  intros _. unfold band_of. cbn [sc_x sc_y].
  match goal with H : data_to_plotly _ = OK _ |- _ =>
    apply band_abscissae in H; subst end.
  match goal with H : vec_op _ _ _ = OK _ |- _ =>
    pose proof (band_ordinates _ _ _ (eq_trans Hy (eq_sym Hs)) H) as Hlower end.
  split; [done|]. split.
  { rewrite length_app, length_rev, length_linspace. reflexivity. }
  split.
  { etransitivity; [exact (f_equal length Hlower)|].
    unfold vec, num in *. rewrite length_zip_with, length_map. lia. }
  by exists y_pred, sigma.
Qed.

Ltac use_predict_shape :=
  match goal with
  | H : predict_shape _ (predict _ _ _) (_, _) |- _ =>
      hnf in H; cbn [fst snd] in H; rewrite mesh_length in H; destruct H; assumption
  end.

Ltac band_step :=
  lazymatch goal with
  | |- wp _ _ (confidence_band _ _ _) _ =>
      apply wp_confidence_band; [use_predict_shape | use_predict_shape | intros ?]
  end.

Lemma gp_notebook_band :
  wp predict_shape band_lengths gp_notebook (fun _ => True).
Proof.
  unfold gp_notebook, noiseless_section, noisy_section, noiseless_case, noisy_case,
    plot_noiseless, plot_noisy, true_function, prediction, figure_of, publish_cell,
    f, C, RBF, kernel_mul, GaussianProcessRegressor, Scatter_, Layout_, Figure_.
  repeat (repeat wp_step; try band_step).
  all: not_the_band.
Qed.

Ltac leads_solve :=
  cbv beta zeta;
  lazymatch goal with
  | |- leads _ (invoke _) => apply leads_invoke; hnf; first [exact I | reflexivity]
  | |- leads _ (_ ≫= _) =>
      first [ apply leads_bind_l; leads_solve
            | apply leads_bind_r; intros ?; leads_solve ]
  | |- leads _ (let '(_, _) := ?p in _) => destruct p; leads_solve
  | |- leads _ (for_each n_samples_values _ _) =>
      rewrite n_samples_values_recorded; apply leads_for_each_cons; leads_solve
  | |- leads _ (for_each (seq 0 n_iter) _ _) =>
      apply (leads_for_each_cons _ 0%nat (seq 1 4)); leads_solve
  end.

Lemma confidence_band_built (x : mat) (y_pred sigma : vec) :
  leads builds_band (confidence_band x y_pred sigma).
Proof. unfold confidence_band, Scatter_. leads_solve. Qed.

Lemma noiseless_section_builds_band : leads builds_band noiseless_section.
Proof.
  unfold noiseless_section, plot_noiseless.
  apply leads_bind_r. intros [[[[[X y] x] k] y_pred] sigma].
  apply leads_bind_l. do 4 (apply leads_bind_r; intros ?).
  apply leads_bind_l, confidence_band_built.
Qed.

Lemma noisy_section_builds_band (kernel : Kernel) (x : mat) :
  leads builds_band (noisy_section kernel x).
Proof.
  unfold noisy_section, plot_noisy.
  apply leads_bind_r. intros [[[[X y] dy] y_pred] sigma].
  apply leads_bind_l. do 3 (apply leads_bind_r; intros ?).
  apply leads_bind_l, confidence_band_built.
Qed.

(** C4: whenever [predict] answers with one value per row of the mesh,
    the trace named "95% confidence interval" pairs 2000 abscissae, the
    mesh followed by its reverse, with 1000 ordinates, the values of
    [y_pred - 1.9600 * sigma] and nothing above them, so the two lengths
    differ; the noiseless and the noisy section each build such a trace
    when they run to their end. *)
Theorem confidence_band_lengths {W : Type} (lib : library W) (w : W) :
  honours lib predict_shape ->
  (forall (s : Scatter) (a : result unit),
      In (Entry (go_Scatter s) a) (trace (run lib gp_notebook w)) -> is_band s ->
      band_of s /\ length (sc_x s) <> length (sc_y s)) /\
  (forall r, outcome (run lib noiseless_section w) = OK r ->
     Exists (entry_sat builds_band) (trace (run lib noiseless_section w))) /\
  (forall kernel x r, outcome (run lib (noisy_section kernel x) w) = OK r ->
     Exists (entry_sat builds_band) (trace (run lib (noisy_section kernel x) w))).
Proof.
  intros Hlib. split; [|split].
  - intros s a Hin Hband.
    destruct (wp_sound lib _ _ _ _ w Hlib gp_notebook_band) as [Hall _].
    rewrite Forall_forall in Hall.
    pose proof (Hall _ (proj2 (list_elem_of_In _ _) Hin) Hband) as Hs.
    split; [exact Hs|]. destruct Hs as (_ & Hx & Hy & _). rewrite Hx, Hy. lia.
  - intros r. apply leads_sound, noiseless_section_builds_band.
  - intros kernel x r. apply leads_sound, noisy_section_builds_band.
Qed.


Lemma demo_library_predict_shape (u : num) : honours (demo_library u) predict_shape.
Proof.
  intros X c w w' v. destruct c; try done.
  simpl. intros [= <-]. simpl. by rewrite !repeat_length.
Qed.

Lemma confidence_band_lengths_witness :
  honours (demo_library 0.5) predict_shape /\
  Exists (entry_sat builds_band) (trace (run (demo_library 0.5) noiseless_section 0%nat)) /\
  (forall (s : Scatter) (a : result unit),
      In (Entry (go_Scatter s) a) (trace (run (demo_library 0.5) gp_notebook 0%nat)) ->
      is_band s ->
      band_of s /\ length (sc_x s) <> length (sc_y s)).
Proof.
  destruct (confidence_band_lengths (demo_library 0.5) 0%nat
              (demo_library_predict_shape 0.5)) as (Hband & Hbuilt & _).
  split; [apply demo_library_predict_shape|]. split; [|exact Hband].
  destruct (outcome (run (demo_library 0.5) noiseless_section 0%nat)) as [r|e] eqn:E.
  - exact (Hbuilt r eq_refl).
  - vm_compute in E. discriminate E.
Defined.

(** The two bands of the demo run, as (abscissae, ordinates). *)
Example demo_bands :
  omap band_shape (trace (run (demo_library 0.5) gp_notebook 0%nat)) =
  [(2000, 1000); (2000, 1000)]%nat.
Proof. vm_compute. reflexivity. Qed.

(** ** Exceptions *)

Section Propagation.
Variable o : Ast.oracle.

Lemma settled_clean (fl : Ast.flow) (st : Ast.state) :
  Ast.settled fl st -> (forall e, fl <> Ast.Raised e) -> Ast.clean st.
Proof.
  intros [Hd Hf] Hfl. split; [|done]. destruct fl; [done|done|]. by destruct (Hfl e).
Qed.

Lemma propagates_skip : Ast.propagates Ast.skip.
Proof. intros st fl st' [Hf Hd] [= <- <-]. by split. Qed.

Lemma propagates_operation : Ast.propagates (Ast.operation o).
Proof.
  intros st fl st' [Hf Hd]. unfold Ast.operation.
  destruct (Ast.fails o (Ast.operations st)) as [e|]; intros [= <- <-];
    split; simpl; [done| |done|done].
  by rewrite Hf.
Qed.

Lemma propagates_define (name : string) (body : list Ast.stmt) :
  Ast.handler_free body -> Ast.propagates (Ast.define name body).
Proof.
  intros Hbody st fl st' [Hf Hd] [= <- <-]. split; simpl; [|done].
  by constructor.
Qed.

Lemma propagates_andthen (m k : Ast.step) :
  Ast.propagates m -> Ast.propagates k -> Ast.propagates (Ast.andthen m k).
Proof.
  intros Hm Hk st fl st' Hc. unfold Ast.andthen.
  destruct (m st) as [[fl1 st1]|] eqn:E; [|done].
  specialize (Hm _ _ _ Hc E).
  destruct fl1; [|by intros [= <- <-]|by intros [= <- <-]].
  apply Hk. by apply (settled_clean Ast.Normal).
Qed.

Lemma lookup_function_handler_free (name : string) (body : list Ast.stmt)
    (fs : list (string * list Ast.stmt)) :
  Forall (fun d => Ast.handler_free (snd d)) fs ->
  Ast.lookup_function name fs = Some body -> Ast.handler_free body.
Proof.
  induction 1 as [|[n b] fs Hb _ IH]; simpl; [done|].
  destruct (String.eqb name n); [by intros [= <-]|exact IH].
Qed.

Lemma handler_free_cons (s : Ast.stmt) (ss : list Ast.stmt) :
  Ast.handler_free (s :: ss) ->
  Ast.count Ast.is_try s = 0%nat /\ Ast.handler_free ss.
Proof. unfold Ast.handler_free, Ast.count_all. simpl. lia. Qed.

Lemma steps_propagate (fuel : nat) :
  (forall e, Ast.propagates (Ast.eval o fuel e)) /\
  (forall es, Ast.propagates (Ast.evals o fuel es)) /\
  (forall func, Ast.propagates (Ast.call o fuel func)) /\
  (forall s, Ast.count Ast.is_try s = 0%nat -> Ast.propagates (Ast.exec o fuel s)) /\
  (forall ss, Ast.handler_free ss -> Ast.propagates (Ast.execs o fuel ss)) /\
  (forall turns body, Ast.handler_free body ->
                      Ast.propagates (Ast.for_loop o fuel turns body)) /\
  (forall test body, Ast.handler_free body ->
                     Ast.propagates (Ast.while_loop o fuel test body)).
Proof.
  induction fuel as [|n (He & Hes & Hcall & Hs & Hss & Hfor & Hwhile)].
  { repeat split; unfold Ast.propagates; intros;
      match goal with H : _ = Some _ |- _ => discriminate H end. }
  split; [|split; [|split; [|split; [|split; [|split]]]]].
  - intros e. destruct e; simpl;
      auto using propagates_skip, propagates_andthen, propagates_operation.
  - intros es. destruct es; simpl; auto using propagates_skip, propagates_andthen.
  - intros func st fl st' Hc. simpl.
    destruct func; try apply (propagates_operation st fl st' Hc).
    destruct (Ast.lookup_function id (Ast.functions st)) as [body|] eqn:E;
      [|apply (propagates_operation st fl st' Hc)].
    pose proof (lookup_function_handler_free _ _ _ (proj2 Hc) E) as Hbody.
    destruct (Ast.execs o n body st) as [[fl1 st1]|] eqn:E1; [|done].
    pose proof (Hss body Hbody st fl1 st1 Hc E1) as H1.
    destruct fl1; intros [= <- <-]; exact H1.
  - intros s Hcount. destruct s; simpl in Hcount; simpl;
      auto using propagates_skip, propagates_andthen, propagates_operation.
    + intros st fl st' Hc.
      destruct (Ast.eval o n value st) as [[fl1 st1]|] eqn:E1; [|done].
      pose proof (He value st fl1 st1 Hc E1) as H1.
      destruct fl1; intros [= <- <-]; exact H1.
    + by apply propagates_define.
    + apply propagates_andthen; [apply He|].
      intros st. by apply Hfor.
    + apply propagates_andthen; [apply He|].
      intros st. destruct (Ast.holds o (Ast.operations st)); apply Hss;
        unfold Ast.handler_free, Ast.count_all; lia.
    + discriminate Hcount.
  - intros ss Hfree. destruct ss as [|s ss]; simpl; [apply propagates_skip|].
    apply handler_free_cons in Hfree. destruct Hfree as [H1 H2].
    apply propagates_andthen; auto.
  - intros turns body Hbody. destruct turns; simpl; [apply propagates_skip|].
    apply propagates_andthen; auto.
  - intros test body Hbody. simpl. apply propagates_andthen; [apply He|].
    intros st. destruct (Ast.holds o (Ast.operations st)); [|apply propagates_skip].
    apply propagates_andthen; auto.
Qed.

End Propagation.

Lemma clean_start : Ast.clean Ast.start.
Proof. by split. Qed.

Lemma notebooks_handler_free (cells : list (list Ast.stmt)) :
  In cells [Ast.gp_cells; Ast.nn_cells] -> Ast.handler_free (Ast.code cells).
Proof. intros [<-|[<-|[]]]; reflexivity. Qed.

(** *** Every run ends *)

Section Termination.
Variable o : Ast.oracle.

Lemma terminates_unfold (m m' : nat -> Ast.step) :
  (forall n st, Ast.tame st -> m (S n) st = m' n st) ->
  Ast.terminates m' -> Ast.terminates m.
Proof.
  intros Hm H st Ht. destruct (H st Ht) as (f0 & fl & st' & Ht' & Hr).
  exists (S f0), fl, st'. split; [done|].
  intros [|n] Hn; [lia|]. rewrite Hm by done. apply Hr. lia.
Qed.

Lemma terminates_andthen (m1 m2 : nat -> Ast.step) :
  Ast.terminates m1 -> Ast.terminates m2 ->
  Ast.terminates (fun n => Ast.andthen (m1 n) (m2 n)).
Proof.
  intros H1 H2 st Ht. destruct (H1 st Ht) as (f1 & fl1 & st1 & Ht1 & Hr1).
  destruct fl1.
  - destruct (H2 st1 Ht1) as (f2 & fl2 & st2 & Ht2 & Hr2).
    exists (max f1 f2), fl2, st2. split; [done|]. intros fuel Hf.
    unfold Ast.andthen. rewrite Hr1 by lia. apply Hr2. lia.
  - exists f1, Ast.Returned, st1. split; [done|]. intros fuel Hf.
    unfold Ast.andthen. by rewrite Hr1.
  - exists f1, (Ast.Raised e), st1. split; [done|]. intros fuel Hf.
    unfold Ast.andthen. by rewrite Hr1.
Qed.

Lemma terminates_skip : Ast.terminates (fun _ => Ast.skip).
Proof. intros st Ht. by exists 0%nat, Ast.Normal, st. Qed.

Lemma terminates_operation : Ast.terminates (fun _ => Ast.operation o).
Proof.
  intros st Ht. unfold Ast.operation.
  destruct (Ast.fails o (Ast.operations st)) as [e|];
    eexists 0%nat, _, _; (split; [|reflexivity]); exact Ht.
Qed.

Lemma evaluates_Name (id : string) : Ast.evaluates o (Ast.Name id).
Proof. apply (terminates_unfold _ (fun _ => Ast.skip)); [done|apply terminates_skip]. Qed.

Lemma evaluates_Num (spelling : string) : Ast.evaluates o (Ast.Num spelling).
Proof. apply (terminates_unfold _ (fun _ => Ast.skip)); [done|apply terminates_skip]. Qed.

Lemma evaluates_Str (s : string) : Ast.evaluates o (Ast.Str s).
Proof. apply (terminates_unfold _ (fun _ => Ast.skip)); [done|apply terminates_skip]. Qed.

Lemma evaluates_NoneE : Ast.evaluates o Ast.NoneE.
Proof. apply (terminates_unfold _ (fun _ => Ast.skip)); [done|apply terminates_skip]. Qed.

Lemma evaluates_Attr (value : Ast.expr) (attr : string) :
  Ast.evaluates o value -> Ast.evaluates o (Ast.Attr value attr).
Proof. intros H. by apply (terminates_unfold _ (fun n => Ast.eval o n value)). Qed.

Lemma evaluates_BinOp (lhs rhs : Ast.expr) (op : string) :
  Ast.evaluates o lhs -> Ast.evaluates o rhs -> Ast.evaluates o (Ast.BinOp lhs op rhs).
Proof.
  intros Hl Hr.
  apply (terminates_unfold _
           (fun n => Ast.andthen (Ast.eval o n lhs)
                       (Ast.andthen (Ast.eval o n rhs) (Ast.operation o)))); [done|].
  apply terminates_andthen; [done|].
  apply (terminates_andthen (fun n => Ast.eval o n rhs) (fun _ => Ast.operation o));
    [done|apply terminates_operation].
Qed.

Lemma evaluates_Subscript (value index : Ast.expr) :
  Ast.evaluates o value -> Ast.evaluates o index ->
  Ast.evaluates o (Ast.Subscript value index).
Proof.
  intros Hv Hi.
  apply (terminates_unfold _
           (fun n => Ast.andthen (Ast.eval o n value)
                       (Ast.andthen (Ast.eval o n index) (Ast.operation o)))); [done|].
  apply terminates_andthen; [done|].
  apply (terminates_andthen (fun n => Ast.eval o n index) (fun _ => Ast.operation o));
    [done|apply terminates_operation].
Qed.

Lemma evaluates_Slice (lower upper stride : Ast.expr) :
  Ast.evaluates o lower -> Ast.evaluates o upper -> Ast.evaluates o stride ->
  Ast.evaluates o (Ast.Slice lower upper stride).
Proof.
  intros Hl Hu Hs.
  apply (terminates_unfold _
           (fun n => Ast.andthen (Ast.eval o n lower)
                       (Ast.andthen (Ast.eval o n upper) (Ast.eval o n stride))));
    [done|].
  apply terminates_andthen; [done|].
  by apply (terminates_andthen (fun n => Ast.eval o n upper)
              (fun n => Ast.eval o n stride)).
Qed.

Lemma evaluates_ListE (elts : list Ast.expr) :
  Ast.evaluates_all o elts -> Ast.evaluates o (Ast.ListE elts).
Proof. intros H. by apply (terminates_unfold _ (fun n => Ast.evals o n elts)). Qed.

Lemma evaluates_TupleE (elts : list Ast.expr) :
  Ast.evaluates_all o elts -> Ast.evaluates o (Ast.TupleE elts).
Proof. intros H. by apply (terminates_unfold _ (fun n => Ast.evals o n elts)). Qed.

Lemma evaluates_all_nil : Ast.evaluates_all o [].
Proof. apply (terminates_unfold _ (fun _ => Ast.skip)); [done|apply terminates_skip]. Qed.

Lemma evaluates_all_cons (e : Ast.expr) (es : list Ast.expr) :
  Ast.evaluates o e -> Ast.evaluates_all o es -> Ast.evaluates_all o (e :: es).
Proof.
  intros He Hes.
  apply (terminates_unfold _
           (fun n => Ast.andthen (Ast.eval o n e) (Ast.evals o n es))); [done|].
  by apply terminates_andthen.
Qed.

Lemma evaluates_Call (func : Ast.expr) (args : list Ast.expr)
    (keywords : list (string * Ast.expr)) :
  Ast.evaluates_all o (Ast.receiver func ++ args ++ map snd keywords) ->
  Ast.calls o func -> Ast.evaluates o (Ast.Call func args keywords).
Proof.
  intros Ha Hc.
  apply (terminates_unfold _
           (fun n => Ast.andthen
                       (Ast.evals o n (Ast.receiver func ++ args ++ map snd keywords))
                       (Ast.call o n func))); [done|].
  by apply terminates_andthen.
Qed.

Lemma lookup_function_In (name : string) (body : list Ast.stmt)
    (fs : list (string * list Ast.stmt)) :
  Ast.lookup_function name fs = Some body -> In (name, body) fs.
Proof.
  induction fs as [|[n b] fs IH]; simpl; [done|].
  destruct (String.eqb_spec name n) as [->|_]; [intros [= <-]; by left|].
  intros H. right. by apply IH.
Qed.

(** A call of what the code did not define is an operation. *)
Lemma calls_operation (func : Ast.expr) :
  (forall id, func = Ast.Name id -> ~ In id (map fst Ast.known)) -> Ast.calls o func.
Proof.
  intros Hfunc.
  apply (terminates_unfold _ (fun _ => Ast.operation o)); [|apply terminates_operation].
  intros n st Ht. simpl. destruct func; try reflexivity.
  destruct (Ast.lookup_function id (Ast.functions st)) as [body|] eqn:E; [|done].
  exfalso. apply (Hfunc id eq_refl).
  apply lookup_function_In in E. unfold Ast.tame in Ht. rewrite Forall_forall in Ht.
  apply list_elem_of_In, Ht in E. by apply (in_map fst) in E.
Qed.

(** A call of a function of the code runs its body. *)
Lemma calls_function (func : Ast.expr) :
  (forall d, In d Ast.known -> Ast.executes_all o (snd d)) -> Ast.calls o func.
Proof.
  intros Hknown st Ht.
  assert (exists fl st', Ast.tame st' /\ Ast.operation o st = Some (fl, st'))
    as (flo & sto & Hto & Hop).
  { destruct (terminates_operation st Ht) as (f0 & fl & st' & Ht' & Hr).
    exists fl, st'. split; [done|]. by apply (Hr f0). }
  destruct func;
    try (exists 1%nat, flo, sto; split; [done|]; intros [|n] Hn; [lia|]; exact Hop).
  destruct (Ast.lookup_function id (Ast.functions st)) as [body|] eqn:E.
  - pose proof E as Hin. apply lookup_function_In in Hin.
    pose proof Ht as Hall. unfold Ast.tame in Hall. rewrite Forall_forall in Hall.
    apply list_elem_of_In, Hall in Hin.
    destruct (Hknown _ Hin st Ht) as (f0 & fl & st' & Ht' & Hr). simpl in Hr.
    exists (S f0), (match fl with Ast.Returned => Ast.Normal | _ => fl end), st'.
    split; [done|]. intros [|n] Hn; [lia|]. simpl. rewrite E, Hr by lia.
    by destruct fl.
  - exists 1%nat, flo, sto. split; [done|].
    intros [|n] Hn; [lia|]. simpl. by rewrite E.
Qed.

Lemma executes_Import (line : string) : Ast.executes o (Ast.Import line).
Proof.
  apply (terminates_unfold _ (fun _ => Ast.operation o)); [done|apply terminates_operation].
Qed.

Lemma executes_Shell (command : string) : Ast.executes o (Ast.Shell command).
Proof.
  apply (terminates_unfold _ (fun _ => Ast.operation o)); [done|apply terminates_operation].
Qed.

Lemma executes_Expr (value : Ast.expr) :
  Ast.evaluates o value -> Ast.executes o (Ast.Expr value).
Proof. intros H. by apply (terminates_unfold _ (fun n => Ast.eval o n value)). Qed.

Lemma executes_Assign (target value : Ast.expr) :
  Ast.evaluates o value -> Ast.executes o (Ast.Assign target value).
Proof. intros H. by apply (terminates_unfold _ (fun n => Ast.eval o n value)). Qed.

Lemma executes_AugAssign (target value : Ast.expr) (op : string) :
  Ast.evaluates o value -> Ast.executes o (Ast.AugAssign target op value).
Proof.
  intros H.
  apply (terminates_unfold _
           (fun n => Ast.andthen (Ast.eval o n value) (Ast.operation o))); [done|].
  apply (terminates_andthen (fun n => Ast.eval o n value) (fun _ => Ast.operation o));
    [done|apply terminates_operation].
Qed.

Lemma executes_Return (value : Ast.expr) :
  Ast.evaluates o value -> Ast.executes o (Ast.Return value).
Proof.
  intros H st Ht. destruct (H st Ht) as (f0 & fl & st' & Ht' & Hr).
  exists (S f0), (match fl with Ast.Normal => Ast.Returned | _ => fl end), st'.
  split; [done|]. intros [|n] Hn; [lia|]. simpl. rewrite Hr by lia. by destruct fl.
Qed.

Lemma executes_FunctionDef (name : string) (params : list string)
    (body : list Ast.stmt) :
  In (name, body) Ast.known -> Ast.executes o (Ast.FunctionDef name params body).
Proof.
  intros Hin st Ht. eexists 1%nat, Ast.Normal, _. split.
  2:{ intros [|n] Hn; [lia|]. reflexivity. }
  unfold Ast.tame. simpl. by constructor.
Qed.

Lemma terminates_for_loop (turns : nat) (body : list Ast.stmt) :
  Ast.executes_all o body ->
  Ast.terminates (fun n => Ast.for_loop o n turns body).
Proof.
  intros Hbody. induction turns as [|turns IH].
  - apply (terminates_unfold _ (fun _ => Ast.skip)); [done|apply terminates_skip].
  - apply (terminates_unfold _
             (fun n => Ast.andthen (Ast.execs o n body) (Ast.for_loop o n turns body)));
      [done|].
    by apply terminates_andthen.
Qed.

Lemma executes_For (target iter : Ast.expr) (body : list Ast.stmt) :
  Ast.evaluates o iter -> Ast.executes_all o body ->
  Ast.executes o (Ast.For target iter body).
Proof.
  intros Hiter Hbody.
  apply (terminates_unfold _
           (fun n => Ast.andthen (Ast.eval o n iter)
                       (fun st => Ast.for_loop o n (Ast.trips o (Ast.operations st))
                                    body st))); [done|].
  apply (terminates_andthen (fun n => Ast.eval o n iter)
           (fun n st => Ast.for_loop o n (Ast.trips o (Ast.operations st)) body st));
    [done|].
  intros st Ht. by apply (terminates_for_loop (Ast.trips o (Ast.operations st)) body).
Qed.

Lemma executes_If (test : Ast.expr) (body orelse : list Ast.stmt) :
  Ast.evaluates o test -> Ast.executes_all o body -> Ast.executes_all o orelse ->
  Ast.executes o (Ast.If test body orelse).
Proof.
  intros Htest Hbody Helse.
  apply (terminates_unfold _
           (fun n => Ast.andthen (Ast.eval o n test)
                       (fun st => if Ast.holds o (Ast.operations st)
                                  then Ast.execs o n body st
                                  else Ast.execs o n orelse st))); [done|].
  apply (terminates_andthen (fun n => Ast.eval o n test)
           (fun n st => if Ast.holds o (Ast.operations st)
                        then Ast.execs o n body st else Ast.execs o n orelse st));
    [done|].
  intros st Ht. destruct (Ast.holds o (Ast.operations st)); [by apply Hbody|by apply Helse].
Qed.

Lemma executes_all_nil : Ast.executes_all o [].
Proof. apply (terminates_unfold _ (fun _ => Ast.skip)); [done|apply terminates_skip]. Qed.

Lemma executes_all_cons (s : Ast.stmt) (ss : list Ast.stmt) :
  Ast.executes o s -> Ast.executes_all o ss -> Ast.executes_all o (s :: ss).
Proof.
  intros Hs Hss.
  apply (terminates_unfold _
           (fun n => Ast.andthen (Ast.exec o n s) (Ast.execs o n ss))); [done|].
  by apply terminates_andthen.
Qed.

End Termination.

(** The run of a piece of code, one constructor at a time; [call] says
    how a call is settled. *)
Ltac flow_step call :=
  lazymatch goal with
  | |- Ast.evaluates _ (Ast.Name _) => apply evaluates_Name
  | |- Ast.evaluates _ (Ast.Num _) => apply evaluates_Num
  | |- Ast.evaluates _ (Ast.Str _) => apply evaluates_Str
  | |- Ast.evaluates _ Ast.NoneE => apply evaluates_NoneE
  | |- Ast.evaluates _ (Ast.Attr _ _) => apply evaluates_Attr
  | |- Ast.evaluates _ (Ast.BinOp _ _ _) => apply evaluates_BinOp
  | |- Ast.evaluates _ (Ast.Subscript _ _) => apply evaluates_Subscript
  | |- Ast.evaluates _ (Ast.Slice _ _ _) => apply evaluates_Slice
  | |- Ast.evaluates _ (Ast.ListE _) => apply evaluates_ListE
  | |- Ast.evaluates _ (Ast.TupleE _) => apply evaluates_TupleE
  | |- Ast.evaluates _ (Ast.Call _ _ _) =>
      apply evaluates_Call; [cbn [Ast.receiver app map snd]|]
  | |- Ast.evaluates_all _ [] => apply evaluates_all_nil
  | |- Ast.evaluates_all _ (_ :: _) => apply evaluates_all_cons
  | |- Ast.calls _ _ => call
  | |- Ast.executes _ (Ast.Import _) => apply executes_Import
  | |- Ast.executes _ (Ast.Shell _) => apply executes_Shell
  | |- Ast.executes _ (Ast.Expr _) => apply executes_Expr
  | |- Ast.executes _ (Ast.Assign _ _) => apply executes_Assign
  | |- Ast.executes _ (Ast.AugAssign _ _ _) => apply executes_AugAssign
  | |- Ast.executes _ (Ast.Return _) => apply executes_Return
  | |- Ast.executes _ (Ast.FunctionDef _ _ _) =>
      apply executes_FunctionDef; vm_compute; tauto
  | |- Ast.executes _ (Ast.For _ _ _) => apply executes_For
  | |- Ast.executes _ (Ast.If _ _ _) => apply executes_If
  | |- Ast.executes_all _ [] => apply executes_all_nil
  | |- Ast.executes_all _ (_ :: _) => apply executes_all_cons
  end.

Ltac undefined_call :=
  apply calls_operation;
  let H := fresh in
  intros ? H;
  first [ discriminate H
        | injection H as <-; vm_compute;
          let H' := fresh in intros [H'|[H'|[]]]; discriminate H' ].

Lemma functions_end (o : Ast.oracle) (d : string * list Ast.stmt) :
  In d Ast.known -> Ast.executes_all o (snd d).
Proof.
  intros Hd. vm_compute in Hd. destruct Hd as [<-|[<-|[]]]; cbn [snd];
    repeat flow_step undefined_call.
Qed.

Lemma notebooks_end (o : Ast.oracle) (cells : list (list Ast.stmt)) :
  In cells [Ast.gp_cells; Ast.nn_cells] -> Ast.executes_all o (Ast.code cells).
Proof.
  intros [<-|[<-|[]]].
  - let c := eval vm_compute in (Ast.code Ast.gp_cells) in
    change (Ast.executes_all o c).
    repeat flow_step ltac:(apply calls_function, functions_end).
  - let c := eval vm_compute in (Ast.code Ast.nn_cells) in
    change (Ast.executes_all o c).
    repeat flow_step ltac:(apply calls_function, functions_end).
Qed.

Lemma tame_start : Ast.tame Ast.start.
Proof. constructor. Qed.

(** C5: the code of neither notebook has a handler, in a cell or in a
    function, so what an operation raises travels to the top.  Whatever
    the operations answer, the run of the code of a notebook ends, and
    however much fuel it is given: when it ends in an exception, exactly
    one operation raised, it is the last operation made and the
    exception is the one it raised; when it ends otherwise, no operation
    raised.  Nothing is caught, tried again or replaced.  The executions
    of the notebooks agree: a library call that raises is the last call,
    no call before it raised, and its exception is the outcome. *)
Theorem library_errors_propagate (o : Ast.oracle) (cells : list (list Ast.stmt)) :
  In cells [Ast.gp_cells; Ast.nn_cells] ->
  Ast.count_all Ast.is_try (Ast.code cells) = 0%nat /\
  (exists fuel0, forall fuel, (fuel0 <= fuel)%nat ->
     exists fl st', Ast.execs o fuel (Ast.code cells) Ast.start = Some (fl, st')) /\
  (forall fuel fl st',
     Ast.execs o fuel (Ast.code cells) Ast.start = Some (fl, st') ->
     match fl with
     | Ast.Raised e => Ast.failures st' = [(pred (Ast.operations st'), e)]
     | _ => Ast.failures st' = []
     end) /\
  forall (W : Type) (lib : library W) (w : W) (nb : prog unit) (en : entry) (e : exn),
    In nb repository -> In en (trace (run lib nb w)) -> raised en = Some e ->
    outcome (run lib nb w) = Raise e /\
    exists t, trace (run lib nb w) = t ++ [en] /\
              Forall (fun en' => raised en' = None) t.
Proof.
  intros Hcells. pose proof (notebooks_handler_free cells Hcells) as Hfree.
  split; [exact Hfree|]. split; [|split].
  - destruct (notebooks_end o cells Hcells Ast.start tame_start)
      as (fuel0 & fl & st' & _ & Hrun).
    exists fuel0. intros fuel Hfuel. exists fl, st'. by apply Hrun.
  - intros fuel fl st' Hrun.
    destruct (steps_propagate o fuel) as (_ & _ & _ & _ & Hss & _).
    exact (proj2 (Hss (Ast.code cells) Hfree Ast.start fl st' clean_start Hrun)).
  - intros W lib w nb en e _. apply run_raised.
Qed.

Lemma library_errors_propagate_witness :
  (exists fuel0, forall fuel, (fuel0 <= fuel)%nat ->
     exists fl st',
       Ast.execs (Ast.failing_at 30) fuel (Ast.code Ast.gp_cells) Ast.start
       = Some (fl, st')) /\
  exists st',
    Ast.execs (Ast.failing_at 30) 1000 (Ast.code Ast.gp_cells) Ast.start
    = Some (Ast.Raised (LibraryError 30), st') /\
    Ast.failures st' = [(30%nat, LibraryError 30)] /\
    Ast.operations st' = 31%nat.
Proof.
  destruct (library_errors_propagate (Ast.failing_at 30) Ast.gp_cells
              (or_introl eq_refl)) as (_ & Hends & Hsettled & _).
  split; [exact Hends|].
  destruct (Ast.execs (Ast.failing_at 30) 1000 (Ast.code Ast.gp_cells) Ast.start)
    as [[fl st']|] eqn:E.
  - pose proof (Hsettled 1000%nat fl st' E) as Hfl.
    vm_compute in E. injection E as <- <-.
    eexists. split; [reflexivity|]. split; [exact Hfl|reflexivity].
  - vm_compute in E. discriminate E.
Defined.

(** Had the code a handler around [gp.fit(X, y)], the exception would
    stop there: the cell ends normally although an operation raised. *)
Example a_handler_would_catch :
  exists st',
    Ast.execs (Ast.failing_at 0) 100 Ast.guarded_fit Ast.start = Some (Ast.Normal, st') /\
    Ast.failures st' = [(0%nat, LibraryError 0)] /\
    Ast.operations st' = 2%nat.
Proof. eexists. split; [vm_compute; reflexivity|]. by split. Qed.

(** Where no operation raises both notebooks run to their end. *)
Example notebooks_run_quietly :
  (exists st', Ast.execs Ast.quiet 1000 (Ast.code Ast.gp_cells) Ast.start
               = Some (Ast.Normal, st') /\ Ast.failures st' = []) /\
  (exists st', Ast.execs Ast.quiet 1000 (Ast.code Ast.nn_cells) Ast.start
               = Some (Ast.Normal, st') /\ Ast.failures st' = []).
Proof. split; (eexists; split; [vm_compute; reflexivity|reflexivity]). Qed.

(** ** What every notebook does *)





(** ** Monitored executions *)

Section Monitors.
Context {St : Type} (M : monitor St).

Lemma safe_mono {R : Type} (Q Q' : St -> R -> Prop) (T : St -> Prop) (s : St)
    (p : prog R) :
  (forall s' r, Q s' r -> Q' s' r) -> safe M Q T s p -> safe M Q' T s p.
Proof.
  intros HQ. revert s. induction p as [r|e|X c k IH]; intros s; simpl; [auto|auto|].
  intros [Ha Hk]. split; [done|]. intros v. apply IH, Hk.
Qed.

Lemma safe_bind {A B : Type} (m : prog A) (k : A -> prog B)
    (Q : St -> B -> Prop) (T : St -> Prop) (s : St) :
  safe M (fun s' a => safe M Q T s' (k a)) T s m -> safe M Q T s (m ≫= k).
Proof.
  unfold mbind, prog_mbind. revert s.
  induction m as [a|e|X c k' IH]; intros s; simpl; [done|done|].
  intros [Ha Hk]. split; [done|]. intros v. apply IH, Hk.
Qed.

Lemma safe_invoke {X : Type} (c : call X) (Q : St -> X -> Prop) (T : St -> Prop)
    (s : St) :
  allows M s c = true ->
  (forall v, Q (after M s (Entry c (OK v))) v) ->
  safe M Q T s (invoke c).
Proof. intros Ha HQ. simpl. by split. Qed.

Lemma safe_lift {A : Type} (r : result A) (Q : St -> A -> Prop) (T : St -> Prop)
    (s : St) :
  (forall a, r = OK a -> Q s a) -> T s -> safe M Q T s (lift r).
Proof. destruct r; simpl; auto. Qed.

Lemma safe_ret {A : Type} (a : A) (Q : St -> A -> Prop) (T : St -> Prop) (s : St) :
  Q s a -> safe M Q T s (mret a).
Proof. done. Qed.

(** A loop whose body brings the monitor back to the state it started in. *)
Lemma safe_for_each {A S : Type} (xs : list A) (body : S -> A -> prog S)
    (Q : St -> S -> Prop) (T : St -> Prop) (s : St) (acc : S) :
  (forall acc' v, safe M (fun s' _ => s' = s) T s (body acc' v)) ->
  (forall acc', Q s acc') ->
  safe M Q T s (for_each xs body acc).
Proof.
  intros Hbody HQ. revert acc.
  induction xs as [|v xs IH]; intros acc; simpl; [apply HQ|].
  apply safe_bind. eapply safe_mono; [|apply Hbody].
  intros s' acc' ->. apply IH.
Qed.

Lemma safe_sound {W R : Type} (lib : library W) (p : prog R)
    (Q : St -> R -> Prop) (T : St -> Prop) (s : St) (w : W) :
  safe M Q T s p ->
  accepted M s (trace (run lib p w)) = true /\
  (forall r, outcome (run lib p w) = OK r ->
     Q (final_state M s (trace (run lib p w))) r) /\
  (forall e, outcome (run lib p w) = Raise e ->
     Forall (fun en => raised en = None) (trace (run lib p w)) ->
     T (final_state M s (trace (run lib p w)))).
Proof.
  revert s w. induction p as [r|e|X c k IH]; intros s w; simpl.
  - intros HQ. split; [done|]. split; [by intros r' [= <-]|done].
  - intros HT. by repeat split.
  - intros [Ha Hk]. destruct (answer lib c w) as [[v|e] w'] eqn:E; simpl.
    + destruct (IH v _ w' (Hk v)) as (Hacc & Hok & Hraise).
      rewrite Ha, Hacc. split; [done|]. split; [done|].
      intros e He Hall. apply (Hraise e He). by inversion Hall.
    + rewrite Ha. split; [done|]. split; [done|].
      intros e' _ Hall. inversion Hall as [|? ? Hr _]. discriminate Hr.
Qed.

End Monitors.

Ltac safe_step :=
  cbv beta zeta;
  lazymatch goal with
  | |- safe ?M ?Q ?T ?s ?p =>
      let s' := eval lazy in s in
      change (safe M Q T s' p);
      lazymatch p with
      | _ ≫= _ => apply safe_bind
      | invoke _ => apply safe_invoke; [reflexivity | intros ?]
      | lift _ => apply safe_lift; [intros ? ? | first [exact I | discriminate]]
      | mret _ => apply safe_ret
      | for_each _ _ _ => apply safe_for_each; [intros ? ? | intros ?]
      | let '(_, _) := ?q in _ => destruct q
      end
  | |- _ = _ => reflexivity
  | |- _ <> _ => discriminate
  | |- True => exact I
  end.

Ltac safe_walk := autounfold with notebook; repeat safe_step.








(** ** The order of the steps *)

Lemma noiseless_section_ordered :
  safe pipeline_monitor (fun _ _ => True) (fun _ => True) pipeline_start
    noiseless_section.
Proof. safe_walk. Qed.

Lemma noisy_section_ordered (kernel : Kernel) (x : mat) :
  safe pipeline_monitor (fun _ _ => True) (fun _ => True) pipeline_start
    (noisy_section kernel x).
Proof. safe_walk. Qed.

Lemma nn_notebook_ordered :
  safe pipeline_monitor (fun _ _ => True) (fun _ => True) pipeline_start nn_notebook.
Proof. safe_walk. Qed.

(** C7 (as amended): within the noiseless case, within the noisy case and
    within the nearest-neighbours notebook, no call on an estimator
    (construction, [fit], [predict], [kneighbors]) comes after a chart has
    been built or plotted, and every [py.iplot] directly follows the
    [go.Figure] call that built its figure. *)
Theorem pipeline_order {W : Type} (lib : library W) (w : W) :
  accepted pipeline_monitor pipeline_start (trace (run lib noiseless_section w)) = true /\
  (forall kernel x,
     accepted pipeline_monitor pipeline_start
       (trace (run lib (noisy_section kernel x) w)) = true) /\
  accepted pipeline_monitor pipeline_start (trace (run lib nn_notebook w)) = true.
Proof.
  split; [|split].
  - apply (safe_sound pipeline_monitor lib _ _ _ _ w noiseless_section_ordered).
  - intros kernel x.
    apply (safe_sound pipeline_monitor lib _ _ _ _ w (noisy_section_ordered kernel x)).
  - apply (safe_sound pipeline_monitor lib _ _ _ _ w nn_notebook_ordered).
Qed.

(** C7 fails as stated: in the Gaussian Process notebook the sixteenth
    call is [py.iplot] and the noisy case then calls [fit] and [predict]. *)
Lemma gp_fits_after_plotting :
  option_map is_iplot (nth_error (trace (run (demo_library 0.5) gp_notebook 0%nat)) 15)
    = Some true /\
  option_map is_fit (nth_error (trace (run (demo_library 0.5) gp_notebook 0%nat)) 20)
    = Some true /\
  option_map is_query (nth_error (trace (run (demo_library 0.5) gp_notebook 0%nat)) 21)
    = Some true /\
  accepted pipeline_monitor pipeline_start
    (trace (run (demo_library 0.5) gp_notebook 0%nat)) = false.
Proof. vm_compute. repeat split; reflexivity. Qed.

(** ** Parameters *)

Ltac pick :=
  first
    [ exact I | reflexivity | discriminate
    | split; pick
    | left; pick
    | right; pick ].






(** ** The benchmark loop *)

Lemma for_each_split {W A S : Type} (lib : library W) (body : S -> A -> prog S)
    (xs ys : list A) (acc : S) (w : W) (m : S) :
  outcome (run lib (for_each (xs ++ ys) body acc) w) = OK m ->
  exists mk,
    outcome (run lib (for_each xs body acc) w) = OK mk /\
    outcome (run lib (for_each ys body mk) (world (run lib (for_each xs body acc) w)))
      = OK m.
Proof.
  revert acc w. induction xs as [|v xs IH]; intros acc w; simpl.
  - intros H. by exists acc.
  - rewrite !run_bind.
    destruct (outcome (run lib (body acc v) w)) as [a|e]; simpl; [|done].
    apply IH.
Qed.

Lemma extended_by_refl (m : metrics) : extended_by 0 m m.
Proof.
  apply Forall_forall. intros field _. exists []. by rewrite app_nil_r.
Qed.

Lemma extended_by_trans (a b : nat) (m1 m2 m3 : metrics) :
  extended_by a m1 m2 -> extended_by b m2 m3 -> extended_by (a + b) m1 m3.
Proof.
  unfold extended_by. rewrite !Forall_forall. intros H12 H23 field Hin.
  destruct (H12 field Hin) as (more1 & E1 & L1).
  destruct (H23 field Hin) as (more2 & E2 & L2).
  exists (more1 ++ more2). rewrite E2, E1, <- app_assoc, length_app. by subst.
Qed.

Lemma benchmark_step_appends (queries index_data : mat) (m : metrics) (n_samples : Z) :
  wp any_answer (fun _ _ => True) (benchmark_step queries index_data m n_samples)
     (extended_by 1 m).
Proof.
  autounfold with notebook. repeat wp_step.
  repeat constructor; by eexists.
Qed.

Lemma benchmark_loop_appends (queries index_data : mat) (xs : list Z) (m : metrics) :
  wp any_answer (fun _ _ => True)
     (for_each xs (benchmark_step queries index_data) m)
     (extended_by (length xs) m).
Proof.
  revert m. induction xs as [|n xs IH]; intros m; cbn [for_each length].
  - apply extended_by_refl.
  - apply wp_bind. eapply wp_mono; [|apply benchmark_step_appends].
    intros m1 H1. eapply wp_mono; [|apply IH].
    intros m2 H2. apply (extended_by_trans 1 (length xs) m m1 m2 H1 H2).
Qed.

Lemma loop_result_extended {W : Type} (lib : library W) (queries index_data : mat)
    (xs : list Z) (m0 m : metrics) (w : W) :
  outcome (run lib (for_each xs (benchmark_step queries index_data) m0) w) = OK m ->
  extended_by (length xs) m0 m.
Proof.
  intros Ho.
  destruct (wp_sound lib any_answer (fun _ _ => True) _ _ w (honours_any lib)
              (benchmark_loop_appends queries index_data xs m0)) as [_ HQ].
  by apply HQ.
Qed.

Lemma nn_calculations_lengths :
  wp any_answer (fun _ _ => True) nn_calculations
     (fun m => Forall (fun field : metrics -> list num =>
                         length (field m) = length n_samples_values) metric_fields).
Proof.
  unfold nn_calculations, generate_data. repeat wp_step.
  unfold benchmark. eapply wp_mono; [|apply benchmark_loop_appends].
  intros res Hres. unfold extended_by in Hres. rewrite Forall_forall in Hres.
  apply Forall_forall. intros field Hin.
  destruct (Hres field Hin) as (more & E & L). rewrite E.
  assert (field no_metrics = []) as ->.
  { apply list_elem_of_In in Hin. simpl in Hin.
    repeat (destruct Hin as [<-|Hin]; [reflexivity|]). destruct Hin. }
  done.
Qed.

(** C9: the index sizes are six strictly increasing integers from 1000 to
    100000; when the benchmark loop has run to its end, each of the seven
    metric lists holds one entry per index size, and the loop over the
    first [k] index sizes leaves exactly the first [k] entries of each
    list. *)
Theorem benchmark_metrics {W : Type} (lib : library W) (w : W) :
  (length n_samples_values = n_steps /\ n_steps = 6%nat /\
   StronglySorted Z.lt n_samples_values /\
   head n_samples_values = Some 1000%Z /\
   last n_samples_values = Some 100000%Z) /\
  (forall m, outcome (run lib nn_calculations w) = OK m ->
     Forall (fun field : metrics -> list num =>
               length (field m) = length n_samples_values) metric_fields) /\
  (forall queries index_data m,
     outcome (run lib (benchmark queries index_data) w) = OK m ->
     forall k, (k <= n_steps)%nat ->
     exists mk,
       outcome (run lib (for_each (firstn k n_samples_values)
                           (benchmark_step queries index_data) no_metrics) w) = OK mk /\
       Forall (fun field : metrics -> list num => field mk = firstn k (field m))
              metric_fields).
Proof.
  split; [|split].
  - rewrite n_samples_values_recorded.
    repeat split; repeat constructor.
  - intros m Ho.
    destruct (wp_sound lib any_answer (fun _ _ => True) _ _ w (honours_any lib)
                nn_calculations_lengths) as [_ HQ].
    by apply HQ.
  - intros queries index_data m Ho k Hk. unfold benchmark in Ho.
    rewrite <- (firstn_skipn k n_samples_values) in Ho.
    destruct (for_each_split lib _ _ _ _ _ _ Ho) as (mk & Hk1 & Hk2).
    exists mk. split; [done|].
    pose proof (loop_result_extended lib _ _ _ _ _ _ Hk1) as E1.
    pose proof (loop_result_extended lib _ _ _ _ _ _ Hk2) as E2.
    unfold extended_by in E1, E2. rewrite Forall_forall in E1, E2.
    apply Forall_forall. intros field Hin.
    destruct (E1 field Hin) as (more1 & F1 & L1).
    destruct (E2 field Hin) as (more2 & F2 & L2).
    assert (field no_metrics = []) as Hnil.
    { apply list_elem_of_In in Hin. simpl in Hin.
      repeat (destruct Hin as [<-|Hin]; [reflexivity|]). destruct Hin. }
    rewrite Hnil in F1. simpl in F1.
    rewrite length_firstn, n_samples_values_recorded in L1.
    unfold n_steps in Hk. simpl in L1.
    rewrite F2, firstn_app, F1.
    replace (k - length more1)%nat with 0%nat by lia.
    rewrite firstn_all2 by lia. simpl. by rewrite app_nil_r.
Qed.

Lemma benchmark_metrics_witness :
  Forall (fun field : metrics -> list num =>
            length (field demo_metrics) = length n_samples_values) metric_fields /\
  exists mk,
    outcome (run (demo_library 0.5)
               (for_each (firstn 2 n_samples_values)
                  (benchmark_step (repeat [0] 100) [[0]]) no_metrics) 0%nat) = OK mk /\
    Forall (fun field : metrics -> list num =>
              field mk = firstn 2 (field demo_small_metrics)) metric_fields.
Proof.
  destruct (benchmark_metrics (demo_library 0.5) 0%nat) as (_ & Hlen & Hprefix).
  split.
  - apply (Hlen demo_metrics). vm_compute. reflexivity.
  - apply (Hprefix (repeat [0] 100) [[0]] demo_small_metrics).
    + vm_compute. reflexivity.
    + unfold n_steps. lia.
Defined.

Example demo_metrics_lengths :
  map (fun field : metrics -> list num => length (field demo_metrics)) metric_fields
  = [6; 6; 6; 6; 6; 6; 6]%nat.
Proof. reflexivity. Qed.

(** ** How the code is written *)

(** C3 (as amended): the code has no branch, no [while] loop and no
    exception handler, but it is not free of control flow and state: it
    has three [for] loops (one in [data_to_plotly], two nested in the
    benchmark), defines two helper functions, appends to Python lists in
    eleven statements and updates [y] in place. *)
Theorem authored_control_flow :
  Ast.count_all Ast.is_if Ast.repository_code = 0%nat /\
  Ast.count_all Ast.is_while Ast.repository_code = 0%nat /\
  Ast.count_all Ast.is_try Ast.repository_code = 0%nat /\
  Ast.count_all Ast.is_for (Ast.code Ast.gp_cells) = 1%nat /\
  Ast.count_all Ast.is_for (Ast.code Ast.nn_cells) = 2%nat /\
  Ast.count_all Ast.is_def (Ast.code Ast.gp_cells) = 2%nat /\
  Ast.count_all Ast.is_def (Ast.code Ast.nn_cells) = 0%nat /\
  Ast.count_all Ast.is_append (Ast.code Ast.gp_cells) = 1%nat /\
  Ast.count_all Ast.is_append (Ast.code Ast.nn_cells) = 10%nat /\
  Ast.count_all Ast.is_aug_assign Ast.repository_code = 1%nat.
Proof. vm_compute. repeat split; reflexivity. Qed.

(** C3 fails as stated: the code has loops, and lists that grow between
    the calls. *)
Lemma code_has_loops_and_state :
  Ast.straight_line Ast.repository_code = false /\
  Ast.stateless Ast.repository_code = false.
Proof. vm_compute. split; reflexivity. Qed.

(** ** Arrays in memory *)

Section Frame.
Context (sine : num -> num) (h0 : gmap nat (list num)).
Implicit Types (x : Store.ndarray).
















End Frame.







(** What the two helpers leave in the store, on a live array laid out row
    after row: [f] a new buffer holding [x * sin(x)], [data_to_plotly] a
    new list holding the first entry of every row. *)
Lemma store_f_returns (sine : num -> num) (x : Store.ndarray)
    (h : gmap nat (list num)) (contents : list num) :
  h !! Store.buf x = Some contents ->
  exists r, fst (Store.f sine x h) = OK r /\
    snd (Store.f sine x h) !! Store.buf r
      = Some (zip_with Qmult contents (map sine contents)) /\
    Store.nrows r = Store.nrows x /\ Store.ncols r = Store.ncols x.
Proof.
  intros Hc.
  assert (fresh (dom h) <> Store.buf x) as Hne.
  { intros Heq. apply (is_fresh (dom h)). rewrite Heq. apply elem_of_dom. eauto. }
  unfold Store.f, Store.np_sin, Store.multiply, Store.read, Store.alloc,
    mbind, Store.M_bind, mret, Store.M_ret.
  rewrite Hc. simpl. rewrite lookup_insert_ne by done. rewrite Hc. simpl.
  rewrite lookup_insert_eq. simpl.
  eexists. split; [reflexivity|]. split; [|done].
  apply lookup_insert_eq.
Qed.

Example store_helpers_demo :
  fst (Store.data_to_plotly {| Store.buf := 0; Store.nrows := 3; Store.ncols := 2 |}
         {[ 0%nat := [1; 2; 3; 4; 5; 6] ]}) = OK 1%nat /\
  snd (Store.data_to_plotly {| Store.buf := 0; Store.nrows := 3; Store.ncols := 2 |}
         {[ 0%nat := [1; 2; 3; 4; 5; 6] ]}) !! 1%nat = Some [1; 3; 5] /\
  data_to_plotly [[1; 2]; [3; 4]; [5; 6]] = OK [1; 3; 5].
Proof. vm_compute. repeat split; reflexivity. Qed.

(** The two embeddings agree on the calls: each place of the code that
    calls an estimator, the clock or plotly is run once, or once per turn
    of the loops around it (six index sizes, five queries each). *)
Example call_sites_and_calls :
  map (fun name => Ast.call_sites name (Ast.code Ast.gp_cells))
      ["fit"; "predict"; "Scatter"; "iplot"; "time"]
    = [2; 2; 8; 2; 0]%nat /\
  map (fun p => calls p (trace (run (demo_library 0.5) gp_notebook 0%nat)))
      [is_fit; is_query; is_scatter; is_iplot; is_time]
    = [2; 2; 8; 2; 0]%nat /\
  map (fun name => Ast.call_sites name (Ast.code Ast.nn_cells))
      ["fit"; "kneighbors"; "Scatter"; "iplot"; "time"]
    = [2; 2; 4; 3; 4]%nat /\
  map (fun p => calls p (trace (run (demo_library 0.5) nn_notebook 0%nat)))
      [is_fit; is_query; is_scatter; is_iplot; is_time]
    = [2 * 6; 2 * 5 * 6; 4; 3; 4 * 5 * 6]%nat.
Proof. vm_compute. repeat split; reflexivity. Qed.

(** * Further properties of the helper functions *)

Lemma first_column_app {A : Type} (a b : list (list A)) :
  first_column (a ++ b) =
  ka ← first_column a; kb ← first_column b; OK (ka ++ kb).
Proof.
  induction a as [|row a IH]; simpl.
  - by destruct (first_column b).
  - destruct row as [|v row]; [done|]. rewrite IH.
    destruct (first_column a) as [ka|e]; simpl; [|done].
    by destruct (first_column b).
Qed.

Lemma first_column_raises {A : Type} (x : list (list A)) (e : exn) :
  first_column x = Raise e -> e = IndexError.
Proof.
  induction x as [|row x IH]; simpl; [done|].
  destruct row as [|v row]; [by intros [= <-]|].
  destruct (first_column x) as [k|e']; [done|]. intros [= <-]. by apply IH.
Qed.

Lemma first_column_singletons (x : mat) :
  Forall (fun r : list num => length r = 1%nat) x -> first_column x = OK (ravel x).
Proof.
  unfold ravel. induction 1 as [|row x Hrow _ IH]; simpl; [done|].
  destruct row as [|v [|? ?]]; try discriminate Hrow. by rewrite IH.
Qed.

(** X1: on an array whose rows hold one entry each, [data_to_plotly]
    returns what [ravel] returns; so it undoes [np.atleast_2d(v).T]. *)
Theorem data_to_plotly_of_column (x : mat) :
  Forall (fun r : list num => length r = 1%nat) x ->
  data_to_plotly x = OK (ravel x) /\
  forall v : vec, x = transpose (atleast_2d v) -> data_to_plotly x = OK v.
Proof.
  intros Hx. rewrite data_to_plotly_first_column.
  split; [by apply first_column_singletons|].
  intros v ->. unfold atleast_2d. simpl. apply first_column_of_column.
Qed.

Lemma data_to_plotly_of_column_witness :
  data_to_plotly (transpose (atleast_2d [1; 3; 5])) = OK (ravel [[1]; [3]; [5]]) /\
  forall v : vec, transpose (atleast_2d [1; 3; 5]) = transpose (atleast_2d v) ->
                  data_to_plotly (transpose (atleast_2d [1; 3; 5])) = OK v.
Proof.
  apply (data_to_plotly_of_column (transpose (atleast_2d [1; 3; 5]))).
  simpl. repeat constructor.
Defined.

(** X2: [data_to_plotly] of a concatenation is the concatenation of the
    two results, and raises as soon as one of the parts does. *)
Theorem data_to_plotly_concatenate {A : Type} (a b : list (list A)) :
  data_to_plotly (concatenate [a; b]) =
  ka ← data_to_plotly a; kb ← data_to_plotly b; OK (ka ++ kb).
Proof.
  rewrite !data_to_plotly_first_column. unfold concatenate. simpl.
  by rewrite app_nil_r, first_column_app.
Qed.

(** X3: [data_to_plotly] of the rows in reverse order, [x[::-1]], is the
    reverse of [data_to_plotly(x)], and raises exactly when that raises. *)
Theorem data_to_plotly_reversed {A : Type} (x : list (list A)) :
  data_to_plotly (rev x) = k ← data_to_plotly x; OK (rev k).
Proof.
  rewrite !data_to_plotly_first_column.
  induction x as [|row x IH]; simpl; [done|].
  rewrite first_column_app, IH. destruct row as [|v row]; simpl.
  - destruct (first_column x) as [k|e] eqn:E; simpl; [done|].
    by rewrite (first_column_raises x e E).
  - destruct (first_column x) as [k|e]; simpl; [|done]. done.
Qed.

(** ** Executions in which only the libraries raise *)

Section Sure.
Context (K : contract) (P : call_pred).

Lemma sure_mono {R : Type} (p : prog R) (Q Q' : R -> Prop) :
  (forall r, Q r -> Q' r) -> sure K P p Q -> sure K P p Q'.
Proof.
  intros HQ. induction p as [r|e|X c k IH]; simpl; [auto|auto|].
  intros [HP Hk]. split; [done|]. intros v Hv. apply IH, Hk, Hv.
Qed.

Lemma sure_bind {A B : Type} (m : prog A) (k : A -> prog B) (Q : B -> Prop) :
  sure K P m (fun a => sure K P (k a) Q) -> sure K P (m ≫= k) Q.
Proof.
  unfold mbind, prog_mbind.
  induction m as [a|e|X c k' IH]; simpl; [done|done|].
  intros [HP Hk]. split; [done|]. intros v Hv. apply IH, Hk, Hv.
Qed.

Lemma sure_invoke {X : Type} (c : call X) (Q : X -> Prop) :
  P X c -> (forall v, K X c v -> Q v) -> sure K P (invoke c) Q.
Proof. intros HP HQ. simpl. by split. Qed.

Lemma sure_lift {A : Type} (r : result A) (a : A) (Q : A -> Prop) :
  r = OK a -> Q a -> sure K P (lift r) Q.
Proof. by intros -> HQ. Qed.

Lemma sure_ret {A : Type} (a : A) (Q : A -> Prop) : Q a -> sure K P (mret a) Q.
Proof. done. Qed.

(** A loop whose [i]-th turn takes [Inv i] to [Inv (S i)]. *)
Lemma sure_for_each {A St : Type} (xs : list A) (body : St -> A -> prog St)
    (Inv : nat -> St -> Prop) (good : A -> Prop) (i : nat) (acc : St) :
  Forall good xs -> Inv i acc ->
  (forall j acc' v, good v -> Inv j acc' -> sure K P (body acc' v) (Inv (S j))) ->
  sure K P (for_each xs body acc) (Inv (i + length xs)%nat).
Proof.
  intros Hxs Hacc Hbody. revert i acc Hacc.
  induction Hxs as [|v xs Hv _ IH]; intros i acc Hacc; simpl.
  - by rewrite Nat.add_0_r.
  - apply sure_bind. eapply sure_mono; [|by apply Hbody].
    intros acc' H'. replace (i + S (length xs))%nat with (S i + length xs)%nat by lia.
    by apply IH.
Qed.

End Sure.

Lemma sure_sound {W R : Type} (lib : library W) (K : contract) (P : call_pred)
    (p : prog R) (Q : R -> Prop) (w : W) :
  honours lib K -> sure K P p Q ->
  Forall (entry_sat P) (trace (run lib p w)) /\
  (forall r, outcome (run lib p w) = OK r -> Q r) /\
  raised_by_last_call (run lib p w).
Proof.
  intros Hlib. unfold raised_by_last_call. revert w.
  induction p as [r|e|X c k IH]; intros w; simpl.
  - intros HQ. split; [constructor|]. split; [by intros r' [= <-]|done].
  - done.
  - intros [HP Hk]. destruct (answer lib c w) as [[v|e] w'] eqn:Ha; simpl.
    + destruct (IH v w' (Hk v (Hlib _ _ _ _ _ Ha))) as (Ht & Hq & Hr).
      split; [by constructor|]. split; [done|].
      intros e He. destruct (Hr e He) as (t & X' & c' & Ht').
      exists (Entry c (OK v) :: t), X', c'. by rewrite Ht'.
    + split; [by repeat constructor|]. split; [done|].
      intros e' [= <-]. by exists [], X, c.
Qed.

(** ** Shapes *)

Lemma column_transpose (v : vec) : column (length v) (transpose (atleast_2d v)).
Proof.
  unfold column, atleast_2d. simpl. split; [by rewrite length_map|].
  apply Forall_forall. intros r Hr. apply list_elem_of_In, in_map_iff in Hr.
  by destruct Hr as (a & <- & _).
Qed.

Lemma column_same_shape (n : nat) (a b : mat) :
  column n a -> same_shape a b -> column n b.
Proof.
  intros [Hlen Hrows] Hs. split.
  - rewrite <- Hlen. symmetry. by eapply Forall2_length.
  - clear Hlen. induction Hs as [|r r' a b Hr _ IH]; [constructor|].
    inversion Hrows as [|? ? H1 Hrest]; subst.
    constructor; [congruence|by apply IH].
Qed.

Lemma vec_op_equal_lengths (op : num -> num -> num) (a b : vec) :
  length a = length b -> vec_op op a b = OK (zip_with op a b).
Proof.
  intros Hlen. unfold vec_op, broadcast.
  by rewrite (proj2 (Nat.eqb_eq _ _) Hlen), zip_result_zip_with.
Qed.

Lemma vec_iadd_equal_lengths (a b : vec) :
  length a = length b -> vec_iadd a b = OK (zip_with Qplus a b).
Proof.
  intros Hlen. unfold vec_iadd.
  rewrite (proj2 (Nat.eqb_eq _ _) Hlen). by apply vec_op_equal_lengths.
Qed.

Lemma zip_rows_same_shape (op : num -> num -> num) (a b : mat) :
  same_shape a b ->
  zip_result (vec_op op) a b = OK (zip_with (zip_with op) a b).
Proof.
  induction 1 as [|r r' a b Hr _ IH]; simpl; [done|].
  by rewrite (vec_op_equal_lengths op r r' Hr), IH.
Qed.

Lemma mat_op_same_shape (op : num -> num -> num) (a b : mat) :
  same_shape a b -> mat_op op a b = OK (zip_with (zip_with op) a b).
Proof.
  intros Hs. unfold mat_op, broadcast.
  pose proof (Forall2_length _ _ _ Hs) as Hlen. unfold mat, vec, num in *.
  rewrite (proj2 (Nat.eqb_eq _ _) Hlen).
  by apply zip_rows_same_shape.
Qed.

Lemma same_shape_zip_with (op : num -> num -> num) (a b : mat) :
  same_shape a b -> same_shape a (zip_with (zip_with op) a b).
Proof.
  induction 1 as [|r r' a b Hr _ IH]; simpl; constructor; [|done].
  rewrite length_zip_with. lia.
Qed.

Lemma column_ravel (n : nat) (m : mat) : column n m -> length (ravel m) = n.
Proof.
  intros [<- Hrows]. unfold ravel.
  induction Hrows as [|r m Hr _ IH]; simpl; [done|].
  rewrite length_app, Hr, IH. done.
Qed.

Lemma data_to_plotly_column (n : nat) (m : mat) :
  column n m -> data_to_plotly m = OK (ravel m).
Proof.
  intros [_ Hrows]. rewrite data_to_plotly_first_column.
  by apply first_column_singletons.
Qed.

Lemma column_app (n k : nat) (a b : mat) :
  column n a -> column k b -> column (n + k) (a ++ b).
Proof.
  intros [<- Ha] [<- Hb]. split; [by rewrite length_app|]. by apply Forall_app.
Qed.

Lemma column_rev (n : nat) (a : mat) : column n a -> column n (rev a).
Proof.
  intros [<- Ha]. split; [by rewrite length_rev|].
  apply Forall_forall. intros r Hr. rewrite Forall_forall in Ha. apply Ha.
  apply list_elem_of_In. apply list_elem_of_In, in_rev in Hr. done.
Qed.

Ltac sure_call :=
  cbv beta;
  lazymatch goal with
  | |- sure _ _ (_ ≫= _) _ => apply sure_bind
  | |- sure _ _ (invoke _) _ => apply sure_invoke; [exact I|intros ? _]
  | |- sure _ _ (mret _) _ => apply sure_ret
  end.

Ltac sure_calls := repeat sure_call.

Lemma sure_f_shape (x : mat) :
  sure sine_contract (fun _ _ => True) (f x) (same_shape x).
Proof.
  unfold f. apply sure_bind, sure_invoke; [exact I|].
  intros s Hs. change (same_shape x s) in Hs.
  eapply sure_lift; [by apply mat_op_same_shape|]. by apply same_shape_zip_with.
Qed.

(** ** The Gaussian Process notebook raises only where a library does *)

Section GP.

Lemma sure_f (n : nat) (x : mat) :
  column n x -> sure gp_contract gp_arguments (f x) (column n).
Proof.
  intros Hx. unfold f. apply sure_bind, sure_invoke; [exact I|].
  intros s Hs. change (same_shape x s) in Hs.
  eapply sure_lift; [by apply mat_op_same_shape|].
  eapply column_same_shape; [exact Hx|by apply same_shape_zip_with].
Qed.

Lemma sure_Scatter (s : Scatter) :
  paired_trace s -> sure gp_contract gp_arguments (Scatter_ s) (fun _ => True).
Proof. intros Hs. unfold Scatter_. apply sure_bind, sure_invoke; [exact Hs|done]. Qed.

Lemma sure_true_function (n : nat) (x : mat) :
  column n x -> sure gp_contract gp_arguments (true_function x) (fun _ => True).
Proof.
  intros Hx. unfold true_function.
  apply sure_bind. eapply sure_lift; [by eapply data_to_plotly_column|].
  apply sure_bind. eapply sure_mono; [|by apply sure_f]. intros fx Hfx.
  apply sure_bind. eapply sure_lift; [by eapply data_to_plotly_column|].
  apply sure_Scatter. split; [|done]. right. cbn [sc_x sc_y].
  by rewrite (column_ravel n x), (column_ravel n fx).
Qed.

Lemma sure_prediction (n : nat) (x : mat) (y_pred : vec) :
  column n x -> length y_pred = n -> sure gp_contract gp_arguments (prediction x y_pred) (fun _ => True).
Proof.
  intros Hx Hy. unfold prediction.
  apply sure_bind. eapply sure_lift; [by eapply data_to_plotly_column|].
  apply sure_Scatter. split; [|done]. right. cbn [sc_x sc_y].
  by rewrite (column_ravel n x).
Qed.

Lemma sure_confidence_band (n : nat) (x : mat) (y_pred sigma : vec) :
  column n x -> length y_pred = n -> length sigma = n ->
  sure gp_contract gp_arguments (confidence_band x y_pred sigma) (fun _ => True).
Proof.
  intros Hx Hy Hs. unfold confidence_band.
  apply sure_bind. eapply sure_lift.
  { eapply data_to_plotly_column. unfold concatenate. simpl. rewrite app_nil_r.
    apply column_app; [exact Hx|apply column_rev, Hx]. }
  apply sure_bind. eapply sure_lift.
  { apply vec_op_equal_lengths. rewrite length_map.
    exact (eq_trans Hy (eq_sym Hs)). }
  apply sure_Scatter. split; [by left|done].
Qed.

Lemma sure_figure_of (p1 p2 p3 p4 : Scatter) :
  sure gp_contract gp_arguments (figure_of p1 p2 p3 p4) (fun _ => True).
Proof.
  unfold figure_of, Layout_, Figure_.
  sure_calls. exact I.
Qed.

Lemma sure_plot_noiseless (n k : nat) (X : mat) (y : vec) (x : mat) (y_pred sigma : vec) :
  column n X -> length y = n -> column k x ->
  length y_pred = k -> length sigma = k ->
  sure gp_contract gp_arguments (plot_noiseless X y x y_pred sigma) (fun _ => True).
Proof.
  intros HX Hy Hx Hp Hs. unfold plot_noiseless.
  apply sure_bind. eapply sure_mono; [|by eapply sure_true_function]. intros p1 _.
  apply sure_bind. eapply sure_lift; [by eapply data_to_plotly_column|].
  apply sure_bind. eapply sure_mono; [|apply sure_Scatter]; [intros p2 _|].
  2:{ split; [|done]. right. cbn [sc_x sc_y]. by rewrite (column_ravel n X). }
  apply sure_bind. eapply sure_mono; [|by eapply sure_prediction]. intros p3 _.
  apply sure_bind. eapply sure_mono; [|by eapply sure_confidence_band]. intros p4 _.
  apply sure_figure_of.
Qed.

Lemma sure_plot_noisy (n k : nat) (X : mat) (y dy : vec) (x : mat) (y_pred sigma : vec) :
  column n X -> length y = n -> length dy = n -> column k x ->
  length y_pred = k -> length sigma = k ->
  sure gp_contract gp_arguments (plot_noisy X y dy x y_pred sigma) (fun _ => True).
Proof.
  intros HX Hy Hdy Hx Hp Hs. unfold plot_noisy.
  apply sure_bind. eapply sure_mono; [|by eapply sure_true_function]. intros p1 _.
  apply sure_bind. eapply sure_mono; [|apply sure_Scatter]; [intros p2 _|].
  2:{ split.
      - right. cbn [sc_x sc_y]. by rewrite (column_ravel n X).
      - cbn [error_y sc_y]. intros e [= <-]. congruence. }
  apply sure_bind. eapply sure_mono; [|by eapply sure_prediction]. intros p3 _.
  apply sure_bind. eapply sure_mono; [|by eapply sure_confidence_band]. intros p4 _.
  apply sure_figure_of.
Qed.

End GP.

Section GP_cells.

Lemma sure_noiseless_case : sure gp_contract gp_arguments noiseless_case noiseless_shapes.
Proof.
  pose proof (column_transpose [1; 3; 5; 6; 7; 8]) as HX.
  pose proof (column_transpose (linspace 0 10 1000)) as Hx.
  rewrite length_linspace in Hx. change (length _) with 6%nat in HX.
  unfold noiseless_case. cbv zeta.
  generalize dependent (transpose (atleast_2d (linspace 0 10 1000))).
  generalize dependent (transpose (atleast_2d [1; 3; 5; 6; 7; 8])).
  intros X HX x Hx.
  apply sure_bind. eapply sure_mono; [|by apply (sure_f 6)]. intros fX HfX.
  unfold C, RBF, kernel_mul, GaussianProcessRegressor. sure_calls.
  apply sure_invoke.
  { split; [by rewrite (column_ravel 6 fX), (proj1 HX)|]. by intros a [=]. }
  intros _ _. apply sure_bind, sure_invoke; [exact Hx|].
  intros [y_pred sigma] [Hp Hs]. cbn [fst snd] in Hp, Hs.
  rewrite (proj1 Hx) in Hp, Hs. apply sure_ret.
  split; [done|]. split; [by apply column_ravel|]. done.
Qed.

Lemma noise_scale_of_draws (r : vec) :
  Forall (fun q : num => 0 <= q /\ q < 1) r ->
  noise_scale (map (fun v => 0.5 + 1.0 * v) r).
Proof.
  intros Hr. apply Forall_fmap. eapply Forall_impl; [exact Hr|].
  intros v [H0 H1]. simpl. split; lra.
Qed.

Lemma squares_nonneg (r : vec) : Forall (Qle 0) (map (fun v => v ^ 2) r).
Proof. apply Forall_fmap, Forall_forall. intros v _. apply Qsqr_nonneg. Qed.

Lemma sure_noisy_case (kernel : Kernel) (x : mat) :
  column 1000 x -> sure gp_contract gp_arguments (noisy_case kernel x) noisy_shapes.
Proof.
  intros Hx.
  pose proof (column_transpose (linspace 0.1 9.9 20)) as HX.
  rewrite length_linspace in HX.
  unfold noisy_case. cbv zeta.
  generalize dependent (transpose (atleast_2d (linspace 0.1 9.9 20))).
  intros X HX.
  apply sure_bind. eapply sure_mono; [|by apply (sure_f 20)]. intros fX HfX.
  pose proof (column_ravel 20 fX HfX) as Hy. revert Hy.
  generalize (ravel fX). intros y Hy.
  apply sure_bind, sure_invoke; [exact I|]. intros r [Hr Hu].
  cbv beta. set (dy := @map Q Q (fun v : Q => 0.5 + 1.0 * v) r).
  assert (noise_scale dy) as Hscale by apply noise_scale_of_draws, Hu.
  assert (length dy = 20%nat) as Hdy.
  { unfold dy. rewrite length_map. exact (eq_trans Hr Hy). }
  clearbody dy.
  apply sure_bind, sure_invoke; [exact Hscale|]. intros noise Hnoise.
  change (length noise = length dy) in Hnoise.
  apply sure_bind. eapply sure_lift.
  { apply vec_iadd_equal_lengths. exact (eq_trans Hy (eq_sym (eq_trans Hnoise Hdy))). }
  assert (length (zip_with Qplus y noise) = 20%nat) as Hy'.
  { rewrite length_zip_with. unfold vec, num in *. lia. }
  revert Hy'. generalize (zip_with Qplus y noise). intros y' Hy'.
  apply sure_bind. eapply sure_lift.
  { apply vec_op_equal_lengths. exact (eq_trans Hdy (eq_sym Hy')). }
  unfold GaussianProcessRegressor. sure_calls.
  apply sure_invoke.
  { split; [exact (eq_trans (proj1 HX) (eq_sym Hy'))|].
    intros a [= <-]. split; [|apply squares_nonneg].
    rewrite length_map, length_zip_with, (proj1 HX). unfold vec, num in *. lia. }
  intros _ _. apply sure_bind, sure_invoke; [exact Hx|].
  intros [y_pred sigma] [Hp Hs]. cbn [fst snd] in Hp, Hs.
  rewrite (proj1 Hx) in Hp, Hs. apply sure_ret. done.
Qed.

Lemma sure_publish_cell (args : list string) :
  sure gp_contract gp_arguments (publish_cell args) (fun _ => True).
Proof. unfold publish_cell. sure_calls. exact I. Qed.

Lemma sure_noiseless_section :
  sure gp_contract gp_arguments noiseless_section (fun r => column 1000 (snd r)).
Proof.
  unfold noiseless_section. apply sure_bind.
  eapply sure_mono; [|apply sure_noiseless_case].
  intros [[[[[X y] x] kernel] y_pred] sigma] (HX & Hy & Hx & Hp & Hs).
  apply sure_bind. eapply sure_mono; [|by eapply sure_plot_noiseless].
  intros fig _. sure_calls. exact Hx.
Qed.

Lemma sure_noisy_section (kernel : Kernel) (x : mat) :
  column 1000 x -> sure gp_contract gp_arguments (noisy_section kernel x) (fun _ => True).
Proof.
  intros Hx. unfold noisy_section. apply sure_bind.
  eapply sure_mono; [|by apply sure_noisy_case].
  intros [[[[X y] dy] y_pred] sigma] (HX & Hy & Hdy & Hp & Hs).
  apply sure_bind. eapply sure_mono; [|by eapply sure_plot_noisy].
  intros fig _. apply sure_invoke; [exact I|done].
Qed.

Lemma sure_gp_notebook : sure gp_contract gp_arguments gp_notebook (fun _ => True).
Proof.
  unfold gp_notebook. apply sure_bind, sure_invoke; [exact I|]. intros _ _.
  apply sure_bind. eapply sure_mono; [|apply sure_noiseless_section].
  intros [kernel x] Hx. apply sure_bind.
  eapply sure_mono; [|by apply sure_noisy_section].
  intros _ _. apply sure_publish_cell.
Qed.

End GP_cells.

Lemma demo_library_gp_contract (u : num) :
  0 <= u -> u < 1 -> honours (demo_library u) gp_contract.
Proof.
  intros H0 H1 X c w w' v. destruct c; try done; simpl; intros [= <-].
  - unfold same_shape. induction a as [|r a IH]; constructor; [|done].
    by rewrite length_map.
  - split; [by rewrite repeat_length|]. apply Forall_forall.
    intros q Hq. apply list_elem_of_In, repeat_spec in Hq. by subst q.
  - by rewrite length_map.
  - simpl. by rewrite !repeat_length.
Qed.

Lemma demo_library_sine_contract (u : num) : honours (demo_library u) sine_contract.
Proof.
  intros X c w w' v. destruct c; try done; simpl; intros [= <-].
  unfold same_shape. induction a as [|r a IH]; constructor; [|done].
  by rewrite length_map.
Qed.

(** X4: when [np.sin] answers with an array of the shape of its argument,
    [f(x)] returns an array of the shape of [x], and it raises only if
    [np.sin] itself raised. *)
Theorem f_keeps_shape {W : Type} (lib : library W) (w : W) (x : mat) :
  honours lib sine_contract ->
  (forall r, outcome (run lib (f x) w) = OK r -> same_shape x r) /\
  raised_by_last_call (run lib (f x) w).
Proof.
  intros Hlib.
  by destruct (sure_sound lib _ _ _ _ w Hlib (sure_f_shape x)) as (_ & Hq & Hr).
Qed.

Lemma f_keeps_shape_witness :
  honours (demo_library 0.5) sine_contract /\
  (forall r, outcome (run (demo_library 0.5) (f [[1; 2]; [3; 4]]) 0%nat) = OK r ->
             same_shape [[1; 2]; [3; 4]] r).
Proof.
  split; [apply demo_library_sine_contract|].
  apply (f_keeps_shape (demo_library 0.5) 0%nat [[1; 2]; [3; 4]]).
  apply demo_library_sine_contract.
Defined.

Section GP_run.
Context {W : Type} (lib : library W) (w : W).
Hypothesis Hlib : honours lib gp_contract.

Lemma gp_notebook_arguments :
  Forall (entry_sat gp_arguments) (trace (run lib gp_notebook w)).
Proof. by destruct (sure_sound lib _ _ _ _ w Hlib sure_gp_notebook). Qed.

Lemma gp_notebook_sure : raised_by_last_call (run lib gp_notebook w).
Proof. by destruct (sure_sound lib _ _ _ _ w Hlib sure_gp_notebook) as (_ & _ & ?). Qed.

End GP_run.

(** X5: with numpy and scikit-learn answering in the documented shapes,
    no array operation of the Gaussian Process notebook raises: an
    execution that ends in an exception ends with the library call that
    raised it. *)
Theorem gp_notebook_raises_only_in_libraries {W : Type} (lib : library W) (w : W) :
  honours lib gp_contract -> raised_by_last_call (run lib gp_notebook w).
Proof. apply gp_notebook_sure. Qed.

Lemma gp_notebook_raises_only_in_libraries_witness :
  honours (demo_library 0.5) gp_contract /\
  raised_by_last_call (run (demo_library 0.5) gp_notebook 0%nat).
Proof.
  assert (honours (demo_library 0.5) gp_contract) as H
    by (apply demo_library_gp_contract; lra).
  split; [exact H|].
  exact (gp_notebook_raises_only_in_libraries (demo_library 0.5) 0%nat H).
Defined.

(** X6: every trace of the Gaussian Process notebook other than the
    confidence band is built with as many abscissae as ordinates, and the
    error bars of the noisy observations come one per point. *)
Theorem gp_traces_are_paired {W : Type} (lib : library W) (w : W) :
  honours lib gp_contract ->
  Forall (entry_sat traces_are_paired) (trace (run lib gp_notebook w)).
Proof.
  intros Hlib. eapply Forall_impl; [by apply gp_notebook_arguments|].
  intros [X c a]. by destruct c.
Qed.

Lemma gp_traces_are_paired_witness :
  honours (demo_library 0.5) gp_contract /\
  Forall (entry_sat traces_are_paired)
         (trace (run (demo_library 0.5) gp_notebook 0%nat)).
Proof.
  assert (honours (demo_library 0.5) gp_contract) as H
    by (apply demo_library_gp_contract; lra).
  split; [exact H|].
  exact (gp_traces_are_paired (demo_library 0.5) 0%nat H).
Defined.

Lemma scaled_draw_bounds (rnd : num -> num) (v : num) :
  rounding rnd -> 0 <= v -> v < 1 ->
  0.5 <= scaled_draw rnd v /\ scaled_draw rnd v <= 1.5.
Proof.
  intros (Hmono & H0 & Hhalf & H1 & Hmax) Hv0 Hv1. unfold scaled_draw.
  assert (0 <= rnd (1.0 * v)) as Hlow.
  { rewrite <- H0. apply Hmono. lra. }
  assert (rnd (1.0 * v) <= 1) as Hhigh.
  { rewrite <- H1. apply Hmono. lra. }
  split.
  - rewrite <- Hhalf at 1. apply Hmono. lra.
  - rewrite <- Hmax. apply Hmono. lra.
Qed.

Lemma halves_rounding : rounding halves.
Proof.
  split; [|by repeat split].
  intros p q Hpq. unfold halves.
  apply Qmult_le_compat_r; [|done].
  rewrite <- Zle_Qle. apply Qfloor_resp_le. lra.
Qed.

(** X7: whatever [np.random.random] draws from [0, 1), every standard
    deviation [dy] handed to [np.random.normal] lies between 0.5 and 1.5.
    The same holds when every operation is rounded, for every monotone
    rounding that is exact on 0, 0.5, 1 and 1.5; the bound 1.5 is then
    reached, as it is with a rounding to halves for the draw 0.9. *)
Theorem gp_noise_is_scaled {W : Type} (lib : library W) (w : W) :
  honours lib gp_contract ->
  Forall (entry_sat noise_is_scaled) (trace (run lib gp_notebook w)) /\
  (forall rnd v, rounding rnd -> 0 <= v -> v < 1 ->
     0.5 <= scaled_draw rnd v /\ scaled_draw rnd v <= 1.5) /\
  (rounding halves /\ scaled_draw halves 0.9 == 1.5).
Proof.
  intros Hlib. split; [|split].
  - eapply Forall_impl; [by apply gp_notebook_arguments|].
    intros [X c a]. by destruct c.
  - intros rnd v. apply scaled_draw_bounds.
  - split; [apply halves_rounding|done].
Qed.

Lemma gp_noise_is_scaled_witness :
  honours (demo_library 0.5) gp_contract /\
  Forall (entry_sat noise_is_scaled)
         (trace (run (demo_library 0.5) gp_notebook 0%nat)).
Proof.
  assert (honours (demo_library 0.5) gp_contract) as H
    by (apply demo_library_gp_contract; lra).
  split; [exact H|].
  exact (proj1 (gp_noise_is_scaled (demo_library 0.5) 0%nat H)).
Defined.

(** X8: each regressor is fitted on as many targets as training points,
    the [alpha] of the noisy case holds one non-negative value per
    training point, and [predict] is asked on the mesh of 1000 points. *)
Theorem gp_regressor_is_shaped {W : Type} (lib : library W) (w : W) :
  honours lib gp_contract ->
  Forall (entry_sat regressor_is_shaped) (trace (run lib gp_notebook w)).
Proof.
  intros Hlib. eapply Forall_impl; [by apply gp_notebook_arguments|].
  intros [X c a]. by destruct c.
Qed.

Lemma gp_regressor_is_shaped_witness :
  honours (demo_library 0.5) gp_contract /\
  Forall (entry_sat regressor_is_shaped)
         (trace (run (demo_library 0.5) gp_notebook 0%nat)).
Proof.
  assert (honours (demo_library 0.5) gp_contract) as H
    by (apply demo_library_gp_contract; lra).
  split; [exact H|].
  exact (gp_regressor_is_shaped (demo_library 0.5) 0%nat H).
Defined.

(** ** The nearest-neighbours notebook raises only where a library does *)

Lemma length_slice_to {A : Type} (a : list A) (n : Z) :
  (0 <= n)%Z -> (Z.to_nat n <= length a)%nat -> length (slice_to a n) = Z.to_nat n.
Proof.
  intros Hn Hlen. unfold slice_to, slice_bound.
  destruct (Z.ltb_spec n 0); [lia|]. rewrite length_take. lia.
Qed.

Lemma length_slice_from {A : Type} (a : list A) (n : Z) :
  (0 <= n)%Z -> length (slice_from a n) = (length a - Z.to_nat n)%nat.
Proof.
  intros Hn. unfold slice_from, slice_bound.
  destruct (Z.ltb_spec n 0); [lia|]. by rewrite length_drop.
Qed.

Lemma take_rows_one {A : Type} (a : list A) (i : Z) :
  (0 <= i < Z.of_nat (length a))%Z -> exists r, take_rows a [i] = OK [r].
Proof.
  intros Hi. unfold take_rows, getitem_int, getitem. simpl.
  destruct (Z.leb_spec 0 i); [|lia].
  destruct (nth_error a (Z.to_nat i)) as [r|] eqn:E; [by exists r|].
  apply nth_error_None in E. lia.
Qed.

Lemma n_samples_values_bounds :
  Forall (fun n => 0 <= n <= n_samples_max)%Z n_samples_values.
Proof.
  rewrite n_samples_values_recorded. unfold n_samples_max.
  repeat constructor; lia.
Qed.

Section NN.

Lemma sure_generate_data :
  sure nn_contract nn_arguments generate_data
       (fun r => length (fst r) = Z.to_nat n_queries /\
                 length (snd r) = Z.to_nat n_samples_max).
Proof.
  unfold generate_data. sure_call. sure_call.
  apply sure_bind, sure_invoke; [exact I|]. intros [all_data labels] Hall.
  change (length all_data = Z.to_nat (n_samples_max + n_queries)) in Hall.
  assert (0 <= n_queries)%Z as Hq by (unfold n_queries; lia).
  assert (0 <= n_samples_max)%Z as Hm by (unfold n_samples_max; lia).
  rewrite Z2Nat.inj_add in Hall by done.
  apply sure_ret. cbn [fst snd]. split.
  - apply length_slice_to; [done|]. rewrite Hall. lia.
  - rewrite length_slice_from by done. rewrite Hall. lia.
Qed.

Lemma sure_query_once (queries : mat) (nbrs lshf : estimator) (t : timings) (i j : nat) :
  length queries = Z.to_nat n_queries -> timed j t ->
  sure nn_contract nn_arguments (query_once queries nbrs lshf t i) (timed (S j)).
Proof.
  intros Hq (He & Ha & Hacc). unfold query_once.
  apply sure_bind, sure_invoke; [exact I|]. intros pick Hpick.
  change (0 < n_queries -> 0 <= pick < n_queries)%Z in Hpick.
  destruct (take_rows_one queries pick) as [row Hrow]; [unfold n_queries in *; lia|].
  apply sure_bind. eapply sure_lift; [exact Hrow|].
  sure_call. sure_call.
  apply sure_bind, sure_invoke; [reflexivity|]. intros exact_neighbors _.
  sure_call. sure_call. sure_call. sure_call.
  apply sure_bind, sure_invoke; [reflexivity|]. intros approx_neighbors _.
  sure_call. sure_call.
  apply sure_bind, sure_invoke; [right; by eexists _, _|]. intros hit _.
  apply sure_ret. unfold timed. cbn [time_exact time_approx accuracy].
  rewrite !length_app. simpl. unfold vec, num in *. lia.
Qed.

Lemma sure_benchmark_step (queries index_data : mat) (m : metrics) (n_samples : Z)
    (j : nat) :
  length queries = Z.to_nat n_queries ->
  length index_data = Z.to_nat n_samples_max ->
  In n_samples n_samples_values -> collected j m ->
  sure nn_contract nn_arguments (benchmark_step queries index_data m n_samples)
       (collected (S j)).
Proof.
  intros Hq Hd Hin Hm. unfold benchmark_step. cbv zeta.
  assert (index_of_size (slice_to index_data n_samples)) as HX.
  { exists n_samples. split; [done|].
    pose proof n_samples_values_bounds as Hb. rewrite Forall_forall in Hb.
    apply list_elem_of_In, Hb in Hin.
    apply length_slice_to; [lia|]. rewrite Hd. lia. }
  revert HX. generalize (slice_to index_data n_samples). intros X HX.
  unfold LSHForest, NearestNeighbors. sure_calls.
  apply sure_invoke; [exact HX|]. intros _ _. sure_calls.
  apply sure_invoke; [exact HX|]. intros _ _.
  apply sure_bind. eapply sure_mono.
  2:{ apply (sure_for_each _ _ _ _ timed (fun _ => True) 0); [by apply Forall_true| |].
      - by repeat split.
      - intros k t i _ Ht. by apply sure_query_once. }
  rewrite length_seq. intros t (He & Ha & Hacc).
  apply sure_bind, sure_invoke; [by left|]. intros average_time_exact _.
  apply sure_bind, sure_invoke; [by left|]. intros average_time_approx _.
  apply sure_bind. eapply sure_lift.
  { apply vec_op_equal_lengths. exact (eq_trans He (eq_sym Ha)). }
  assert (length (zip_with Qdiv (time_exact t) (time_approx t)) = n_iter) as Hs.
  { rewrite length_zip_with. unfold vec, num in *. lia. }
  cbv beta. unfold vec, num in *.
  revert Hs. generalize (zip_with Qdiv (time_exact t) (time_approx t)).
  intros speedup Hs.
  apply sure_bind, sure_invoke; [left; exact Hs|]. intros average_speedup _.
  apply sure_bind, sure_invoke; [by left|]. intros mean_accuracy _.
  apply sure_bind, sure_invoke; [exact Hacc|]. intros std_accuracy _.
  sure_call. sure_call.
  apply sure_bind, sure_invoke; [exact Ha|]. intros std_time_approx _.
  apply sure_bind, sure_invoke; [exact Hs|]. intros std_speedup _.
  apply sure_ret. unfold collected, metric_fields in *.
  repeat match goal with
         | H : Forall _ (_ :: _) |- _ => apply Forall_cons in H; destruct H as [? H]
         end.
  repeat constructor; simpl; rewrite length_app; simpl; unfold vec, num in *; lia.
Qed.

Lemma sure_benchmark (queries index_data : mat) :
  length queries = Z.to_nat n_queries ->
  length index_data = Z.to_nat n_samples_max ->
  sure nn_contract nn_arguments (benchmark queries index_data) (collected n_steps).
Proof.
  intros Hq Hd. unfold benchmark. eapply sure_mono.
  2:{ apply (sure_for_each _ _ _ _ collected (fun n => In n n_samples_values) 0).
      - apply Forall_forall. intros n Hn. by apply list_elem_of_In.
      - by repeat constructor.
      - intros j m n Hn Hm. by apply sure_benchmark_step. }
  intros m Hm. by rewrite n_samples_values_recorded in Hm.
Qed.

Lemma length_index_sizes : length index_sizes = n_steps.
Proof. unfold index_sizes. by rewrite length_map, n_samples_values_recorded. Qed.

Lemma collected_fields (i : nat) (m : metrics) :
  collected i m ->
  length (average_times_exact m) = i /\ length (average_times_approx m) = i /\
  length (std_times_approx m) = i /\ length (accuracies m) = i /\
  length (std_accuracies m) = i /\ length (average_speedups m) = i /\
  length (std_speedups m) = i.
Proof.
  unfold collected, metric_fields. intros H.
  repeat match goal with
         | H : Forall _ (_ :: _) |- _ => apply Forall_cons in H; destruct H as [? H]
         end.
  by repeat split.
Qed.

Lemma sure_nn_plots (m : metrics) :
  collected n_steps m -> sure nn_contract nn_arguments (nn_plots m) (fun _ => True).
Proof.
  intros Hm. apply collected_fields in Hm.
  destruct Hm as (H1 & H2 & H3 & H4 & H5 & H6 & H7).
  pose proof length_index_sizes as Hx.
  unfold nn_plots, plot_query_time, plot_speedup, plot_precision,
    Scatter_, Layout_, Figure_.
  repeat (sure_calls;
          try (apply sure_invoke;
               [split; [exact Hx|split; [assumption|by intros e [= <-]]]
               |intros _ _])).
  exact I.
Qed.

Lemma sure_nn_notebook : sure nn_contract nn_arguments nn_notebook (fun _ => True).
Proof.
  unfold nn_notebook, nn_calculations. sure_calls.
  eapply sure_mono; [|apply sure_generate_data].
  intros [queries index_data] [Hq Hd]. cbn [fst snd] in Hq, Hd.
  eapply sure_mono; [|by apply sure_benchmark].
  intros m Hm. apply sure_bind. eapply sure_mono; [|by apply sure_nn_plots].
  intros _ _. unfold publish_cell. sure_calls. exact I.
Qed.

End NN.

Lemma demo_library_nn_contract (u : num) : honours (demo_library u) nn_contract.
Proof.
  intros X c w w' v. destruct c; try done; simpl; intros [= <-].
  - intros Hlow. pose proof (Z.mod_pos_bound (Z.of_nat w) (high - low)). lia.
  - simpl. by rewrite repeat_length.
Qed.

Section NN_run.
Context {W : Type} (lib : library W) (w : W).
Hypothesis Hlib : honours lib nn_contract.

Lemma nn_notebook_arguments :
  Forall (entry_sat nn_arguments) (trace (run lib nn_notebook w)).
Proof. by destruct (sure_sound lib _ _ _ _ w Hlib sure_nn_notebook). Qed.

Lemma nn_notebook_sure : raised_by_last_call (run lib nn_notebook w).
Proof. by destruct (sure_sound lib _ _ _ _ w Hlib sure_nn_notebook) as (_ & _ & ?). Qed.

End NN_run.

(** X9: when [make_blobs] answers [n_samples] points and [randint] an
    integer of its range, no indexing, slicing or division of the
    nearest-neighbours notebook raises: an execution that ends in an
    exception ends with the library call that raised it. *)
Theorem nn_notebook_raises_only_in_libraries {W : Type} (lib : library W) (w : W) :
  honours lib nn_contract -> raised_by_last_call (run lib nn_notebook w).
Proof. apply nn_notebook_sure. Qed.

Lemma nn_notebook_raises_only_in_libraries_witness :
  honours (demo_library 0.5) nn_contract /\
  raised_by_last_call (run (demo_library 0.5) nn_notebook 0%nat).
Proof.
  split; [apply demo_library_nn_contract|].
  exact (nn_notebook_raises_only_in_libraries (demo_library 0.5) 0%nat
           (demo_library_nn_contract 0.5)).
Defined.

(** X10: both estimators of every index size are fitted on exactly
    [n_samples] points, for [n_samples] one of the six index sizes. *)
Theorem nn_indexes_are_sized {W : Type} (lib : library W) (w : W) :
  honours lib nn_contract ->
  Forall (entry_sat indexes_are_sized) (trace (run lib nn_notebook w)).
Proof.
  intros Hlib. eapply Forall_impl; [by apply nn_notebook_arguments|].
  intros [X c a]. by destruct c.
Qed.

Lemma nn_indexes_are_sized_witness :
  honours (demo_library 0.5) nn_contract /\
  Forall (entry_sat indexes_are_sized)
         (trace (run (demo_library 0.5) nn_notebook 0%nat)).
Proof.
  split; [apply demo_library_nn_contract|].
  exact (nn_indexes_are_sized (demo_library 0.5) 0%nat
           (demo_library_nn_contract 0.5)).
Defined.

(** X11: every [kneighbors] call is asked about exactly one query
    point. *)
Theorem nn_queries_are_single {W : Type} (lib : library W) (w : W) :
  honours lib nn_contract ->
  Forall (entry_sat queries_are_single) (trace (run lib nn_notebook w)).
Proof.
  intros Hlib. eapply Forall_impl; [by apply nn_notebook_arguments|].
  intros [X c a]. by destruct c.
Qed.

Lemma nn_queries_are_single_witness :
  honours (demo_library 0.5) nn_contract /\
  Forall (entry_sat queries_are_single)
         (trace (run (demo_library 0.5) nn_notebook 0%nat)).
Proof.
  split; [apply demo_library_nn_contract|].
  exact (nn_queries_are_single (demo_library 0.5) 0%nat
           (demo_library_nn_contract 0.5)).
Defined.

(** X12: every standard deviation is taken over the [n_iter]
    measurements of one index size, and every mean over those or over
    the hits of one query. *)
Theorem nn_statistics_are_per_size {W : Type} (lib : library W) (w : W) :
  honours lib nn_contract ->
  Forall (entry_sat statistics_are_per_size) (trace (run lib nn_notebook w)).
Proof.
  intros Hlib. eapply Forall_impl; [by apply nn_notebook_arguments|].
  intros [X c a]. by destruct c.
Qed.

Lemma nn_statistics_are_per_size_witness :
  honours (demo_library 0.5) nn_contract /\
  Forall (entry_sat statistics_are_per_size)
         (trace (run (demo_library 0.5) nn_notebook 0%nat)).
Proof.
  split; [apply demo_library_nn_contract|].
  exact (nn_statistics_are_per_size (demo_library 0.5) 0%nat
           (demo_library_nn_contract 0.5)).
Defined.

(** X13: every curve of the three charts has one point per index size,
    and one error bar per point where it has error bars. *)
Theorem nn_curves_are_complete {W : Type} (lib : library W) (w : W) :
  honours lib nn_contract ->
  Forall (entry_sat curves_are_complete) (trace (run lib nn_notebook w)).
Proof.
  intros Hlib. eapply Forall_impl; [by apply nn_notebook_arguments|].
  intros [X c a]. by destruct c.
Qed.

Lemma nn_curves_are_complete_witness :
  honours (demo_library 0.5) nn_contract /\
  Forall (entry_sat curves_are_complete)
         (trace (run (demo_library 0.5) nn_notebook 0%nat)).
Proof.
  split; [apply demo_library_nn_contract|].
  exact (nn_curves_are_complete (demo_library 0.5) 0%nat
           (demo_library_nn_contract 0.5)).
Defined.

(** ** Arrays in memory *)

Lemma M_bind_ok {A B : Type} (m : Store.M A) (k : A -> Store.M B)
    (h h' : gmap nat (list num)) (a : A) :
  m h = (OK a, h') -> (m ≫= k) h = k a h'.
Proof. intros Hm. unfold mbind, Store.M_bind. by rewrite Hm. Qed.

Lemma M_bind_raise {A B : Type} (m : Store.M A) (k : A -> Store.M B)
    (h h' : gmap nat (list num)) (e : exn) :
  m h = (Raise e, h') -> (m ≫= k) h = (Raise e, h').
Proof. intros Hm. unfold mbind, Store.M_bind. by rewrite Hm. Qed.

Lemma fresh_ne (h : gmap nat (list num)) (l : nat) (c : list num) :
  h !! l = Some c -> fresh (dom h) <> l.
Proof.
  intros Hl Heq. apply (is_fresh (dom h)). rewrite Heq. apply elem_of_dom. eauto.
Qed.

Lemma fresh_None (h : gmap nat (list num)) : h !! fresh (dom h) = None.
Proof. apply not_elem_of_dom, is_fresh. Qed.

Lemma lookup_alloc (h : gmap nat (list num)) (l : nat) (c c' : list num) :
  h !! l = Some c -> <[fresh (dom h) := c']> h !! l = Some c.
Proof. intros Hl. rewrite lookup_insert_ne; [done|]. by eapply fresh_ne. Qed.

Lemma first_of_row_run (x : Store.ndarray) (s c : nat) (pre tail : list num) (v : num)
    (h : gmap nat (list num)) :
  Store.ncols x = S c -> length pre = (s * S c)%nat ->
  h !! Store.buf x = Some (pre ++ v :: tail) ->
  Store.first_of_row x s h = (OK v, h).
Proof.
  intros Hc Hpre Hx. unfold Store.first_of_row, Store.read, mbind, Store.M_bind.
  rewrite Hx, Hc. rewrite lookup_app_r by lia.
  by replace (s * S c - length pre)%nat with 0%nat by lia.
Qed.

Lemma append_run (k : nat) (v : num) (items : list num) (h : gmap nat (list num)) :
  h !! k = Some items -> Store.append k v h = (OK tt, <[k := items ++ [v]]> h).
Proof.
  intros Hk. unfold Store.append, Store.read, Store.write, mbind, Store.M_bind.
  by rewrite Hk.
Qed.

Lemma append_first_of_rows_run (x : Store.ndarray) (k c : nat) (rows : mat) :
  Store.ncols x = S c -> k <> Store.buf x ->
  Forall (fun r : list num => length r = S c) rows ->
  forall (pre : list num) (s : nat) (items : list num) (h : gmap nat (list num)),
  length pre = (s * S c)%nat ->
  h !! Store.buf x = Some (pre ++ concat rows) ->
  h !! k = Some items ->
  exists firsts, first_column rows = OK firsts /\
    Store.append_first_of_rows x k (seq s (length rows)) h
    = (OK tt, <[k := items ++ firsts]> h).
Proof.
  intros Hc Hk Hrows.
  induction Hrows as [|row rows Hrow _ IH]; intros pre s items h Hpre Hx Hitems.
  - exists []. split; [done|]. simpl. by rewrite app_nil_r, insert_id.
  - destruct row as [|v rest]; [discriminate Hrow|].
    destruct (IH (pre ++ v :: rest) (S s) (items ++ [v]) (<[k := items ++ [v]]> h))
      as (firsts & Hf & Hrun).
    + rewrite length_app, Hpre, Hrow. lia.
    + rewrite lookup_insert_ne by done. rewrite Hx. simpl. by rewrite <- app_assoc.
    + apply lookup_insert_eq.
    + exists (v :: firsts). split; [simpl; by rewrite Hf|].
      cbn [length seq Store.append_first_of_rows].
      rewrite (M_bind_ok _ _ h h v)
        by (eapply first_of_row_run; [exact Hc|exact Hpre|exact Hx]).
      rewrite (M_bind_ok _ _ _ _ tt (append_run k v items h Hitems)).
      rewrite Hrun, insert_insert_eq. by rewrite <- app_assoc.
Qed.

(** X14: the two models of [data_to_plotly] agree: on a live array laid
    out row after row, the helper in memory leaves a new list holding
    what the helper on lists of rows returns, and it raises when that
    one raises. *)
Theorem data_to_plotly_in_memory (h : gmap nat (list num)) (x : Store.ndarray)
    (rows : mat) :
  laid_out h x rows ->
  match data_to_plotly rows with
  | OK items =>
      exists k, h !! k = None /\ Store.data_to_plotly x h = (OK k, <[k := items]> h)
  | Raise e => fst (Store.data_to_plotly x h) = Raise e
  end.
Proof.
  intros (Hx & Hn & Hrows). rewrite data_to_plotly_first_column.
  pose proof (fresh_ne h _ _ Hx) as Hk. pose proof (fresh_None h) as Hnew.
  unfold Store.data_to_plotly.
  rewrite (M_bind_ok _ _ h (<[fresh (dom h) := []]> h) (fresh (dom h))) by done.
  rewrite Hn. set (k := fresh (dom h)) in *.
  destruct (Store.ncols x) as [|c] eqn:Hc.
  - destruct Hrows as [|row rows Hrow Hrows]; simpl.
    + exists k. split; [done|]. done.
    + destruct row; [|discriminate Hrow].
      erewrite M_bind_raise; [done|].
      erewrite M_bind_raise; [done|].
      unfold Store.first_of_row, Store.read, mbind, Store.M_bind.
      rewrite lookup_insert_ne by done. by rewrite Hx, Hc.
  - destruct (append_first_of_rows_run x k c rows Hc Hk Hrows [] 0 []
                (<[k := []]> h)) as (firsts & -> & Hrun).
    + done.
    + by rewrite lookup_insert_ne.
    + apply lookup_insert_eq.
    + exists k. split; [done|].
      rewrite (M_bind_ok _ _ _ _ tt Hrun). by rewrite insert_insert_eq.
Qed.

Lemma data_to_plotly_in_memory_witness :
  laid_out {[ 0%nat := [1; 2; 3; 4; 5; 6] ]}
           {| Store.buf := 0; Store.nrows := 3; Store.ncols := 2 |}
           [[1; 2]; [3; 4]; [5; 6]] /\
  exists k, ({[ 0%nat := [1; 2; 3; 4; 5; 6] ]} : gmap nat (list num)) !! k = None /\
    Store.data_to_plotly {| Store.buf := 0; Store.nrows := 3; Store.ncols := 2 |}
      {[ 0%nat := [1; 2; 3; 4; 5; 6] ]}
    = (OK k, <[k := [1; 3; 5]]> {[ 0%nat := [1; 2; 3; 4; 5; 6] ]}).
Proof.
  assert (laid_out {[ 0%nat := [1; 2; 3; 4; 5; 6] ]}
            {| Store.buf := 0; Store.nrows := 3; Store.ncols := 2 |}
            [[1; 2]; [3; 4]; [5; 6]]) as H.
  { split; [by vm_compute|]. split; [done|]. by repeat constructor. }
  split; [exact H|].
  exact (data_to_plotly_in_memory _ _ _ H).
Defined.

Lemma np_sin_run (sine : num -> num) (x : Store.ndarray) (h : gmap nat (list num))
    (contents : list num) :
  h !! Store.buf x = Some contents ->
  Store.np_sin sine x h =
  (OK {| Store.buf := fresh (dom h); Store.nrows := Store.nrows x;
         Store.ncols := Store.ncols x |},
   <[fresh (dom h) := map sine contents]> h).
Proof.
  intros Hx. unfold Store.np_sin, Store.read, Store.alloc, mbind, Store.M_bind.
  by rewrite Hx.
Qed.

Lemma multiply_run (a b : Store.ndarray) (h : gmap nat (list num))
    (ca cb : list num) :
  h !! Store.buf a = Some ca -> h !! Store.buf b = Some cb ->
  Store.multiply a b h =
  (OK {| Store.buf := fresh (dom h); Store.nrows := Store.nrows a;
         Store.ncols := Store.ncols a |},
   <[fresh (dom h) := zip_with Qmult ca cb]> h).
Proof.
  intros Ha Hb. unfold Store.multiply, Store.read, Store.alloc, mbind, Store.M_bind.
  by rewrite Ha, Hb.
Qed.

Lemma iadd_run (y b : Store.ndarray) (h : gmap nat (list num)) (cy cb sum : list num) :
  h !! Store.buf y = Some cy -> h !! Store.buf b = Some cb ->
  vec_iadd cy cb = OK sum ->
  Store.iadd y b h = (OK tt, <[Store.buf y := sum]> h).
Proof.
  intros Hy Hb Hsum. unfold Store.iadd, Store.read, Store.write, mbind, Store.M_bind.
  by rewrite Hy, Hb, Hsum.
Qed.

Lemma iadd_raises (y b : Store.ndarray) (h : gmap nat (list num)) (cy cb : list num)
    (e : exn) :
  h !! Store.buf y = Some cy -> h !! Store.buf b = Some cb ->
  vec_iadd cy cb = Raise e ->
  Store.iadd y b h = (Raise e, h).
Proof.
  intros Hy Hb He. unfold Store.iadd, Store.read, Store.raise, mbind, Store.M_bind.
  by rewrite Hy, Hb, He.
Qed.

Lemma map_result_total {A B : Type} (g : A -> B) (xs : list A) :
  map_result (fun v => OK (g v)) xs = OK (map g xs).
Proof. induction xs as [|v xs IH]; simpl; [done|]. by rewrite IH. Qed.

Lemma vec_iadd_scalar (a : vec) (v : num) :
  vec_iadd a [v] = OK (map (fun p => p + v) a).
Proof.
  unfold vec_iadd, vec_op, broadcast, scalar_op.
  destruct a as [|a0 [|a1 a]]; simpl; [done|done|].
  unfold num in *. by rewrite (map_result_total (fun p => p + v) a).
Qed.

Lemma vec_iadd_refused (a b : vec) :
  length b <> length a -> length b <> 1%nat -> vec_iadd a b = Raise ValueError.
Proof.
  intros Hlen Hone. unfold vec_iadd.
  destruct (Nat.eqb_spec (length a) (length b)) as [Heq|_]; [by rewrite Heq in Hlen|].
  by destruct b as [|b0 [|b1 b]].
Qed.

Lemma f_run (sine : num -> num) (x : Store.ndarray) (h : gmap nat (list num))
    (contents : list num) :
  h !! Store.buf x = Some contents ->
  exists l h',
    Store.f sine x h =
    (OK {| Store.buf := l; Store.nrows := Store.nrows x; Store.ncols := Store.ncols x |},
     h') /\
    h !! l = None /\ h ⊆ h' /\
    h' !! l = Some (zip_with Qmult contents (map sine contents)).
Proof.
  intros Hx. set (h1 := <[fresh (dom h) := map sine contents]> h).
  exists (fresh (dom h1)), (<[fresh (dom h1) := zip_with Qmult contents (map sine contents)]> h1).
  assert (h ⊆ h1) as Hsub by apply insert_subseteq, fresh_None.
  split; [|split; [|split]].
  - unfold Store.f. rewrite (M_bind_ok _ _ _ _ _ (np_sin_run sine x h contents Hx)).
    apply multiply_run; [by apply lookup_alloc|apply lookup_insert_eq].
  - pose proof (fresh_None h1) as Hnew.
    destruct (h !! fresh (dom h1)) as [c|] eqn:E; [|done].
    eapply lookup_weaken in E; [|exact Hsub]. congruence.
  - etransitivity; [exact Hsub|]. apply insert_subseteq, fresh_None.
  - apply lookup_insert_eq.
Qed.

(** X15: on a live array, [f] in memory returns an array of the same
    shape in a buffer that did not exist before, holding [x * sin(x)]
    entry by entry, and leaves every buffer of the store as it was. *)
Theorem f_allocates_the_product (sine : num -> num) (x : Store.ndarray)
    (h : gmap nat (list num)) (contents : list num) :
  h !! Store.buf x = Some contents ->
  exists r, fst (Store.f sine x h) = OK r /\
    h !! Store.buf r = None /\
    h ⊆ snd (Store.f sine x h) /\
    snd (Store.f sine x h) !! Store.buf r
      = Some (zip_with Qmult contents (map sine contents)) /\
    Store.nrows r = Store.nrows x /\ Store.ncols r = Store.ncols x.
Proof.
  intros Hx. destruct (f_run sine x h contents Hx) as (l & h' & -> & Hl & Hsub & Hr).
  eexists. split; [reflexivity|]. by repeat split.
Qed.

Lemma f_allocates_the_product_witness :
  exists r,
    fst (Store.f sine_stand_in {| Store.buf := 0; Store.nrows := 1; Store.ncols := 2 |}
           {[ 0%nat := [1; 2] ]}) = OK r /\
    ({[ 0%nat := [1; 2] ]} : gmap nat (list num)) !! Store.buf r = None /\
    snd (Store.f sine_stand_in {| Store.buf := 0; Store.nrows := 1; Store.ncols := 2 |}
           {[ 0%nat := [1; 2] ]}) !! Store.buf r
      = Some (zip_with Qmult [1; 2] (map sine_stand_in [1; 2])).
Proof.
  destruct (f_allocates_the_product sine_stand_in
              {| Store.buf := 0; Store.nrows := 1; Store.ncols := 2 |}
              {[ 0%nat := [1; 2] ]} [1; 2]) as (r & Hr & Hnew & _ & Hc & _).
  - by vm_compute.
  - exists r. by repeat split.
Defined.

Lemma noisy_observations_run (sine : num -> num) (X : Store.ndarray)
    (draws normal : list num) (h : gmap nat (list num)) (contents : list num) :
  h !! Store.buf X = Some contents ->
  match vec_iadd (zip_with Qmult contents (map sine contents)) normal with
  | OK sum =>
      exists y dy h',
        Store.noisy_observations sine X draws normal h = (OK (y, dy), h') /\
        h' !! Store.buf y = Some sum /\
        h' !! Store.buf dy = Some (map (fun v => 0.5 + 1.0 * v) draws) /\
        h' !! Store.buf X = Some contents /\
        h !! Store.buf y = None /\ h !! Store.buf dy = None
  | Raise e =>
      exists h',
        Store.noisy_observations sine X draws normal h = (Raise e, h') /\
        h' !! Store.buf X = Some contents
  end.
Proof.
  intros HX. destruct (f_run sine X h contents HX) as (l & h1 & Hf & Hl & Hsub & Hy).
  set (h2 := <[fresh (dom h1) := draws]> h1).
  set (h3 := <[fresh (dom h2) := map (Qmult 1.0) draws]> h2).
  set (h4 := <[fresh (dom h3) := map (Qplus 0.5) (map (Qmult 1.0) draws)]> h3).
  set (h5 := <[fresh (dom h4) := normal]> h4).
  assert (h1 ⊆ h2) as H12 by apply insert_subseteq, fresh_None.
  assert (h2 ⊆ h3) as H23 by apply insert_subseteq, fresh_None.
  assert (h3 ⊆ h4) as H34 by apply insert_subseteq, fresh_None.
  assert (h4 ⊆ h5) as H45 by apply insert_subseteq, fresh_None.
  assert (h1 ⊆ h3) as H13 by (etransitivity; [exact H12|exact H23]).
  assert (h1 ⊆ h5) as H15
    by (etransitivity; [exact H13|]; etransitivity; [exact H34|exact H45]).
  assert (h5 !! l = Some (zip_with Qmult contents (map sine contents))) as Hy5
    by (eapply lookup_weaken; [exact Hy|exact H15]).
  assert (h5 !! fresh (dom h3)
          = Some (map (Qplus 0.5) (map (Qmult 1.0) draws))) as Hdy
    by (eapply lookup_weaken; [apply lookup_insert_eq|exact H45]).
  assert (h3 !! l = Some (zip_with Qmult contents (map sine contents))) as Hy3
    by (eapply lookup_weaken; [exact Hy|exact H13]).
  pose proof (fresh_ne h3 l _ Hy3) as Hne.
  assert (h5 !! Store.buf X = Some contents) as HX5.
  { eapply lookup_weaken; [exact HX|]. etransitivity; [exact Hsub|exact H15]. }
  assert (l <> Store.buf X) as HlX by (intros ->; congruence).
  destruct (vec_iadd (zip_with Qmult contents (map sine contents)) normal)
    as [sum|e] eqn:Hsum.
  - eexists _, _, _. split; [|split; [|split; [|split; [|split]]]].
    + unfold Store.noisy_observations. rewrite (M_bind_ok _ _ _ _ _ Hf).
      repeat (erewrite M_bind_ok; [|reflexivity]).
      erewrite M_bind_ok; [reflexivity|].
      eapply iadd_run; [exact Hy5|apply lookup_insert_eq|exact Hsum].
    + apply lookup_insert_eq.
    + cbn [Store.buf Store.ravel]. rewrite lookup_insert_ne by done.
      transitivity (Some (map (Qplus 0.5) (map (Qmult 1.0) draws))); [exact Hdy|].
      f_equal. by rewrite map_map.
    + cbn [Store.buf Store.ravel]. rewrite lookup_insert_ne by done. exact HX5.
    + exact Hl.
    + cbn [Store.buf]. destruct (h !! fresh (dom h3)) as [c|] eqn:E; [|done].
      eapply lookup_weaken in E; [|etransitivity; [exact Hsub|exact H13]].
      by rewrite fresh_None in E.
  - eexists. split; [|exact HX5].
    unfold Store.noisy_observations. rewrite (M_bind_ok _ _ _ _ _ Hf).
    repeat (erewrite M_bind_ok; [|reflexivity]).
    erewrite M_bind_raise; [reflexivity|].
    eapply iadd_raises; [exact Hy5|apply lookup_insert_eq|exact Hsum].
Qed.

(** X16: in the noisy case, [y += noise] writes into the buffer that
    [f(X)] allocated and never into that of [X].  With one noise value
    per observation, [y] afterwards holds [X * sin(X) + noise] entry by
    entry and [dy] holds [0.5 + 1.0 * draws]; a single noise value is
    added to every entry; any other number of noise values is refused
    with a [ValueError]. *)
Theorem noisy_observations_in_place (sine : num -> num) (X : Store.ndarray)
    (draws normal : list num) (h : gmap nat (list num)) (contents : list num) :
  h !! Store.buf X = Some contents ->
  (length normal = length contents ->
   exists y dy h',
     Store.noisy_observations sine X draws normal h = (OK (y, dy), h') /\
     h' !! Store.buf y
       = Some (zip_with Qplus (zip_with Qmult contents (map sine contents)) normal) /\
     h' !! Store.buf dy = Some (map (fun v => 0.5 + 1.0 * v) draws) /\
     h' !! Store.buf X = Some contents /\
     h !! Store.buf y = None /\ h !! Store.buf dy = None) /\
  (forall v, normal = [v] ->
   exists y dy h',
     Store.noisy_observations sine X draws normal h = (OK (y, dy), h') /\
     h' !! Store.buf y
       = Some (map (fun p => p + v) (zip_with Qmult contents (map sine contents))) /\
     h' !! Store.buf X = Some contents /\
     h !! Store.buf y = None) /\
  (length normal <> length contents -> length normal <> 1%nat ->
   exists h',
     Store.noisy_observations sine X draws normal h = (Raise ValueError, h') /\
     h' !! Store.buf X = Some contents).
Proof.
  intros HX. pose proof (noisy_observations_run sine X draws normal h contents HX) as Hrun.
  assert (length (zip_with Qmult contents (map sine contents)) = length contents)
    as Hlen by (rewrite length_zip_with, length_map; apply Nat.min_id).
  split; [|split].
  - intros Hn. rewrite vec_iadd_equal_lengths in Hrun; [exact Hrun|].
    exact (eq_trans Hlen (eq_sym Hn)).
  - intros v ->. rewrite vec_iadd_scalar in Hrun.
    destruct Hrun as (y & dy & h' & Hr & Hy & _ & HX' & Hnew & _).
    by exists y, dy, h'.
  - intros Hn Hone. rewrite vec_iadd_refused in Hrun; [exact Hrun| |exact Hone].
    intros Heq. apply Hn. exact (eq_trans Heq Hlen).
Qed.

Lemma noisy_observations_in_place_witness :
  exists y dy h',
    Store.noisy_observations sine_stand_in
      {| Store.buf := 0; Store.nrows := 2; Store.ncols := 1 |} [0.5; 0.25] [1; 1]
      {[ 0%nat := [1; 2] ]} = (OK (y, dy), h') /\
    h' !! Store.buf y
      = Some (zip_with Qplus (zip_with Qmult [1; 2] (map sine_stand_in [1; 2])) [1; 1]) /\
    h' !! 0%nat = Some [1; 2].
Proof.
  destruct (noisy_observations_in_place sine_stand_in
              {| Store.buf := 0; Store.nrows := 2; Store.ncols := 1 |}
              [0.5; 0.25] [1; 1] {[ 0%nat := [1; 2] ]} [1; 2]) as (Hsame & _ & _).
  - by vm_compute.
  - destruct Hsame as (y & dy & h' & Hrun & Hy & _ & HX & _); [reflexivity|].
    exists y, dy, h'. by repeat split.
Defined.

(** With three noise values for two observations the in-place sum is
    refused, and with one it is stretched. *)
Example noisy_observations_broadcast :
  fst (Store.noisy_observations sine_stand_in
         {| Store.buf := 0; Store.nrows := 2; Store.ncols := 1 |} [0.5; 0.25] [1; 1; 1]
         {[ 0%nat := [1; 2] ]}) = Raise ValueError /\
  snd (Store.noisy_observations sine_stand_in
         {| Store.buf := 0; Store.nrows := 2; Store.ncols := 1 |} [0.5; 0.25] [1]
         {[ 0%nat := [1; 2] ]}) !! 2%nat
    = Some (map (fun p => p + 1) (zip_with Qmult [1; 2] (map sine_stand_in [1; 2]))).
Proof. split; vm_compute; reflexivity. Qed.

(** ** One query, two indexes *)

Ltac paired_step :=
  first
    [ safe_step
    | apply safe_invoke; [simpl; apply bool_decide_eq_true; reflexivity|intros ?] ].

Lemma nn_notebook_paired :
  safe paired_queries (fun s _ => s = None) (fun _ => True) None nn_notebook.
Proof. autounfold with notebook. repeat paired_step. Qed.

(** X17: in every execution of the nearest-neighbours notebook the
    [kneighbors] calls come in pairs: the exact index is asked first,
    and the next [kneighbors] call asks the approximate index about the
    very same query; when the notebook returns, no query is left
    unpaired. *)
Theorem nn_queries_are_paired {W : Type} (lib : library W) (w : W) :
  accepted paired_queries None (trace (run lib nn_notebook w)) = true /\
  (forall r, outcome (run lib nn_notebook w) = OK r ->
     final_state paired_queries None (trace (run lib nn_notebook w)) = None).
Proof.
  destruct (safe_sound paired_queries lib nn_notebook _ _ None w nn_notebook_paired)
    as (Hacc & Hret & _).
  split; [exact Hacc|]. intros r Hr. exact (Hret r Hr).
Qed.

(** ** Counting the fits and the queries *)

Lemma safe_for_each_inv {St A S : Type} (M : monitor St) (xs : list A)
    (body : S -> A -> prog S) (Inv : nat -> St -> Prop) (T : St -> Prop)
    (i : nat) (s : St) (acc : S) :
  Inv i s ->
  (forall j s' acc' v,
      Inv j s' -> safe M (fun s'' _ => Inv (Datatypes.S j) s'') T s' (body acc' v)) ->
  safe M (fun s' _ => Inv (i + length xs)%nat s') T s (for_each xs body acc).
Proof.
  intros Hs Hbody. revert i s acc Hs.
  induction xs as [|v xs IH]; intros i s acc Hs; simpl.
  - by rewrite Nat.add_0_r.
  - apply safe_bind. eapply safe_mono; [|by apply Hbody].
    intros s' acc' Hs'. cbv beta.
    replace (i + Datatypes.S (length xs))%nat with (Datatypes.S i + length xs)%nat by lia.
    by apply IH.
Qed.

Ltac safe_to_loop :=
  repeat lazymatch goal with
         | |- safe _ _ _ _ (for_each _ _ _ ≫= _) => fail
         | _ => safe_step
         end.

Lemma final_state_call_counter (t : list entry) (a b : nat) :
  final_state call_counter (a, b) t =
  ((a + length (List.filter is_fit t))%nat, (b + length (List.filter is_query t))%nat).
Proof.
  unfold final_state. revert a b.
  induction t as [|en t IH]; intros a b; simpl.
  - by rewrite !Nat.add_0_r.
  - rewrite IH. destruct (is_fit en), (is_query en); simpl; f_equal; lia.
Qed.

Lemma query_once_counts (queries : mat) (nbrs lshf : estimator) (t : timings)
    (i a b : nat) :
  safe call_counter (fun s _ => s = (a, S (S b))) (fun _ => True) (a, b)
       (query_once queries nbrs lshf t i).
Proof. unfold query_once. repeat safe_step. Qed.

Lemma benchmark_step_counts (queries index_data : mat) (m : metrics) (n_samples : Z)
    (a b : nat) :
  safe call_counter (fun s _ => s = (S (S a), (b + 2 * n_iter)%nat)) (fun _ => True)
       (a, b) (benchmark_step queries index_data m n_samples).
Proof.
  unfold benchmark_step, LSHForest, NearestNeighbors.
  safe_to_loop. apply safe_bind. eapply safe_mono.
  2:{ apply (safe_for_each_inv call_counter _ _
               (fun i s => s = (S (S a), (b + 2 * i)%nat)) _ 0).
      - cbn [after call_counter is_fit is_query fst snd]. f_equal. lia.
      - intros j s' t i ->. eapply safe_mono; [|apply query_once_counts].
        intros s'' _ ->. f_equal. lia. }
  intros s' t ->. rewrite length_seq. simpl "+"%nat.
  repeat safe_step.
Qed.

Lemma benchmark_counts (queries index_data : mat) :
  safe call_counter (fun s _ => s = ((2 * n_steps)%nat, (2 * n_iter * n_steps)%nat))
       (fun _ => True) (0%nat, 0%nat) (benchmark queries index_data).
Proof.
  unfold benchmark. rewrite n_samples_values_recorded. eapply safe_mono.
  2:{ apply (safe_for_each_inv call_counter _ _
               (fun j s => s = ((2 * j)%nat, (2 * n_iter * j)%nat)) _ 0); [done|].
      intros j s' m n ->. eapply safe_mono; [|apply benchmark_step_counts].
      intros s'' _ ->. unfold n_iter. f_equal; lia. }
  by intros s' m ->.
Qed.

Lemma nn_notebook_counts :
  safe call_counter (fun s _ => s = ((2 * n_steps)%nat, (2 * n_iter * n_steps)%nat))
       (fun _ => True) (0%nat, 0%nat) nn_notebook.
Proof.
  unfold nn_notebook, nn_calculations, generate_data.
  repeat safe_step. eapply safe_mono; [|apply benchmark_counts].
  intros s' m' ->. unfold nn_plots, plot_query_time, plot_speedup, plot_precision,
    publish_cell, Scatter_, Layout_, Figure_.
  repeat safe_step.
Qed.

(** X18: an execution of the nearest-neighbours notebook that returns
    has fitted two estimators per index size and asked each of them
    [n_iter] queries per index size: 12 fits and 60 queries in all. *)
Theorem nn_notebook_call_counts {W : Type} (lib : library W) (w : W) (r : unit) :
  outcome (run lib nn_notebook w) = OK r ->
  length (List.filter is_fit (trace (run lib nn_notebook w))) = (2 * n_steps)%nat /\
  length (List.filter is_query (trace (run lib nn_notebook w)))
    = (2 * n_iter * n_steps)%nat.
Proof.
  intros Hr.
  destruct (safe_sound call_counter lib nn_notebook _ _ (0%nat, 0%nat) w
              nn_notebook_counts) as (_ & Hret & _).
  specialize (Hret r Hr). rewrite final_state_call_counter in Hret.
  by injection Hret.
Qed.

Lemma nn_notebook_call_counts_witness :
  length (List.filter is_fit (trace (run (demo_library 0.5) nn_notebook 0%nat)))
    = 12%nat /\
  length (List.filter is_query (trace (run (demo_library 0.5) nn_notebook 0%nat)))
    = 60%nat.
Proof.
  apply (nn_notebook_call_counts (demo_library 0.5) 0%nat tt).
  vm_compute. reflexivity.
Defined.
